(** * SpliceAI-lookup server: a shallow embedding of [server.py].

    Strings are [string]s whose characters stand for code points below 256;
    Python dictionaries are [gmap]s; the Redis server, the tabix files, the
    SpliceAI model and the liftOver tool are the environment of the program
    and appear as explicit state or as section variables. *)

From Stdlib Require Import ZArith QArith Qround Ascii String List Bool Lia.
From stdpp Require Import base option list gmap strings sorting.

Local Open Scope string_scope.
Local Open Scope Z_scope.

#[local] Arguments String.append !_ _ / : simpl nomatch.

(** ** Strings *)

Module Str.

Definition dq : string := String (ascii_of_nat 34) EmptyString.

Fixpoint all (p : ascii → bool) (s : string) : bool :=
  match s with
  | EmptyString => true
  | String c s' => p c && all p s'
  end.

(** [s.startswith(w)], returning what follows [w]. *)
Fixpoint strip_prefix (w s : string) : option string :=
  match w, s with
  | EmptyString, _ => Some s
  | String a w', String b s' => if Ascii.eqb a b then strip_prefix w' s' else None
  | String _ _, EmptyString => None
  end.

Definition startswith (s w : string) : bool :=
  match strip_prefix w s with Some _ => true | None => false end.

(** [s[:n]] *)
Fixpoint take (n : nat) (s : string) : string :=
  match n, s with
  | S n', String c s' => String c (take n' s')
  | _, _ => EmptyString
  end.

(** [s[::-1]] *)
Fixpoint rev_onto (s acc : string) : string :=
  match s with
  | EmptyString => acc
  | String c s' => rev_onto s' (String c acc)
  end.

Definition rev (s : string) : string := rev_onto s EmptyString.

Fixpoint map (f : ascii → ascii) (s : string) : string :=
  match s with
  | EmptyString => EmptyString
  | String c s' => String (f c) (map f s')
  end.

(** [sep.join(l)] *)
Fixpoint join (sep : string) (l : list string) : string :=
  match l with
  | [] => EmptyString
  | [x] => x
  | x :: l' => x +:+ sep +:+ join sep l'
  end.

Definition is_digit (c : ascii) : bool :=
  (48 <=? nat_of_ascii c)%nat && (nat_of_ascii c <=? 57)%nat.

Definition digit_val (c : ascii) : Z := Z.of_nat (nat_of_ascii c) - 48.

(** [int(s)] on a string of ASCII digits. *)
Fixpoint int_digits_from (acc : Z) (s : string) : Z :=
  match s with
  | EmptyString => acc
  | String c s' => int_digits_from (10 * acc + digit_val c) s'
  end.

Definition int_digits (s : string) : Z := int_digits_from 0 s.

Definition digit_char (d : Z) : ascii := ascii_of_nat (Z.to_nat (48 + d)).

Fixpoint pos_digits (fuel : nat) (n : Z) (acc : string) : string :=
  match fuel with
  | O => acc
  | S fuel' =>
      let acc' := String (digit_char (n mod 10)) acc in
      if n <? 10 then acc' else pos_digits fuel' (n / 10) acc'
  end.

(** [str(n)] for an integer. *)
Definition of_Z (n : Z) : string :=
  if n <? 0 then String "-" (pos_digits (S (Z.to_nat (Z.log2 (- n)))) (- n) EmptyString)
  else pos_digits (S (Z.to_nat (Z.log2 n))) n EmptyString.

(** [s.replace(old, new)] for a non-empty [old]: [skip] characters of a
    match just replaced are still to be passed over. *)
Fixpoint replace_go (old new : string) (skip : nat) (s : string) : string :=
  match s with
  | EmptyString => EmptyString
  | String c s' =>
      match skip with
      | S n => replace_go old new n s'
      | O =>
          if startswith s old
          then new +:+ replace_go old new (Nat.pred (String.length old)) s'
          else String c (replace_go old new O s')
      end
  end.

Definition replace (old new s : string) : string := replace_go old new O s.

(** [s.split(sep)] for a non-empty [sep]. *)
Fixpoint split_go (sep : string) (skip : nat) (s : string) : list string :=
  match s with
  | EmptyString => [EmptyString]
  | String c s' =>
      match skip with
      | S n => split_go sep n s'
      | O =>
          if startswith s sep
          then EmptyString :: split_go sep (Nat.pred (String.length sep)) s'
          else
            match split_go sep O s' with
            | x :: l => String c x :: l
            | [] => [String c EmptyString]
            end
      end
  end.

Definition split (sep s : string) : list string := split_go sep O s.

(** [s[s.index(c) + 1:]], or nothing when [c] does not occur in [s]. *)
Fixpoint after_first (c : ascii) (s : string) : option string :=
  match s with
  | EmptyString => None
  | String a s' => if Ascii.eqb a c then Some s' else after_first c s'
  end.

Fixpoint lstrip (p : ascii → bool) (s : string) : string :=
  match s with
  | EmptyString => EmptyString
  | String c s' => if p c then lstrip p s' else s
  end.

(** [s.strip(chars)], the characters to strip given as a test. *)
Definition strip (p : ascii → bool) (s : string) : string :=
  rev (lstrip p (rev (lstrip p s))).

(** [f.readline()] of a file holding [s]: the first line with its end. *)
Fixpoint first_line (s : string) : string :=
  match s with
  | EmptyString => EmptyString
  | String c s' =>
      if Ascii.eqb c (ascii_of_nat 10) then String c EmptyString
      else String c (first_line s')
  end.

End Str.

(** ** Regular expressions, as [re.match] runs them

    Only the constructs [VARIANT_RE] is written with: literals, a character
    set with a greedy bounded or unbounded repetition, the greedy option
    [?], capturing groups and concatenation.  The matcher backtracks like
    Python's: every construct tries its greediest alternative first and
    falls back when the rest of the pattern fails. *)

Module Re.

Inductive regex : Type :=
| Lit (w : string)
| Chars (cls : ascii → bool) (lo : nat) (hi : option nat)
| Opt (r : regex)
| Group (name : option string) (r : regex)
| Cat (r1 r2 : regex).

Definition room (hi : option nat) : bool :=
  match hi with Some O => false | _ => true end.

Definition less (hi : option nat) : option nat :=
  match hi with Some n => Some (Nat.pred n) | None => None end.

(** What a group captured: the text between the place where the group
    started and the place where it ended. *)
Definition taken (s s' : string) : string :=
  Str.take (String.length s - String.length s') s.

Definition bind_group (name : option string) (w : string)
    (g : gmap string string) : gmap string string :=
  match name with Some n => <[n := w]> g | None => g end.

Section Matcher.
Context {R : Type}.

Fixpoint rep (cls : ascii → bool) (lo : nat) (hi : option nat) (s : string)
    (k : string → option R) {struct s} : option R :=
  let stop := if Nat.eqb lo 0 then k s else None in
  match s with
  | String c s' =>
      if cls c && room hi then
        match rep cls (Nat.pred lo) (less hi) s' k with
        | Some x => Some x
        | None => stop
        end
      else stop
  | EmptyString => stop
  end.

Fixpoint bt (r : regex) (s : string) (g : gmap string string)
    (k : string → gmap string string → option R) : option R :=
  match r with
  | Lit w =>
      match Str.strip_prefix w s with
      | Some s' => k s' g
      | None => None
      end
  | Chars cls lo hi => rep cls lo hi s (λ s', k s' g)
  | Opt r' =>
      match bt r' s g k with
      | Some x => Some x
      | None => k s g
      end
  | Group name r' => bt r' s g (λ s' g', k s' (bind_group name (taken s s') g'))
  | Cat r1 r2 => bt r1 s g (λ s' g', bt r2 s' g' k)
  end.
End Matcher.

(** [pattern.match(s)]: anchored at the start, not at the end. *)
Definition match_ (r : regex) (s : string) : option (gmap string string) :=
  bt r s ∅ (λ _ g, Some g).

(** The words a pattern can consume, and the groups it binds on the way. *)
Definition in_bounds (lo : nat) (hi : option nat) (n : nat) : Prop :=
  (lo ≤ n)%nat ∧ match hi with Some h => (n ≤ h)%nat | None => True end.

Fixpoint denote (r : regex) (w : string) (g g' : gmap string string) : Prop :=
  match r with
  | Lit v => w = v ∧ g' = g
  | Chars cls lo hi =>
      Str.all cls w = true ∧ in_bounds lo hi (String.length w) ∧ g' = g
  | Opt r' => denote r' w g g' ∨ (w = EmptyString ∧ g' = g)
  | Group name r' => ∃ g1, denote r' w g g1 ∧ g' = bind_group name w g1
  | Cat r1 r2 =>
      ∃ w1 w2 g1, w = w1 +:+ w2 ∧ denote r1 w1 g g1 ∧ denote r2 w2 g1 g'
  end.

End Re.

(** ** [VARIANT_RE] and [parse_variant] *)

(** [c in set], the test of a character set [[...]]. *)
Fixpoint in_set (set : string) (c : ascii) : bool :=
  match set with
  | EmptyString => false
  | String a set' => Ascii.eqb a c || in_set set' c
  end.

(** Python's [\s] on a [str] pattern, restricted to code points below 256. *)
Definition is_space (c : ascii) : bool :=
  let n := nat_of_ascii c in
  ((9 <=? n) && (n <=? 13) || (28 <=? n) && (n <=? 32) || (n =? 133) || (n =? 160))%nat.

Definition sep_class (extra : string) (c : ascii) : bool :=
  in_set extra c || is_space c.

Definition VARIANT_RE : Re.regex :=
  Re.Cat (Re.Opt (Re.Group None (Re.Lit "chr")))
 (Re.Cat (Re.Group (Some "chrom") (Re.Chars (in_set "0123456789XYMTt") 1 (Some 2%nat)))
 (Re.Cat (Re.Chars (sep_class "-:") 1 None)
 (Re.Cat (Re.Group (Some "pos") (Re.Chars Str.is_digit 1 (Some 9%nat)))
 (Re.Cat (Re.Chars (sep_class "-:") 1 None)
 (Re.Cat (Re.Group (Some "ref") (Re.Chars (in_set "ACGT") 1 None))
 (Re.Cat (Re.Chars (sep_class "-:>") 1 None)
         (Re.Group (Some "alt") (Re.Chars (in_set "ACGT") 1 None)))))))).

(** The next character, if any, is outside the class: a greedy repetition
    of the class ends here. *)
Definition stops (cls : ascii → bool) (s : string) : bool :=
  match s with
  | EmptyString => true
  | String c _ => negb (cls c)
  end.

(** The white space that [int] skips around a number.  It is narrower than
    that of [str.strip] and of [\s]: the separators U+001C to U+001F are
    not part of it. *)
Definition is_int_space (c : ascii) : bool :=
  let n := nat_of_ascii c in
  ((9 <=? n) && (n <=? 13) || (n =? 32) || (n =? 133) || (n =? 160))%nat.

(** [sys.get_int_max_str_digits()], as Python sets it by default. *)
Definition INT_MAX_STR_DIGITS : nat := 4300.

Fixpoint digits_ok (after_digit : bool) (s : string) : bool :=
  match s with
  | EmptyString => after_digit
  | String c s' =>
      if Str.is_digit c then digits_ok true s'
      else if Ascii.eqb c "_" then after_digit && digits_ok false s'
      else false
  end.

Fixpoint drop_underscores (s : string) : string :=
  match s with
  | EmptyString => EmptyString
  | String c s' => if Ascii.eqb c "_" then drop_underscores s' else String c (drop_underscores s')
  end.

(** [int(s)] on a string: surrounding white space, a sign, and digits that
    single underscores may separate.  A number of more than
    [INT_MAX_STR_DIGITS] digits is refused. *)
Definition py_int (s : string) : option Z :=
  let unsigned (t : string) : option Z :=
    if digits_ok false t
       && (String.length (drop_underscores t) <=? INT_MAX_STR_DIGITS)%nat
    then Some (Str.int_digits (drop_underscores t)) else None in
  match Str.strip is_int_space s with
  | String "-" t => Z.opp <$> unsigned t
  | String "+" t => unsigned t
  | t => unsigned t
  end.

(** Python exceptions: the class name and the message. *)
Record exn : Type := Exn { exn_type : string; exn_msg : string }.

Definition ValueError (msg : string) : exn := Exn "ValueError" msg.
Definition KeyError (key : string) : exn := Exn "KeyError" ("'" +:+ key +:+ "'").

Definition group (m : gmap string string) (name : string) : string :=
  default EmptyString (m !! name).

Definition parse_variant (variant_str : string) : exn + (string * Z * string * string) :=
  match Re.match_ VARIANT_RE variant_str with
  | None => inl (ValueError ("Unable to parse variant: " +:+ variant_str))
  | Some m => inr (group m "chrom", Str.int_digits (group m "pos"), group m "ref", group m "alt")
  end.


(** The chromosome names of the specification: 1 to 22, X, Y, M and MT,
    in either case. *)
Definition upper (c : ascii) : ascii :=
  let n := nat_of_ascii c in
  if ((97 <=? n) && (n <=? 122))%nat then ascii_of_nat (n - 32) else c.

Definition canonical_chroms : list string :=
  ["1"; "2"; "3"; "4"; "5"; "6"; "7"; "8"; "9"; "10"; "11"; "12"; "13"; "14";
   "15"; "16"; "17"; "18"; "19"; "20"; "21"; "22"; "X"; "Y"; "M"; "MT"].

Definition canonical_chrom (chrom : string) : bool :=
  bool_decide (Str.map upper chrom ∈ canonical_chroms).

(** ** Python values, dictionaries and responses *)

(** The values the two endpoints put in their dictionaries. *)
Inductive pyval : Type :=
| PNone
| PInt (n : Z)
| PStr (s : string)
| PList (l : list string).

#[global] Instance pyval_eq_dec : EqDecision pyval.
Proof. solve_decision. Defined.

(** [bool(v)] *)
Definition truthy (v : pyval) : bool :=
  match v with
  | PNone => false
  | PInt n => negb (n =? 0)
  | PStr s => negb (String.eqb s EmptyString)
  | PList l => match l with [] => false | _ => true end
  end.

(** [str(v)], as an f-string renders it. *)
Definition py_str (v : pyval) : string :=
  match v with
  | PNone => "None"
  | PInt n => Str.of_Z n
  | PStr s => s
  | PList l => "[" +:+ Str.join ", " ((λ s, "'" +:+ s +:+ "'") <$> l) +:+ "]"
  end.

(** A value read back by [json.loads]: an object or something else. *)
Inductive json : Type :=
| JDict (d : gmap string pyval)
| JAtom (v : pyval).

Definition json_truthy (j : json) : bool :=
  match j with
  | JDict d => negb (bool_decide (d = ∅))
  | JAtom v => truthy v
  end.

(** What a Redis key holds: the bytes of a JSON document, represented by the
    document ([json.loads (json.dumps x) = x]), or bytes that are not JSON. *)
Inductive blob : Type :=
| Doc (j : json)
| Raw (bytes : string).

Definition json_dumps (d : gmap string pyval) : blob := Doc (JDict d).

Definition json_loads (b : blob) : exn + json :=
  match b with
  | Doc j => inr j
  | Raw bytes => inl (Exn "JSONDecodeError" bytes)
  end.

(** [if results_string:] on the bytes returned by [REDIS.get]. *)
Definition blob_truthy (b : blob) : bool :=
  match b with
  | Doc _ => true
  | Raw bytes => negb (String.eqb bytes EmptyString)
  end.

Record Response : Type := mkResponse {
  status : Z;
  body : gmap string pyval;
}.

Definition error_response (error_message : string) : Response :=
  mkResponse 400 {[ "error" := PStr error_message ]}.

(** ** The Redis server

    Every key holds a value and, once [EXPIRE] was called on it, the time at
    which it disappears.  [KEYS], [GET] and [EXPIRE] see the live keys only.
    A command raises when the connection is down at that moment. *)

Record entry : Type := mkEntry {
  value : blob;
  expires_at : option Z;
}.

Definition live (now : Z) (e : entry) : bool :=
  match expires_at e with
  | None => true
  | Some t => now <? t
  end.

(** Redis' glob patterns: [*], [?], [[...]] with ranges and [^], and [\]. *)
Definition in_range (a b d : ascii) : bool :=
  let lo := Nat.min (nat_of_ascii a) (nat_of_ascii b) in
  let hi := Nat.max (nat_of_ascii a) (nat_of_ascii b) in
  ((lo <=? nat_of_ascii d) && (nat_of_ascii d <=? hi))%nat.

Fixpoint glob (p s : string) {struct p} : bool :=
  match p with
  | EmptyString => match s with EmptyString => true | _ => false end
  | String c p' =>
      if Ascii.eqb c "*" then
        (fix star (t : string) : bool :=
           glob p' t || match t with EmptyString => false | String _ t' => star t' end) s
      else
        match s with
        | EmptyString => false
        | String d s' =>
            if Ascii.eqb c "?" then glob p' s'
            else if Ascii.eqb c "[" then
              (fix scan (q : string) (neg hit : bool) {struct q} : bool :=
                 match q with
                 | EmptyString => xorb neg hit && match s' with EmptyString => true | _ => false end
                 | String a q' =>
                     if Ascii.eqb a "]" then xorb neg hit && glob q' s'
                     else
                       match q' with
                       | String b q'' =>
                           if Ascii.eqb a "\" then scan q'' neg (hit || Ascii.eqb b d)
                           else if Ascii.eqb b "-" then
                             match q'' with
                             | String e q3 => scan q3 neg (hit || in_range a e d)
                             | EmptyString => scan q' neg (hit || Ascii.eqb a d)
                             end
                           else scan q' neg (hit || Ascii.eqb a d)
                       | EmptyString => scan q' neg (hit || Ascii.eqb a d)
                       end
                 end)
                (match p' with String "^" q => q | _ => p' end)
                (match p' with String "^" _ => true | _ => false end)
                false
            else if Ascii.eqb c "\" then
              match p' with
              | String e p'' => Ascii.eqb e d && glob p'' s'
              | EmptyString => Ascii.eqb c d && glob p' s'
              end
            else Ascii.eqb c d && glob p' s'
        end
  end.

(** The characters that stand for themselves in a pattern. *)
Definition plain (c : ascii) : bool :=
  negb (Ascii.eqb c "*" || Ascii.eqb c "?" || Ascii.eqb c "[" || Ascii.eqb c "\").

Record redis_state : Type := mkRedis {
  db : gmap string entry;
  now : Z;
}.

Definition live_db (r : redis_state) : gmap string entry :=
  filter (λ kv, live (now r) kv.2 = true) (db r).

Definition redis_keys (pattern : string) (r : redis_state) : list string :=
  List.filter (glob pattern) (map_to_list (live_db r)).*1.

Definition redis_get (key : string) (r : redis_state) : option blob :=
  value <$> live_db r !! key.

Definition redis_set (key : string) (v : blob) (r : redis_state) : redis_state :=
  mkRedis (<[key := mkEntry v None]> (live_db r)) (now r).

Definition redis_expire (key : string) (seconds : Z) (r : redis_state) : redis_state :=
  mkRedis (alter (λ e, mkEntry (value e) (Some (now r + seconds))) key (live_db r)) (now r).

(** ** The environment of a request *)

Record VariantRecord : Type := mkVariantRecord {
  vr_chrom : string;
  vr_pos : Z;
  vr_ref : string;
  vr_alts : list string;
}.

(** A row of a Gencode annotation table. *)
Record annotation_row : Type := mkRow {
  row_NAME : string;
  row_CHROM : string;
  row_TX_START : Z;
  row_TX_END : Z;
}.

(** [Annotator(fasta, annotations)] is opaque to the server. *)
Record Annotator : Type := mkAnnotator {
  ann_fasta : string;
  ann_annotations : string;
}.

(** A key of [SPLICEAI_CACHE_FILES], such as [("raw", "snv", "hg38")]. *)
Definition cache_key : Type := option string * string * option string.

(** [TabixFile.fetch(chrom, start, end)]: the lines the iteration yields,
    and the exception that ends it, if any. *)
Definition TabixFile : Type := string → Z → Z → list string * option exn.

(** What the server reads of the Flask [request]: the address of the
    client, [request.values], and the JSON object of the body (empty when
    there is none). *)
Record Request : Type := mkRequest {
  remote_addr : string;
  values : gmap string string;
  json_body : gmap string pyval;
}.

Inductive event : Type :=
| Redis_keys (pattern : string)
| Redis_get (key : string)
| Redis_set (key : string) (v : blob)
| Redis_expire (key : string) (seconds : Z)
| Tabix_fetch (key : cache_key) (chrom : string) (start stop : Z)
| Get_delta_scores (record : VariantRecord) (annotator : Annotator) (distance mask : Z)
| LiftOver (chain_file_path bed_line : string).

Record Env : Type := mkEnv {
  GRCH37_table : list annotation_row;
  GRCH38_table : list annotation_row;
  SPLICEAI_CACHE_FILES : gmap cache_key TabixFile;
  get_delta_scores : VariantRecord → Annotator → Z → Z → exn + list string;
  (** the liftOver binary: from the chain file and the input BED line to the
      contents of the output file and of the unmapped file *)
  liftOver : string → string → exn + (string * string);
  (** whether the n-th Redis command of the run finds the server down *)
  redis_down : nat → bool;
  (** [str(time.time())] at the n-th reading of the clock *)
  time_time : nat → string;
  (** [str(datetime.now() - start_time)] *)
  elapsed : string;
}.

Record world : Type := mkWorld {
  redis : redis_state;
  redis_calls : nat;
  clock_reads : nat;
  trace : list event;
}.

(** ** Computations: state and exceptions *)

Definition M (A : Type) : Type := world → (exn + A) * world.

#[global] Instance M_ret : MRet M := λ A x w, (inr x, w).

#[global] Instance M_bind : MBind M := λ A B f m w,
  match m w with
  | (inr x, w') => f x w'
  | (inl e, w') => (inl e, w')
  end.

Definition raise {A : Type} (e : exn) : M A := λ w, (inl e, w).

(** [try: m except Exception as e: h e] *)
Definition try_except {A : Type} (m : M A) (h : exn → M A) : M A := λ w,
  match m w with
  | (inl e, w') => h e w'
  | r => r
  end.

Definition emit (ev : event) : M unit := λ w,
  (inr (), mkWorld (redis w) (redis_calls w) (clock_reads w) (trace w ++ [ev])%list).

Definition lift_exn {A : Type} (r : exn + A) : M A :=
  match r with inl e => raise e | inr x => mret x end.

Definition happened (ev : event) (w : world) : Prop := ev ∈ trace w.

(** What a computation returns, when it returns, satisfies [P]. *)
Definition returns {A : Type} (P : A → Prop) (m : M A) : Prop :=
  ∀ w, match (m w).1 with inr x => P x | inl _ => True end.

(** A computation adds no event selected by [f] to the trace. *)
Definition quiet {A : Type} (f : event → bool) (m : M A) : Prop :=
  ∀ w, List.filter f (trace (m w).2) = List.filter f (trace w).

(** The writes of a result into the cache: [REDIS.set(key, json.dumps(results))]
    with a dictionary, as opposed to the markers of the rate limiter. *)
Definition is_cache_store (ev : event) : bool :=
  match ev with
  | Redis_set _ (Doc (JDict _)) => true
  | _ => false
  end.

Definition cache_stores (w : world) : list event :=
  List.filter is_cache_store (trace w).

(** The calls of the precomputed files and of the model. *)
Definition is_scoring (ev : event) : bool :=
  match ev with
  | Tabix_fetch _ _ _ _ | Get_delta_scores _ _ _ _ => true
  | _ => false
  end.

(** The fetches of the precomputed files. *)
Definition is_tabix (ev : event) : bool :=
  match ev with
  | Tabix_fetch _ _ _ _ => true
  | _ => false
  end.

Section Server.
Variable E : Env.

(** A command sent to [REDIS]: it is recorded, then it raises if the server
    is down, else it reads or changes the Redis state. *)
Definition redis_command {A : Type} (ev : event)
    (run : redis_state → A * redis_state) : M A := λ w,
  let w1 := mkWorld (redis w) (S (redis_calls w)) (clock_reads w) (trace w ++ [ev])%list in
  if redis_down E (redis_calls w) then
    (inl (Exn "ConnectionError" "Error connecting to localhost:6379."), w1)
  else
    let '(x, r) := run (redis w) in
    (inr x, mkWorld r (redis_calls w1) (clock_reads w1) (trace w1)).

Definition REDIS_keys (pattern : string) : M (list string) :=
  redis_command (Redis_keys pattern) (λ r, (redis_keys pattern r, r)).

Definition REDIS_get (key : string) : M (option blob) :=
  redis_command (Redis_get key) (λ r, (redis_get key r, r)).

Definition REDIS_set (key : string) (v : blob) : M unit :=
  redis_command (Redis_set key v) (λ r, ((), redis_set key v r)).

Definition REDIS_expire (key : string) (seconds : Z) : M unit :=
  redis_command (Redis_expire key seconds) (λ r, ((), redis_expire key seconds r)).

(** [time.time()], already formatted. *)
Definition time_now : M string := λ w,
  (inr (time_time E (clock_reads w)),
   mkWorld (redis w) (redis_calls w) (S (clock_reads w)) (trace w)).

(** ** Rate limiting *)

Definition RATE_LIMIT_WINDOW_SIZE_IN_MINUTES : Z := 1.

Definition RATE_LIMIT_REQUESTS_PER_USER_PER_MINUTE : gmap string Z :=
  {[ "SpliceAI: computed" := 4; "SpliceAI: total" := 20; "liftover: total" := 12 ]}.

Definition rate_limit_key_prefix (user_id request_type : string) : string :=
  "request " +:+ user_id +:+ " " +:+ request_type.

Definition marker : blob := Doc (JAtom (PInt 1)).

(** The markers the limiter counts for a client and a request class. *)
Definition live_markers (user_id request_type : string) (r : redis_state) : list string :=
  redis_keys (rate_limit_key_prefix user_id request_type +:+ "*") r.

(** The key of the marker a check records. *)
Definition marker_key (user_id request_type : string) (w : world) : string :=
  rate_limit_key_prefix user_id request_type +:+ ": " +:+ time_time E (clock_reads w).

(** A Redis command of the check raises: the count does, or the count is
    below the ceiling and [SET] or [EXPIRE] does. *)
Definition check_raises (user_id request_type : string) (ceiling : Z) (w : world) : Prop :=
  redis_down E (redis_calls w) = true
  ∨ (Z.of_nat (length (live_markers user_id request_type (redis w))) < ceiling
     ∧ (redis_down E (S (redis_calls w)) = true
        ∨ redis_down E (S (S (redis_calls w))) = true)).

Definition exceeds_rate_limit (user_id request_type : string) : M bool :=
  match RATE_LIMIT_REQUESTS_PER_USER_PER_MINUTE !! request_type with
  | None => raise (ValueError ("Invalid 'request_type' arg value: " +:+ request_type))
  | Some max_requests_per_minute =>
      let max_requests := RATE_LIMIT_WINDOW_SIZE_IN_MINUTES * max_requests_per_minute in
      epoch_time ← time_now;
      try_except
        (let redis_key_prefix := rate_limit_key_prefix user_id request_type in
         keys ← REDIS_keys (redis_key_prefix +:+ "*");
         if max_requests <=? Z.of_nat (length keys) then mret true
         else
           REDIS_set (redis_key_prefix +:+ ": " +:+ epoch_time) marker;;
           REDIS_expire (redis_key_prefix +:+ ": " +:+ epoch_time)
             (RATE_LIMIT_WINDOW_SIZE_IN_MINUTES * 60);;
           mret false)
        (λ e, mret false)
  end.


(** ** The result cache *)

Definition get_spliceai_redis_key (variant genome_version : string)
    (spliceai_distance spliceai_mask use_precomputed_scores : Z) : string :=
  variant +:+ "__hg" +:+ genome_version +:+ "__d" +:+ Str.of_Z spliceai_distance
  +:+ "__m" +:+ Str.of_Z spliceai_mask +:+ "__pre" +:+ Str.of_Z use_precomputed_scores.

(** [results["source"] += ":redis"] on what [json.loads] returned. *)
Definition mark_from_redis (results : json) : exn + json :=
  match results with
  | JDict d =>
      match d !! "source" with
      | Some (PStr s) => inr (JDict (<["source" := PStr (s +:+ ":redis")]> d))
      | Some (PList l) =>
          inr (JDict (<["source" := PList (l ++ [":"; "r"; "e"; "d"; "i"; "s"])%list]> d))
      | Some _ => inl (Exn "TypeError" "unsupported operand type(s) for +=")
      | None => inl (KeyError "source")
      end
  | JAtom _ => inl (Exn "TypeError" "object is not subscriptable")
  end.

(** The value of the local variable [results] is kept in the state of the
    [try] block, so that an exception leaves the last assignment in place. *)
Definition get_spliceai_from_redis (variant genome_version : string)
    (spliceai_distance spliceai_mask use_precomputed_scores : Z) : M (option json) :=
  let key := get_spliceai_redis_key variant genome_version spliceai_distance
               spliceai_mask use_precomputed_scores in
  try_except
    (results_string ← REDIS_get key;
     match results_string with
     | Some b =>
         if blob_truthy b then
           match json_loads b with
           | inl e => mret None
           | inr results =>
               match mark_from_redis results with
               | inl e => mret (Some results)
               | inr results' => mret (Some results')
               end
           end
         else mret None
     | None => mret None
     end)
    (λ e, mret None).

Definition add_spliceai_to_redis (variant genome_version : string)
    (spliceai_distance spliceai_mask use_precomputed_scores : Z)
    (results : gmap string pyval) : M unit :=
  let key := get_spliceai_redis_key variant genome_version spliceai_distance
               spliceai_mask use_precomputed_scores in
  try_except (REDIS_set key (json_dumps results)) (λ e, mret ()).

(** ** The annotation index *)

(** [Interval(begin, end, data)] of the [intervaltree] package. *)
Record Interval : Type := mkInterval {
  i_begin : Q;
  i_end : Q;
  i_data : string;
}.

(** An [IntervalTree] is a set of intervals; [at] returns those that
    contain the point, the end excluded. *)
Definition IntervalTree : Type := list Interval.

Definition contains_point (p : Z) (i : Interval) : bool :=
  Qle_bool (i_begin i) (inject_Z p) && negb (Qle_bool (i_end i) (inject_Z p)).

Definition at_ (tree : IntervalTree) (p : Z) : list Interval :=
  List.filter (contains_point p) tree.

(** Floats.  The binary64 numbers met here are multiples of [2^-55] and are
    written as their numerator over [2^55]: this holds an integer, the
    float [0.1] and their sum.  [round_magnitude A] rounds [A / 2^55] to 53
    significant bits, to the nearest and to even on a tie. *)
Definition round_magnitude (A : Z) : Z :=
  let s := Z.log2 A - 52 in
  if s <=? 0 then A
  else
    let q := A / 2 ^ s in
    let r := A mod 2 ^ s in
    let half := 2 ^ (s - 1) in
    (if (half <? r) || ((r =? half) && Z.odd q) then q + 1 else q) * 2 ^ s.

Definition round_binary64 (N : Z) : Z := Z.sgn N * round_magnitude (Z.abs N).

(** The float [0.1] is [3602879701896397 / 2^55]. *)
Definition tenth : Z := 3602879701896397.

(** [n + 0.1] for an [int] [n]: [n] is converted to a float, then the two
    floats are added. *)
Definition plus_tenth (n : Z) : Q :=
  Qmake (round_binary64 (round_binary64 (n * 2 ^ 55) + tenth)) (2 ^ 55)%positive.

(** The loop that fills one entry of [ANNOTATION_INTERVAL_TREES].  The
    columns [TX_START] and [TX_END] are read as 64-bit integers.  A row
    whose [TX_START] is above its [TX_END] makes [add] raise when the module
    is loaded; here it gives an interval that holds no point. *)
Fixpoint load_annotations (table : list annotation_row)
    (trees : gmap string IntervalTree) : gmap string IntervalTree :=
  match table with
  | [] => trees
  | row :: rest =>
      let chrom := Str.replace "chr" "" (row_CHROM row) in
      let i := mkInterval (inject_Z (row_TX_START row))
                 (plus_tenth (row_TX_END row)) (row_NAME row) in
      load_annotations rest (<[chrom := (default [] (trees !! chrom) ++ [i])%list]> trees)
  end.

Definition ANNOTATION_INTERVAL_TREES : gmap string (gmap string IntervalTree) :=
  {[ "37" := load_annotations (GRCH37_table E) ∅;
     "38" := load_annotations (GRCH38_table E) ∅ ]}.

(** Indexing a [defaultdict(IntervalTree)]. *)
Definition tree_of (trees : gmap string IntervalTree) (chrom : string) : IntervalTree :=
  default [] (trees !! chrom).

Definition SPLICEAI_ANNOTATOR : gmap string Annotator :=
  {[ "37" := mkAnnotator "~/hg19.fa" "./annotations/gencode.v38lift37.annotation.txt.gz";
     "38" := mkAnnotator "~/hg38.fa" "./annotations/gencode.v38.annotation.txt.gz" ]}.

Definition SPLICEAI_MAX_DISTANCE_LIMIT : Z := 10000.
Definition SPLICEAI_DEFAULT_DISTANCE : Z := 50.
Definition SPLICEAI_DEFAULT_MASK : Z := 0.
Definition USE_PRECOMPUTED_SCORES : Z := 1.

Definition SPLICEAI_SCORE_FIELDS : list string :=
  Str.split "|" "ALLELE|SYMBOL|DS_AG|DS_AL|DS_DG|DS_DL|DP_AG|DP_AL|DP_DG|DP_DL".

Definition OTHER_GENOME_VERSION : gmap string string := {[ "37" := "38"; "38" := "37" ]}.

(** ** [process_variant] *)

Definition IndexError : exn := Exn "IndexError" "list index out of range".

Definition tab : string := String (ascii_of_nat 9) EmptyString.

Definition variant_id (chrom : string) (pos : Z) (ref alt : string) : string :=
  chrom +:+ "-" +:+ Str.of_Z pos +:+ "-" +:+ ref +:+ "-" +:+ alt.

(** The test of a line of a precomputed file,
    [fields[0] == chrom and int(fields[1]) == pos and fields[3] == ref and
     fields[4] == alt], evaluated from left to right. *)
Definition line_matches (chrom : string) (pos : Z) (ref alt : string)
    (fields : list string) : exn + bool :=
  match fields !! 0%nat with
  | None => inl IndexError
  | Some f0 =>
      if negb (String.eqb f0 chrom) then inr false
      else
        match fields !! 1%nat with
        | None => inl IndexError
        | Some f1 =>
            match py_int f1 with
            | None => inl (ValueError ("invalid literal for int() with base 10: '" +:+ f1 +:+ "'"))
            | Some n =>
                if negb (n =? pos) then inr false
                else
                  match fields !! 3%nat with
                  | None => inl IndexError
                  | Some f3 =>
                      if negb (String.eqb f3 ref) then inr false
                      else
                        match fields !! 4%nat with
                        | None => inl IndexError
                        | Some f4 => inr (String.eqb f4 alt)
                        end
                  end
            end
        end
  end.

(** The loop over the fetched lines.  [scores] is appended to in place, so
    what was collected before an exception stays collected. *)
Fixpoint collect_scores (chrom : string) (pos : Z) (ref alt : string)
    (results : list string) (scores : list string) : list string * option exn :=
  match results with
  | [] => (scores, None)
  | line :: rest =>
      let fields := Str.split tab line in
      match line_matches chrom pos ref alt fields with
      | inl e => (scores, Some e)
      | inr false => collect_scores chrom pos ref alt rest scores
      | inr true =>
          match fields !! 7%nat with
          | None => (scores, Some IndexError)
          | Some f7 => collect_scores chrom pos ref alt rest (scores ++ [f7])%list
          end
      end
  end.

(** [[s[s.index("|")+1:] for s in scores]] *)
Fixpoint drop_alleles (scores : list string) : exn + list string :=
  match scores with
  | [] => inr []
  | s :: rest =>
      match Str.after_first "|" s with
      | None => inl (ValueError "substring not found")
      | Some s' =>
          match drop_alleles rest with
          | inl e => inl e
          | inr rest' => inr (s' :: rest')
          end
      end
  end.

Definition error_result (variant error : string) : gmap string pyval :=
  {[ "variant" := PStr variant; "error" := PStr error ]}.

Definition rate_limit_message (request_type what : string) : string :=
  "ERROR: Rate limit reached. To prevent a user from overwhelming the server and making it "
  +:+ "unavailable to other users, this tool allows no more than "
  +:+ Str.of_Z (default 0 (RATE_LIMIT_REQUESTS_PER_USER_PER_MINUTE !! request_type))
  +:+ " " +:+ what +:+ " per minute per user.".

Definition show_exn (e : exn) : string :=
  "<class '" +:+ exn_type e +:+ "'>: " +:+ exn_msg e.

Definition gene_of (i : Interval) : string :=
  default EmptyString (head (Str.split "---" (i_data i))).

(** [" and ".join(sorted(set(names)))] *)
Definition join_sorted_set (names : list string) : string :=
  Str.join " and " (merge_sort String.le (remove_dups names)).

Definition precomputed_key (genome_version : string) (spliceai_mask : Z)
    (ref alt : string) : cache_key :=
  (if String.eqb (Str.of_Z spliceai_mask) "1" then Some "masked"
   else if String.eqb (Str.of_Z spliceai_mask) "0" then Some "raw" else None,
   if (String.length ref =? 1)%nat && (String.length alt =? 1)%nat then "snv" else "indel",
   if String.eqb genome_version "37" then Some "hg19"
   else if String.eqb genome_version "38" then Some "hg38" else None).

(** The guard of the lookup in the precomputed files. *)
Definition precomputed_guard (ref alt : string)
    (spliceai_distance use_precomputed_scores : Z) : bool :=
  ((String.length ref <=? 5)%nat || (String.length alt <=? 2)%nat)
  && String.eqb (Str.of_Z spliceai_distance) (Str.of_Z SPLICEAI_DEFAULT_DISTANCE)
  && String.eqb (Str.of_Z use_precomputed_scores) "1".

(** The messages of the errors of [process_variant]. *)
Definition complex_indel_message (chrom : string) (pos : Z) (ref alt : string) : string :=
  "ERROR: SpliceAI does not currently support complex InDels like "
  +:+ variant_id chrom pos ref alt.

Definition wrong_build_message (genome_version other_genome_version chrom : string)
    (pos : Z) (ref alt other_genome_genes : string) : string :=
  "ERROR: In GRCh" +:+ genome_version +:+ ", " +:+ variant_id chrom pos ref alt
  +:+ " falls outside all gencode exons and introns."
  +:+ "SpliceAI only works for variants within known exons or introns. However, in GRCh"
  +:+ other_genome_version +:+ ", "
  +:+ chrom +:+ ":" +:+ Str.of_Z pos +:+ " falls within " +:+ other_genome_genes
  +:+ ", so perhaps GRCh" +:+ genome_version +:+ " is not the correct genome version?".

Definition outside_annotation_message (genome_version chrom : string) (pos : Z)
    (ref alt : string) : string :=
  "ERROR: " +:+ variant_id chrom pos ref alt
  +:+ " falls outside all Gencode exons and introns on "
  +:+ "GRCh" +:+ genome_version
  +:+ ". SpliceAI only works for variants that are within known exons or introns.".

(** The intervals of a build that cover a position:
    [ANNOTATION_INTERVAL_TREES[genome_version][chrom_without_chr].at(pos)]. *)
Definition covering (genome_version chrom : string) (pos : Z) : list Interval :=
  at_ (tree_of (default ∅ (ANNOTATION_INTERVAL_TREES !! genome_version))
         (Str.replace "chr" "" chrom)) pos.

(** The two shapes of a result of [process_variant]: an error, or the
    scores read from the raw score strings by dropping their allele. *)
Definition success_result (variant genome_version chrom : string) (pos : Z)
    (ref alt : string) (scores : list string) (source : pyval) : gmap string pyval :=
  {[ "variant" := PStr variant;
     "genome_version" := PStr genome_version;
     "chrom" := PStr chrom;
     "pos" := PInt pos;
     "ref" := PStr ref;
     "alt" := PStr alt;
     "scores" := PList scores;
     "source" := source ]}.

Definition result_shape (variant : string) (results : gmap string pyval) : Prop :=
  (∃ error, results = error_result variant error)
  ∨ (∃ genome_version chrom pos ref alt raw scores source,
       raw ≠ [] ∧ drop_alleles raw = inr scores
       ∧ results = success_result variant genome_version chrom pos ref alt scores source).

Definition process_variant (request : Request) (variant genome_version : string)
    (spliceai_distance spliceai_mask use_precomputed_scores : Z)
    : M (gmap string pyval) :=
  match parse_variant variant with
  | inl e => mret (error_result variant ("ERROR: " +:+ exn_msg e))
  | inr (chrom, pos, ref, alt) =>
  if (1 <? String.length ref)%nat && (1 <? String.length alt)%nat then
    mret (error_result variant (complex_indel_message chrom pos ref alt))
  else
  let chrom_without_chr := Str.replace "chr" "" chrom in
  match ANNOTATION_INTERVAL_TREES !! genome_version with
  | None => raise (KeyError genome_version)
  | Some trees =>
  match at_ (tree_of trees chrom_without_chr) pos with
  | [] =>
      match OTHER_GENOME_VERSION !! genome_version with
      | None => raise (KeyError genome_version)
      | Some other_genome_version =>
      match ANNOTATION_INTERVAL_TREES !! other_genome_version with
      | None => raise (KeyError other_genome_version)
      | Some other_trees =>
          match at_ (tree_of other_trees chrom_without_chr) pos with
          | (_ :: _) as other_genome_overlapping_intervals =>
              let other_genome_genes :=
                join_sorted_set (gene_of <$> other_genome_overlapping_intervals) in
              mret (error_result variant
                (wrong_build_message genome_version other_genome_version
                   chrom pos ref alt other_genome_genes))
          | [] =>
              mret (error_result variant
                (outside_annotation_message genome_version chrom pos ref alt))
          end
      end
      end
  | _ :: _ =>
      (* source = None; scores = [] *)
      '(scores, source) ←
        (if precomputed_guard ref alt spliceai_distance use_precomputed_scores then
           let key := precomputed_key genome_version spliceai_mask ref alt in
           match SPLICEAI_CACHE_FILES E !! key with
           | None => mret ([], PNone)   (* KeyError, caught *)
           | Some file =>
               emit (Tabix_fetch key chrom (pos - 1) (pos + 1));;
               match file chrom (pos - 1) (pos + 1) with
               | (results, Some e) =>
                   mret (fst (collect_scores chrom pos ref alt results []), PNone)
               | (results, None) =>
                   match collect_scores chrom pos ref alt results [] with
                   | (scores, Some e) => mret (scores, PNone)
                   | ([], None) => mret ([], PNone)
                   | (scores, None) => mret (scores, PStr "lookup")
                   end
               end
           end
         else mret ([], PNone));
      computed ←
        (match scores with
         | [] =>
             limited ← exceeds_rate_limit (remote_addr request) "SpliceAI: computed";
             if limited : bool then
               mret (inl (error_result variant
                 (rate_limit_message "SpliceAI: computed" "computed requests")))
             else
               let record := mkVariantRecord chrom pos ref [alt] in
               match SPLICEAI_ANNOTATOR !! genome_version with
               | None => mret (inl (error_result variant
                   ("ERROR: " +:+ show_exn (KeyError genome_version))))
               | Some annotator =>
                   emit (Get_delta_scores record annotator spliceai_distance spliceai_mask);;
                   match get_delta_scores E record annotator spliceai_distance spliceai_mask with
                   | inl e => mret (inl (error_result variant ("ERROR: " +:+ show_exn e)))
                   | inr scores' => mret (inr (scores', PStr "computed"))
                   end
               end
         | _ :: _ => mret (inr (scores, source))
         end);
      match computed with
      | inl error => mret error
      | inr ([], _) =>
          mret (error_result variant
            ("ERROR: The SpliceAI model did not return any scores for " +:+ variant
             +:+ ". This is typically due to the "
             +:+ "variant not being within any exon or intron as defined in Gencode v36"))
      | inr (scores, source) =>
          match drop_alleles scores with
          | inl e => raise e
          | inr scores' =>
              mret (success_result variant genome_version chrom pos ref alt scores' source)
          end
      end
  end
  end
  end.

(** ** The scoring endpoint *)

Definition SPLICEAI_EXAMPLE : string :=
  "/spliceai/?hg=38&distance=50&mask=0&precomputed=1&variant=chr8-140300615-C-G".

Definition nl : string := String (ascii_of_nat 10) EmptyString.

Definition quoted (s : string) : string := Str.dq +:+ s +:+ Str.dq.

(** The parameters of a request: [request.values], and the JSON body when
    [probe] is not among them. *)
Definition params_of (request : Request) (probe : string) : gmap string pyval :=
  let params : gmap string pyval := PStr <$> values request in
  match params !! probe with
  | Some _ => params
  | None => json_body request ∪ params
  end.

(** [int(v)] *)
Definition int_of (v : pyval) : exn + Z :=
  match v with
  | PInt n => inr n
  | PStr s =>
      match py_int s with
      | Some n => inr n
      | None => inl (ValueError ("invalid literal for int() with base 10: '" +:+ s +:+ "'"))
      end
  | _ => inl (Exn "TypeError" "int() argument must be a string, a bytes-like object or a real number")
  end.

Definition AttributeError (what : string) : exn :=
  Exn "AttributeError" ("object has no attribute '" +:+ what +:+ "'").

(** The four [strip]s applied to the variant: white space, single quotes,
    double quotes, commas. *)
Definition clean_variant (variant : string) : string :=
  Str.strip (Ascii.eqb ",")
    (Str.strip (Ascii.eqb (ascii_of_nat 34))
       (Str.strip (Ascii.eqb "'") (Str.strip is_space variant))).

Definition is_flag (v : pyval) : bool :=
  bool_decide (v = PStr "0") || bool_decide (v = PStr "1").

(** The block of [run_spliceai] under the comment [check REDIS cache before
    processing the variant]: the cached result if there is one, else the
    result of [process_variant], stored in the cache when it has no error. *)
Definition lookup_or_process (request : Request) (variant genome_version : string)
    (spliceai_distance spliceai_mask use_precomputed_scores : Z) : M json :=
  cached ← get_spliceai_from_redis variant genome_version spliceai_distance
             spliceai_mask use_precomputed_scores;
  if from_option json_truthy false cached then mret (default (JAtom PNone) cached)
  else
    results ← process_variant request variant genome_version spliceai_distance
                spliceai_mask use_precomputed_scores;
    (match results !! "error" with
     | None => add_spliceai_to_redis variant genome_version spliceai_distance
                 spliceai_mask use_precomputed_scores results
     | Some _ => mret ()
     end);;
    mret (JDict results).

(** The end of [run_spliceai]: the status and the body of the response. *)
Definition respond (params : gmap string pyval) (results : json) : M Response :=
  match results with
  | JAtom _ => raise (AttributeError "get")
  | JDict results =>
      let status := if from_option truthy false (results !! "error") then 400 else 200 in
      let response_json := results ∪ params in
      mret (mkResponse status (<["duration" := PStr (elapsed E)]> response_json))
  end.

(** [int(v)] for a flag that [is_flag] accepted. *)
Definition flag_value (v : pyval) : Z :=
  if bool_decide (v = PStr "1") then 1 else 0.

Definition distance_limit_message (spliceai_distance : Z) : string :=
  "Invalid " +:+ quoted "distance" +:+ ": "
  +:+ quoted (Str.of_Z spliceai_distance) +:+ ". The value must be < "
  +:+ Str.of_Z SPLICEAI_MAX_DISTANCE_LIMIT +:+ "." +:+ nl.

(** A computation that answers with the status 400 has stored nothing in
    the result cache. *)
Definition errors_uncached (m : M Response) : Prop :=
  ∀ w, match (m w).1 with
       | inr response => status response = 400 → cache_stores (m w).2 = cache_stores w
       | inl _ => True
       end.

(** A computation stores in the result cache at most once, and then a
    result of [process_variant] that has no error and carries scores, which
    it returns to the client with the status 200. *)
Definition stores_success (request : Request) (params : gmap string pyval)
    (m : M Response) : Prop :=
  ∀ w,
    cache_stores (m w).2 = cache_stores w
    ∨ ∃ variant genome_version d mask pre w1 results scores,
        (process_variant request variant genome_version d mask pre w1).1 = inr results
        ∧ results !! "error" = None
        ∧ results !! "scores" = Some (PList scores)
        ∧ scores ≠ []
        ∧ cache_stores (m w).2
          = (cache_stores w
             ++ [Redis_set (get_spliceai_redis_key variant genome_version d mask pre)
                   (json_dumps results)])%list
        ∧ (m w).1 = inr (mkResponse 200
                           (<["duration" := PStr (elapsed E)]> (results ∪ params))).

Definition run_spliceai (request : Request) : M Response :=
  let params := params_of request "variant" in
  limited ← exceeds_rate_limit (remote_addr request) "SpliceAI: total";
  if limited : bool then
    mret (error_response (rate_limit_message "SpliceAI: total" "requests"))
  else
  match default (PStr EmptyString) (params !! "variant") with
  | PStr variant =>
  let variant := clean_variant variant in
  if String.eqb variant EmptyString then
    mret (error_response (quoted "variant" +:+ " not specified. For example: "
                          +:+ SPLICEAI_EXAMPLE +:+ nl))
  else
  let genome_version := default PNone (params !! "hg") in
  if negb (truthy genome_version) then
    mret (error_response (quoted "hg" +:+ " not specified. The URL must include an "
      +:+ quoted "hg" +:+ " arg: hg=37 or hg=38. For example: " +:+ SPLICEAI_EXAMPLE +:+ nl))
  else
  if negb (bool_decide (genome_version = PStr "37") || bool_decide (genome_version = PStr "38")) then
    mret (error_response ("Invalid " +:+ quoted "hg" +:+ " value: "
      +:+ quoted (py_str genome_version) +:+ ". The value must be either "
      +:+ quoted "37" +:+ " or " +:+ quoted "38" +:+ ". For example: " +:+ SPLICEAI_EXAMPLE +:+ nl))
  else
  let genome_version := py_str genome_version in
  let spliceai_distance := default (PInt SPLICEAI_DEFAULT_DISTANCE) (params !! "distance") in
  match int_of spliceai_distance with
  | inl e =>
      mret (error_response ("Invalid " +:+ quoted "distance" +:+ ": "
        +:+ quoted (py_str spliceai_distance) +:+ ". The value must be an integer." +:+ nl))
  | inr spliceai_distance =>
  if SPLICEAI_MAX_DISTANCE_LIMIT <? spliceai_distance then
    mret (error_response (distance_limit_message spliceai_distance))
  else
  let spliceai_mask := default (PStr (Str.of_Z SPLICEAI_DEFAULT_MASK)) (params !! "mask") in
  if negb (is_flag spliceai_mask) then
    mret (error_response ("Invalid " +:+ quoted "mask" +:+ " value: "
      +:+ quoted (py_str spliceai_mask) +:+ ". The value must be either "
      +:+ quoted "0" +:+ " or " +:+ quoted "1" +:+ ". For example: " +:+ SPLICEAI_EXAMPLE +:+ nl))
  else
  let spliceai_mask := flag_value spliceai_mask in
  let use_precomputed_scores :=
    default (PStr (Str.of_Z USE_PRECOMPUTED_SCORES)) (params !! "precomputed") in
  if negb (is_flag use_precomputed_scores) then
    mret (error_response ("Invalid " +:+ quoted "precomputed" +:+ " value: "
      +:+ quoted (py_str use_precomputed_scores) +:+ ". The value must be either "
      +:+ quoted "0" +:+ " or " +:+ quoted "1" +:+ ". For example: " +:+ SPLICEAI_EXAMPLE +:+ nl))
  else
  let use_precomputed_scores := flag_value use_precomputed_scores in
  results ← lookup_or_process request variant genome_version spliceai_distance
              spliceai_mask use_precomputed_scores;
  respond params results
  end
  | _ => raise (AttributeError "strip")
  end.

(** ** Liftover *)

Definition REVERSE_COMPLEMENT_MAP : gmap string string :=
  {[ "A" := "T"; "C" := "G"; "G" := "C"; "T" := "A"; "N" := "N" ]}.

(** [[REVERSE_COMPLEMENT_MAP[n] for n in seq]], joined. *)
Fixpoint complement (seq : string) : exn + string :=
  match seq with
  | EmptyString => inr EmptyString
  | String n seq' =>
      match REVERSE_COMPLEMENT_MAP !! String n EmptyString with
      | None => inl (KeyError (String n EmptyString))
      | Some c =>
          match complement seq' with
          | inl e => inl e
          | inr rest => inr (c +:+ rest)
          end
      end
  end.

Definition reverse_complement (seq : string) : exn + string :=
  complement (Str.rev seq).

(** [reverse_complement] on a value of a dictionary: a list is reversed and
    looked up element by element, other values cannot be sliced. *)
Fixpoint complement_list (seq : list string) : exn + string :=
  match seq with
  | [] => inr EmptyString
  | n :: seq' =>
      match REVERSE_COMPLEMENT_MAP !! n with
      | None => inl (KeyError n)
      | Some c =>
          match complement_list seq' with
          | inl e => inl e
          | inr rest => inr (c +:+ rest)
          end
      end
  end.

Definition reverse_complement_val (seq : pyval) : exn + string :=
  match seq with
  | PStr s => reverse_complement s
  | PList l => complement_list (reverse l)
  | _ => inl (Exn "TypeError" "object is not subscriptable")
  end.

Definition LIFTOVER_EXAMPLE : string :=
  "/liftover/?hg=hg19-to-hg38&format=interval&chrom=chr8&start=140300615&end=140300620".

Definition CHAIN_FILE_PATHS : gmap string string :=
  {[ "hg19-to-hg38" := "hg19ToHg38.over.chain.gz";
     "hg38-to-hg19" := "hg38ToHg19.over.chain.gz";
     "hg38-to-t2t" := "hg38.t2t-chm13-v1.0.over.chain.gz";
     "t2t-to-hg38" := "t2t-chm13-v1.0.hg38.over.chain.gz" ]}.

(** The BED record written to the input file of liftOver. *)
Definition liftover_bed_line (chrom : string) (start end_ : pyval) : string :=
  Str.join tab [chrom; py_str start; py_str end_; "."; "0"; "+"] +:+ nl.

Definition run_UCSC_liftover_tool (hg : string) (chrom start end_ : pyval)
    : M (gmap string pyval) :=
  match CHAIN_FILE_PATHS !! hg with
  | None => raise (ValueError ("Unexpected hg arg value: " +:+ hg))
  | Some chain_file_path =>
  match chrom with
  | PStr chrom =>
      let chrom := "chr" +:+ Str.replace "chr" "" chrom in
      let bed_line := liftover_bed_line chrom start end_ in
      let region := chrom +:+ ":" +:+ py_str start +:+ "-" +:+ py_str end_ in
      let command_failed (e : string) : exn :=
        ValueError (hg +:+ " liftOver command failed for " +:+ region +:+ ": " +:+ e) in
      emit (LiftOver chain_file_path bed_line);;
      match liftOver E chain_file_path bed_line with
      | inl e => raise (command_failed (exn_msg e))
      | inr (results, unmapped) =>
          let result_fields := Str.split tab (Str.strip is_space results) in
          if (5 <? length result_fields)%nat then
            match int_of (PStr (default EmptyString (result_fields !! 1%nat))) with
            | inl e => raise (command_failed (exn_msg e))
            | inr output_start =>
            match int_of (PStr (default EmptyString (result_fields !! 2%nat))) with
            | inl e => raise (command_failed (exn_msg e))
            | inr output_end =>
                mret ({[ "chrom" := PStr chrom;
                         "start" := start;
                         "end" := end_;
                         "output_chrom" := PStr (default EmptyString (result_fields !! 0%nat));
                         "output_start" := PInt output_start;
                         "output_end" := PInt output_end;
                         "output_strand" := PStr (default EmptyString (result_fields !! 5%nat)) ]}
                      : gmap string pyval)
            end
            end
          else
            let reason_liftover_failed :=
              Str.strip is_space (Str.replace "#" "" (Str.first_line unmapped)) in
            if negb (String.eqb reason_liftover_failed EmptyString) then
              raise (ValueError (hg +:+ " liftover failed for " +:+ region +:+ " "
                                 +:+ reason_liftover_failed))
            else
              raise (ValueError (hg +:+ " liftover failed for " +:+ region
                                 +:+ " for unknown reasons"))
      end
  | _ => raise (AttributeError "replace")
  end
  end.

Definition get_liftover_redis_key (genome_version : string) (chrom start end_ : pyval)
    : string :=
  "liftover_hg" +:+ genome_version +:+ "__" +:+ py_str chrom +:+ "_"
  +:+ py_str start +:+ "_" +:+ py_str end_.

Definition get_liftover_from_redis (hg : string) (chrom start end_ : pyval)
    : M (option json) :=
  let key := get_liftover_redis_key hg chrom start end_ in
  try_except
    (results_string ← REDIS_get key;
     match results_string with
     | Some b =>
         if blob_truthy b then
           match json_loads b with
           | inl e => mret None
           | inr results => mret (Some results)
           end
         else mret None
     | None => mret None
     end)
    (λ e, mret None).

Definition add_liftover_to_redis (hg : string) (chrom start end_ : pyval)
    (result : gmap string pyval) : M unit :=
  let key := get_liftover_redis_key hg chrom start end_ in
  try_except (REDIS_set key (json_dumps result)) (λ e, mret ()).

(** [result[key]] *)
Definition item (result : gmap string pyval) (key : string) : M pyval :=
  match result !! key with
  | Some v => mret v
  | None => raise (KeyError key)
  end.

(** The part of [run_liftover] that follows the cache and the tool: the
    parameters are copied into the result and the output position and
    alleles are derived. *)
Definition finish_liftover (params : gmap string pyval) (format : string)
    (pos : option Z) (result : gmap string pyval) : M Response :=
  let result := params ∪ result in
  result ←
    (if String.eqb format "position" || String.eqb format "variant" then
       let result := <["pos" := from_option PInt PNone pos]> result in
       output_end ← item result "output_end";
       mret (<["output_pos" := output_end]> result)
     else mret result);
  result ←
    (if String.eqb format "variant" then
       ref ← item result "ref";
       let result := <["output_ref" := ref]> result in
       alt ← item result "alt";
       let result := <["output_alt" := alt]> result in
       output_strand ← item result "output_strand";
       if bool_decide (output_strand = PStr "-") then
         output_ref ← lift_exn (reverse_complement_val ref);
         let result := <["output_ref" := PStr output_ref]> result in
         output_alt ← lift_exn (reverse_complement_val alt);
         mret (<["output_alt" := PStr output_alt]> result)
       else mret result
     else mret result);
  mret (mkResponse 200 result).

Definition VALID_FORMAT_VALUES : list string := ["interval"; "variant"; "position"].

Definition run_liftover (request : Request) : M Response :=
  let params := params_of request "format" in
  limited ← exceeds_rate_limit (remote_addr request) "liftover: total";
  if limited : bool then
    mret (error_response (rate_limit_message "liftover: total" "liftover requests"))
  else
  let VALID_HG_VALUES := (map_to_list CHAIN_FILE_PATHS).*1 in
  let hg_error := error_response (quoted "hg" +:+ " param error. It should be set to "
    +:+ Str.join " or " VALID_HG_VALUES +:+ ". For example: " +:+ LIFTOVER_EXAMPLE +:+ nl) in
  match default PNone (params !! "hg") with
  | PList (_ :: _) => raise (Exn "TypeError" "unhashable type: 'list'")
  | PStr hg =>
  if negb (bool_decide (hg ∈ VALID_HG_VALUES)) then mret hg_error
  else
  let format := default (PStr EmptyString) (params !! "format") in
  if negb (truthy format) || negb (bool_decide (format ∈ PStr <$> VALID_FORMAT_VALUES)) then
    mret (error_response (quoted "format" +:+ " param error. It should be set to "
      +:+ Str.join " or " VALID_FORMAT_VALUES +:+ ". For example: " +:+ LIFTOVER_EXAMPLE +:+ nl))
  else
  let format := py_str format in
  let chrom := default PNone (params !! "chrom") in
  if negb (truthy chrom) then
    mret (error_response (quoted "chrom" +:+ " param not specified"))
  else
  (* the coordinates: an early response, or start, end and pos *)
  coordinates ←
    (if String.eqb format "interval" then
       let start := default PNone (params !! "start") in
       let end_ := default PNone (params !! "end") in
       if negb (truthy start) then
         mret (inl (error_response (quoted "start" +:+ " param not specified")))
       else if negb (truthy end_) then
         mret (inl (error_response (quoted "end" +:+ " param not specified")))
       else mret (inr (start, end_, None))
     else
       let pos := default PNone (params !! "pos") in
       if negb (truthy pos) then
         mret (inl (error_response (quoted "pos" +:+ " param not specified")))
       else
         pos ← lift_exn (int_of pos);
         mret (inr (PInt (pos - 1), PInt pos, Some pos)
               : Response + (pyval * pyval * option Z)));
  match coordinates with
  | inl response => mret response
  | inr (start, end_, pos) =>
      (* check REDIS cache before processing the variant *)
      cached ← get_liftover_from_redis hg chrom start end_;
      if from_option json_truthy false cached then
        match default (JAtom PNone) cached with
        | JDict result => finish_liftover params format pos result
        | JAtom _ => raise (AttributeError "update")
        end
      else
        outcome ← try_except
                     (result ← run_UCSC_liftover_tool hg chrom start end_;
                      mret (inr result : Response + gmap string pyval))
                     (λ e, mret (inl (error_response (exn_msg e))));
        match outcome with
        | inl response => mret response
        | inr result =>
            add_liftover_to_redis hg chrom start end_ result;;
            finish_liftover params format pos result
        end
  end
  | _ => mret hg_error
  end.

End Server.

(** The fields of a score string of a response, named by
    [SPLICEAI_SCORE_FIELDS] without the allele that [process_variant]
    dropped. *)
Definition score_fields (score : string) : gmap string string :=
  list_to_map (zip (tail SPLICEAI_SCORE_FIELDS) (Str.split "|" score)).

(** ** Notions the properties of the server are stated with *)

(** The raw score strings of a variant, as [process_variant] gets them:
    when the guard of the lookup holds, the eighth fields of the matching
    lines that the precomputed file of the variant yielded; or the list
    that the model returned. *)
Definition raw_scores (E : Env) (genome_version chrom : string) (pos : Z) (ref alt : string)
    (spliceai_distance spliceai_mask use_precomputed_scores : Z) (raw : list string) : Prop :=
  (∃ file,
     precomputed_guard ref alt spliceai_distance use_precomputed_scores = true
     ∧ SPLICEAI_CACHE_FILES E !! precomputed_key genome_version spliceai_mask ref alt
       = Some file
     ∧ raw = (collect_scores chrom pos ref alt (file chrom (pos - 1) (pos + 1)).1 []).1)
  ∨ (∃ annotator,
       SPLICEAI_ANNOTATOR !! genome_version = Some annotator
       ∧ get_delta_scores E (mkVariantRecord chrom pos ref [alt]) annotator
           spliceai_distance spliceai_mask = inr raw).

(** The base [REVERSE_COMPLEMENT_MAP] pairs with a base: A with T, C with
    G, and N with itself. *)
Definition complement_base (n : ascii) : ascii :=
  if Ascii.eqb n "A" then "T"
  else if Ascii.eqb n "T" then "A"
  else if Ascii.eqb n "C" then "G"
  else if Ascii.eqb n "G" then "C"
  else n.

(** A line of a precomputed file that the loop of [process_variant] keeps,
    and the score it contributes. *)
Definition matching_line (chrom : string) (pos : Z) (ref alt : string)
    (line score : string) : Prop :=
  let fields := Str.split tab line in
  fields !! 0%nat = Some chrom
  ∧ (∃ f1, fields !! 1%nat = Some f1 ∧ py_int f1 = Some pos)
  ∧ fields !! 3%nat = Some ref
  ∧ fields !! 4%nat = Some alt
  ∧ fields !! 7%nat = Some score.

(** A row of an annotation table whose transcript covers a position of a
    chromosome, both ends included. *)
Definition covers (chrom : string) (pos : Z) (row : annotation_row) : Prop :=
  Str.replace "chr" "" (row_CHROM row) = Str.replace "chr" "" chrom
  ∧ row_TX_START row ≤ pos ≤ row_TX_END row.

(** The calls of the model that the checks of [run_spliceai] are there to
    prevent: a distance above the limit, or a mask that is not 0 or 1. *)
Definition is_unbounded_scoring (ev : event) : bool :=
  match ev with
  | Get_delta_scores _ _ distance mask =>
      (SPLICEAI_MAX_DISTANCE_LIMIT <? distance) || negb ((mask =? 0) || (mask =? 1))
  | _ => false
  end.

(** ** A small environment to run the server in *)

Module Demo.

Definition precomputed_line : string :=
  Str.join tab ["1"; "739023"; "."; "C"; "CT"; "."; ".";
                "SpliceAI=CT|AL669831.1|0.00|0.00|0.00|0.00|-1|-37|-48|-37"].

Definition indel_file : TabixFile :=
  λ chrom start stop, if String.eqb chrom "1" then ([precomputed_line], None) else ([], None).

Definition env : Env := {|
  GRCH37_table := [mkRow "GENE37---ENST0001" "chr2" 1000 2000];
  GRCH38_table := [mkRow "AL669831.1---ENST0002" "chr1" 700000 800000;
                   mkRow "TRAPPC9---ENST0003" "chr8" 139000000 141000000];
  SPLICEAI_CACHE_FILES := {[ (Some "raw", "indel", Some "hg38") := indel_file ]};
  get_delta_scores := λ record annotator distance mask,
    inr ["G|TRAPPC9|0.00|0.03|0.00|0.01|-2|15|-2|15"];
  liftOver := λ chain_file_path bed_line,
    inr (Str.join tab ["chr8"; "139288371"; "139288372"; "."; "0"; "-"] +:+ nl, EmptyString);
  redis_down := λ _, false;
  time_time := λ n, "1700000000." +:+ Str.of_Z (Z.of_nat n);
  elapsed := "0:00:00.012345";
|}.

(** The same environment with the Redis server unreachable. *)
Definition env_down : Env := {|
  GRCH37_table := GRCH37_table env;
  GRCH38_table := GRCH38_table env;
  SPLICEAI_CACHE_FILES := SPLICEAI_CACHE_FILES env;
  get_delta_scores := get_delta_scores env;
  liftOver := liftOver env;
  redis_down := λ _, true;
  time_time := time_time env;
  elapsed := elapsed env;
|}.

Definition w0 : world := mkWorld (mkRedis ∅ 0) 0 0 [].

Definition get (remote_addr : string) (values : list (string * string)) : Request :=
  mkRequest remote_addr (list_to_map values) ∅.

(** A scoring request and a liftover request of format [variant]. *)
Definition score_request (distance : string) : Request :=
  get "1.2.3.4" [("variant", "chr8-140300615-C-G"); ("hg", "38"); ("distance", distance)].

Definition liftover_request (more : list (string * string)) : Request :=
  get "1.2.3.4"
    ([("format", "variant"); ("hg", "hg19-to-hg38"); ("chrom", "chr8");
      ("pos", "140300615"); ("ref", "C"); ("alt", "GA")] ++ more)%list.

(** The world after [n] checks of the rate limit of computed requests. *)
Fixpoint checks (n : nat) (w : world) : world :=
  match n with
  | O => w
  | S n' => checks n' (exceeds_rate_limit env "1.2.3.4" "SpliceAI: computed" w).2
  end.

(** A world in which the client of the examples already has [n] live
    markers of a request class. *)
Definition flooded (request_type : string) (n : nat) : world :=
  mkWorld
    (mkRedis
       (list_to_map
          ((λ i, (rate_limit_key_prefix "1.2.3.4" request_type +:+ ": "
                  +:+ Str.of_Z (Z.of_nat i),
                  mkEntry marker None)) <$> seq 0 n))
       0)
    0 0 [].

(** The environment of the examples with a Redis server that fails at the
    commands [down] selects. *)
Definition env_failing (down : nat → bool) : Env := {|
  GRCH37_table := GRCH37_table env;
  GRCH38_table := GRCH38_table env;
  SPLICEAI_CACHE_FILES := SPLICEAI_CACHE_FILES env;
  get_delta_scores := get_delta_scores env;
  liftOver := liftOver env;
  redis_down := down;
  time_time := time_time env;
  elapsed := elapsed env;
|}.

End Demo.
(** ** Facts about strings and the matcher *)

Section StringFacts.

Lemma append_nil_r (s : string) : s +:+ EmptyString = s.
Proof. induction s as [|c s IH]; simpl; [done | by rewrite IH]. Qed.

Lemma append_assoc (a b c : string) : (a +:+ b) +:+ c = a +:+ (b +:+ c).
Proof. induction a as [|x a IH]; simpl; [done | by rewrite IH]. Qed.

Lemma length_append (a b : string) :
  String.length (a +:+ b) = (String.length a + String.length b)%nat.
Proof. induction a as [|x a IH]; simpl; [done | by rewrite IH]. Qed.

Lemma take_append (w s : string) : Str.take (String.length w) (w +:+ s) = w.
Proof.
  induction w as [|c w IH]; simpl.
  - by destruct s.
  - by rewrite IH.
Qed.

Lemma taken_append (w s : string) : Re.taken (w +:+ s) s = w.
Proof.
  unfold Re.taken. rewrite length_append.
  replace (String.length w + String.length s - String.length s)%nat
    with (String.length w) by lia.
  apply take_append.
Qed.

Lemma strip_prefix_Some (w s s' : string) :
  Str.strip_prefix w s = Some s' → s = w +:+ s'.
Proof.
  revert s. induction w as [|a w IH]; intros [|b s]; simpl; try congruence.
  destruct (Ascii.eqb_spec a b) as [->|]; [|done].
  intros H. by rewrite (IH _ H).
Qed.

Lemma all_append (p : ascii → bool) (a b : string) :
  Str.all p (a +:+ b) = Str.all p a && Str.all p b.
Proof. induction a as [|c a IH]; simpl; [done | by rewrite IH, andb_assoc]. Qed.

Lemma digit_val_range (c : ascii) : Str.is_digit c = true → 0 ≤ Str.digit_val c ≤ 9.
Proof.
  unfold Str.is_digit, Str.digit_val. intros H.
  apply andb_true_iff in H as [H1%Nat.leb_le H2%Nat.leb_le]. lia.
Qed.

Lemma int_digits_from_bounds (w : string) : ∀ acc,
  Str.all Str.is_digit w = true → 0 ≤ acc →
  0 ≤ Str.int_digits_from acc w < (acc + 1) * 10 ^ Z.of_nat (String.length w).
Proof.
  induction w as [|c w IH]; intros acc Hall Hacc.
  - simpl. lia.
  - simpl in Hall. apply andb_true_iff in Hall as [Hc Hw].
    pose proof (digit_val_range c Hc) as Hd.
    cbn [Str.int_digits_from String.length].
    specialize (IH (10 * acc + Str.digit_val c) Hw ltac:(lia)).
    rewrite Nat2Z.inj_succ, Z.pow_succ_r by lia.
    split; [lia|].
    eapply Z.lt_le_trans; [apply IH|].
    assert (0 < 10 ^ Z.of_nat (String.length w)) by (apply Z.pow_pos_nonneg; lia).
    nia.
Qed.

Lemma int_digits_bounds (w : string) (n : nat) :
  Str.all Str.is_digit w = true → (String.length w ≤ n)%nat →
  0 ≤ Str.int_digits w < 10 ^ Z.of_nat n.
Proof.
  intros Hall Hlen. unfold Str.int_digits.
  pose proof (int_digits_from_bounds w 0 Hall ltac:(lia)) as [H0 H1].
  split; [done|]. eapply Z.lt_le_trans; [apply H1|].
  rewrite Z.mul_1_l. apply Z.pow_le_mono_r; lia.
Qed.

End StringFacts.

Section MatcherFacts.
Context {R : Type}.

Lemma rep_sound (cls : ascii → bool) (s : string) :
  ∀ lo hi (k : string → option R) out,
  Re.rep cls lo hi s k = Some out →
  ∃ w s', s = w +:+ s' ∧ Str.all cls w = true
          ∧ Re.in_bounds lo hi (String.length w) ∧ k s' = Some out.
Proof.
  assert (Hstop : ∀ lo hi (t : string) (k : string → option R) out,
    (if Nat.eqb lo 0 then k t else None) = Some out →
    ∃ w s', t = w +:+ s' ∧ Str.all cls w = true
            ∧ Re.in_bounds lo hi (String.length w) ∧ k s' = Some out).
  { intros lo hi t k out H. destruct (Nat.eqb_spec lo 0) as [->|]; [|done].
    exists EmptyString, t. repeat split; simpl; try done. by destruct hi; lia. }
  induction s as [|c s IH]; intros lo hi k out H; simpl in H.
  - by apply Hstop.
  - destruct (cls c && Re.room hi) eqn:Hc; [|by apply Hstop].
    apply andb_true_iff in Hc as [Hc Hroom].
    destruct (Re.rep cls (Nat.pred lo) (Re.less hi) s k) as [x|] eqn:Hrec;
      [|by apply Hstop].
    injection H as ->.
    destruct (IH _ _ _ _ Hrec) as (w & s' & -> & Hall & [Hlo Hhi] & Hk).
    exists (String c w), s'. repeat split; simpl; try done.
    + by rewrite Hc, Hall.
    + lia.
    + destruct hi as [[|h]|]; simpl in *; try done. lia.
Qed.

Lemma bt_sound (r : Re.regex) :
  ∀ s g (k : string → gmap string string → option R) out,
  Re.bt r s g k = Some out →
  ∃ w s' g', s = w +:+ s' ∧ Re.denote r w g g' ∧ k s' g' = Some out.
Proof.
  induction r as [v|cls lo hi|r IH|name r IH|r1 IH1 r2 IH2];
    intros s g k out H; simpl in H.
  - destruct (Str.strip_prefix v s) as [s'|] eqn:Hp; [|done].
    apply strip_prefix_Some in Hp. by exists v, s', g.
  - apply rep_sound in H as (w & s' & -> & Hall & Hb & Hk).
    by exists w, s', g.
  - destruct (Re.bt r s g k) as [x|] eqn:Hr.
    + injection H as ->. apply IH in Hr as (w & s' & g' & -> & Hd & Hk).
      exists w, s', g'. simpl. auto.
    + exists EmptyString, s, g. simpl. auto.
  - apply IH in H as (w & s' & g' & -> & Hd & Hk).
    rewrite taken_append in Hk.
    exists w, s', (Re.bind_group name w g'). simpl. eauto.
  - apply IH1 in H as (w1 & s1 & g1 & -> & Hd1 & Hk1).
    apply IH2 in Hk1 as (w2 & s2 & g2 & -> & Hd2 & Hk2).
    exists (w1 +:+ w2), s2, g2. rewrite append_assoc. simpl.
    split; [done|]. split; [|done]. by exists w1, w2, g1.
Qed.
End MatcherFacts.

(** What a successful match of [VARIANT_RE] has captured. *)
Record captured (m : gmap string string) : Prop := {
  cap_chrom : Str.all (in_set "0123456789XYMTt") (group m "chrom") = true
              ∧ (1 ≤ String.length (group m "chrom") ≤ 2)%nat;
  cap_pos : Str.all Str.is_digit (group m "pos") = true
            ∧ (1 ≤ String.length (group m "pos") ≤ 9)%nat;
  cap_ref : Str.all (in_set "ACGT") (group m "ref") = true
            ∧ (1 ≤ String.length (group m "ref"))%nat;
  cap_alt : Str.all (in_set "ACGT") (group m "alt") = true
            ∧ (1 ≤ String.length (group m "alt"))%nat;
}.

Lemma VARIANT_RE_captures (s : string) (m : gmap string string) :
  Re.match_ VARIANT_RE s = Some m → captured m.
Proof.
  unfold Re.match_. intros H.
  apply bt_sound in H as (w & s' & g' & _ & Hd & Hk).
  injection Hk as ->. unfold VARIANT_RE in Hd. cbn [Re.denote] in Hd.
  destruct Hd as (w0 & w1 & g0 & _ & Hchr & Hd).
  assert (g0 = ∅) as ->.
  { destruct Hchr as [(g1 & [_ ->] & ->)|[_ ->]]; done. }
  destruct Hd as (wc & w2 & gc & _ & (g1 & (Hc & Hcb & ->) & ->) & Hd).
  destruct Hd as (ws1 & w3 & g2 & _ & (_ & _ & ->) & Hd).
  destruct Hd as (wp & w4 & gp & _ & (g3 & (Hp & Hpb & ->) & ->) & Hd).
  destruct Hd as (ws2 & w5 & g4 & _ & (_ & _ & ->) & Hd).
  destruct Hd as (wr & w6 & gr & _ & (g5 & (Hr & Hrb & ->) & ->) & Hd).
  destruct Hd as (ws3 & wa & g6 & _ & (_ & _ & ->) & (g7 & (Ha & Hab & ->) & ->)).
  unfold Re.in_bounds in *. simpl Re.bind_group.
  split; unfold group; simplify_map_eq; simpl; intuition lia.
Qed.


(** ** The variant parser *)

(** The parser accepts chromosome tokens outside 1-22, X, Y, M, MT, rejects
    a lower-case [chrx] and accepts the position 0. *)
Lemma parse_variant_not_canonical :
  parse_variant "99-1-A-T" = inr ("99", 1, "A", "T")
  ∧ canonical_chrom "99" = false
  ∧ parse_variant "TT-1-A-T" = inr ("TT", 1, "A", "T")
  ∧ canonical_chrom "TT" = false
  ∧ canonical_chrom "chrx" = false ∧ canonical_chrom "x" = true
  ∧ parse_variant "chrx-1-A-T" = inl (ValueError "Unable to parse variant: chrx-1-A-T")
  ∧ parse_variant "chrX-0-A-T" = inr ("X", 0, "A", "T").
Proof. repeat split; vm_compute; reflexivity. Qed.

(** C3, as the code has it: [parse_variant] either fails with a
    [ValueError] and returns nothing, or returns a chromosome of one or two
    characters among the digits and [X], [Y], [M], [T], [t], a position
    written with one to nine digits (so from 0 to 999999999) and non-empty
    reference and alternate alleles over A, C, G, T.  The tokens [99] and
    [TT] are accepted and the lower-case [chrx] is rejected. *)
Theorem parse_variant_shape (variant_str : string) :
  (parse_variant variant_str = inl (ValueError ("Unable to parse variant: " +:+ variant_str))
   ∨ ∃ chrom pos ref alt,
       parse_variant variant_str = inr (chrom, pos, ref, alt)
       ∧ Str.all (in_set "0123456789XYMTt") chrom = true
       ∧ (1 ≤ String.length chrom ≤ 2)%nat
       ∧ 0 ≤ pos < 10 ^ 9
       ∧ Str.all (in_set "ACGT") ref = true ∧ (1 ≤ String.length ref)%nat
       ∧ Str.all (in_set "ACGT") alt = true ∧ (1 ≤ String.length alt)%nat)
  ∧ parse_variant "99-1-A-T" = inr ("99", 1, "A", "T")
  ∧ parse_variant "TT-1-A-T" = inr ("TT", 1, "A", "T")
  ∧ parse_variant "chrx-1-A-T" = inl (ValueError "Unable to parse variant: chrx-1-A-T").
Proof.
  split; [|repeat split; vm_compute; reflexivity].
  unfold parse_variant.
  destruct (Re.match_ VARIANT_RE variant_str) as [m|] eqn:Hm; [right|by left].
  apply VARIANT_RE_captures in Hm as [[Hc Hcl] [Hp Hpl] [Hr Hrl] [Ha Hal]].
  eexists _, _, _, _. split; [reflexivity|].
  pose proof (int_digits_bounds _ 9 Hp ltac:(lia)) as Hb.
  change (Z.of_nat 9) with 9 in Hb.
  repeat split; try done; try lia.
Qed.

(** ** The Redis model *)

Lemma live_db_live (r : redis_state) (k : string) (e : entry) :
  live_db r !! k = Some e → live (now r) e = true.
Proof. unfold live_db. rewrite map_lookup_filter_Some. by intros [_ ?]. Qed.

Lemma live_db_idemp (r : redis_state) (m : gmap string entry) :
  (∀ k e, m !! k = Some e → live (now r) e = true) →
  live_db (mkRedis m (now r)) = m.
Proof.
  intros H. unfold live_db. simpl. apply map_filter_id.
  intros k e Hk. simpl. by apply (H k).
Qed.

Lemma live_db_set (key : string) (v : blob) (r : redis_state) :
  live_db (redis_set key v r) = <[key := mkEntry v None]> (live_db r).
Proof.
  unfold redis_set. apply live_db_idemp. intros k e.
  rewrite lookup_insert. case_decide.
  - by intros [= <-].
  - apply live_db_live.
Qed.

(** A key that was set and given a time to live holds the value and
    expires that many seconds later. *)
Lemma redis_expire_set (key : string) (v : blob) (seconds : Z) (r : redis_state) :
  db (redis_expire key seconds (redis_set key v r)) !! key
  = Some (mkEntry v (Some (now r + seconds))).
Proof.
  unfold redis_expire. simpl. rewrite lookup_alter_eq, live_db_set.
  by rewrite lookup_insert_eq.
Qed.

Lemma redis_expire_set_other (key k : string) (v : blob) (seconds : Z) (r : redis_state) :
  key ≠ k →
  db (redis_expire key seconds (redis_set key v r)) !! k = live_db r !! k.
Proof.
  intros Hne. unfold redis_expire. simpl.
  rewrite lookup_alter_ne by done. rewrite live_db_set.
  by rewrite lookup_insert_ne.
Qed.

(** Patterns of plain characters match themselves only, so the pattern of
    the rate limiter selects the keys that start with its prefix. *)

Lemma glob_star (s : string) : glob "*" s = true.
Proof. induction s as [|c s IH]; [reflexivity|]. exact IH. Qed.

Lemma glob_plain_prefix (p s : string) :
  Str.all plain p = true → glob (p +:+ "*") s = Str.startswith s p.
Proof.
  revert s. induction p as [|c p IH]; intros s Hp.
  - apply glob_star.
  - simpl in Hp. apply andb_true_iff in Hp as [Hc Hp].
    unfold plain in Hc. apply negb_true_iff in Hc.
    apply orb_false_iff in Hc as [Hc H4]. apply orb_false_iff in Hc as [Hc H3].
    apply orb_false_iff in Hc as [H1 H2].
    change (String c p +:+ "*") with (String c (p +:+ "*")).
    cbn [glob]. rewrite H1.
    destruct s as [|d s]; [done|].
    rewrite H2, H3, H4, IH by done.
    unfold Str.startswith. cbn [Str.strip_prefix].
    by destruct (Ascii.eqb c d).
Qed.

(** ** Rate limiting *)

Section RateLimit.
Variable E : Env.

(** C4: a check of a recognized request class, in each of the ways its
    three Redis commands can go.  When every command is answered, the check
    denies the request and leaves the Redis state as it was if the live
    markers have reached the ceiling of the class, and otherwise records a
    marker that expires after the window (60 seconds) and admits the
    request.  When [KEYS] raises the request is admitted whatever the
    count, and nothing is recorded; below the ceiling, when [SET] raises
    the request is admitted and nothing is recorded, and when [EXPIRE]
    raises the request is admitted and the marker stays recorded without
    an expiry. *)
Theorem exceeds_rate_limit_admission (user_id request_type : string) (ceiling : Z)
    (w : world) :
  RATE_LIMIT_REQUESTS_PER_USER_PER_MINUTE !! request_type = Some ceiling →
  let count := Z.of_nat (length (live_markers user_id request_type (redis w))) in
  let key := marker_key E user_id request_type w in
  let keys_raises := redis_down E (redis_calls w) in
  let set_raises := redis_down E (S (redis_calls w)) in
  let expire_raises := redis_down E (S (S (redis_calls w))) in
  let run := exceeds_rate_limit E user_id request_type w in
  (keys_raises = false → ceiling ≤ count →
     run.1 = inr true ∧ redis run.2 = redis w)
  ∧ (keys_raises = false → count < ceiling → set_raises = false → expire_raises = false →
     run.1 = inr false
     ∧ redis run.2 = redis_expire key (RATE_LIMIT_WINDOW_SIZE_IN_MINUTES * 60)
                       (redis_set key marker (redis w))
     ∧ db (redis run.2) !! key
       = Some (mkEntry marker (Some (now (redis w) + RATE_LIMIT_WINDOW_SIZE_IN_MINUTES * 60))))
  ∧ (keys_raises = true →
     run.1 = inr false ∧ redis run.2 = redis w)
  ∧ (keys_raises = false → count < ceiling → set_raises = true →
     run.1 = inr false ∧ redis run.2 = redis w)
  ∧ (keys_raises = false → count < ceiling → set_raises = false → expire_raises = true →
     run.1 = inr false
     ∧ redis run.2 = redis_set key marker (redis w)
     ∧ db (redis run.2) !! key = Some (mkEntry marker None)).
Proof.
  intros Hclass count key keys_raises set_raises expire_raises run.
  subst run keys_raises set_raises expire_raises count.
  unfold exceeds_rate_limit. rewrite Hclass.
  unfold mbind, M_bind, time_now, try_except, REDIS_keys, REDIS_set, REDIS_expire,
    redis_command, mret, M_ret.
  cbn [redis redis_calls clock_reads trace].
  change (redis_keys (rate_limit_key_prefix user_id request_type +:+ "*") (redis w))
    with (live_markers user_id request_type (redis w)).
  change (rate_limit_key_prefix user_id request_type +:+ ": " +:+ time_time E (clock_reads w))
    with key.
  rewrite Z.mul_1_l.
  destruct (redis_down E (redis_calls w)) eqn:Hkeys.
  { repeat split; done. }
  destruct (Z.leb_spec ceiling
              (Z.of_nat (length (live_markers user_id request_type (redis w)))))
    as [Hle|Hlt].
  { repeat split; intros; first [done | lia]. }
  cbn [redis redis_calls clock_reads trace].
  destruct (redis_down E (S (redis_calls w))) eqn:Hset.
  { repeat split; intros; first [done | lia]. }
  cbn [redis redis_calls clock_reads trace].
  destruct (redis_down E (S (S (redis_calls w)))) eqn:Hexpire.
  - split; [intros; lia|]. split; [done|]. split; [done|]. split; [done|].
    intros _ _ _ _. cbn [fst snd redis]. split; [done|]. split; [done|].
    unfold redis_set. cbn [db]. by rewrite lookup_insert_eq.
  - split; [intros; lia|]. split; [|done].
    intros _ _ _ _. cbn [fst snd redis]. split; [done|]. split; [done|].
    apply redis_expire_set.
Qed.

(** C9: when a Redis command of the check raises, the check of a
    recognized request class returns [False]: the request is admitted. *)
Theorem exceeds_rate_limit_fails_open (user_id request_type : string) (ceiling : Z)
    (w : world) :
  RATE_LIMIT_REQUESTS_PER_USER_PER_MINUTE !! request_type = Some ceiling →
  check_raises E user_id request_type ceiling w →
  (exceeds_rate_limit E user_id request_type w).1 = inr false.
Proof.
  intros Hclass Hraise.
  unfold exceeds_rate_limit. rewrite Hclass.
  unfold mbind, M_bind, time_now, try_except, REDIS_keys, REDIS_set, REDIS_expire,
    redis_command, mret, M_ret.
  cbn [redis redis_calls clock_reads trace].
  fold (live_markers user_id request_type (redis w)).
  rewrite Z.mul_1_l.
  destruct (redis_down E (redis_calls w)) eqn:H0; [reflexivity|].
  destruct Hraise as [?|[Hlt Hraise]]; [congruence|].
  destruct (Z.leb_spec ceiling (Z.of_nat (length (live_markers user_id request_type (redis w)))));
    [lia|].
  cbn [redis redis_calls clock_reads trace].
  destruct (redis_down E (S (redis_calls w))) eqn:H1; [reflexivity|].
  cbn [redis redis_calls clock_reads trace].
  destruct (redis_down E (S (S (redis_calls w)))) eqn:H2; [reflexivity|].
  destruct Hraise; congruence.
Qed.

(** With the server unreachable every request of every class is admitted. *)
Lemma exceeds_rate_limit_server_down (user_id request_type : string) (w : world) :
  is_Some (RATE_LIMIT_REQUESTS_PER_USER_PER_MINUTE !! request_type) →
  (∀ n, redis_down E n = true) →
  (exceeds_rate_limit E user_id request_type w).1 = inr false
  ∧ redis (exceeds_rate_limit E user_id request_type w).2 = redis w.
Proof.
  intros [ceiling Hclass] Hdown.
  unfold exceeds_rate_limit. rewrite Hclass.
  unfold mbind, M_bind, time_now, try_except, REDIS_keys, redis_command, mret, M_ret.
  cbn [redis redis_calls clock_reads trace]. by rewrite Hdown.
Qed.

(** The check never raises for a recognized class, whatever Redis does. *)
Lemma exceeds_rate_limit_returns (user_id request_type : string) (w : world) :
  is_Some (RATE_LIMIT_REQUESTS_PER_USER_PER_MINUTE !! request_type) →
  ∃ b, (exceeds_rate_limit E user_id request_type w).1 = inr b.
Proof.
  intros [ceiling Hclass].
  unfold exceeds_rate_limit. rewrite Hclass.
  unfold mbind, M_bind, time_now, try_except, REDIS_keys, REDIS_set, REDIS_expire,
    redis_command, mret, M_ret.
  cbn [redis redis_calls clock_reads trace].
  repeat (case_match; simplify_eq/=; eauto).
Qed.

End RateLimit.

(** ** [process_variant] *)

Section ProcessVariant.
Variable E : Env.

Lemma other_genome_version_cases (genome_version other : string) :
  OTHER_GENOME_VERSION !! genome_version = Some other →
  (genome_version = "37" ∧ other = "38") ∨ (genome_version = "38" ∧ other = "37").
Proof.
  unfold OTHER_GENOME_VERSION. intros H.
  apply lookup_insert_Some in H as [[<- <-]|[_ H]]; [by left|].
  apply lookup_singleton_Some in H as [<- <-]. by right.
Qed.

Lemma annotation_trees_37 :
  ANNOTATION_INTERVAL_TREES E !! "37" = Some (load_annotations (GRCH37_table E) ∅).
Proof. reflexivity. Qed.

Lemma annotation_trees_38 :
  ANNOTATION_INTERVAL_TREES E !! "38" = Some (load_annotations (GRCH38_table E) ∅).
Proof. reflexivity. Qed.

(** C8: a variant whose reference and alternate alleles both have more
    than one base gets the complex-indel error, and the world is left as
    it was: no precomputed file is fetched and the model is not called. *)
Theorem process_variant_complex_indel (request : Request) (variant genome_version : string)
    (spliceai_distance spliceai_mask use_precomputed_scores : Z)
    (chrom : string) (pos : Z) (ref alt : string) (w : world) :
  parse_variant variant = inr (chrom, pos, ref, alt) →
  (1 < String.length ref)%nat →
  (1 < String.length alt)%nat →
  process_variant E request variant genome_version spliceai_distance spliceai_mask
    use_precomputed_scores w
  = (inr (error_result variant (complex_indel_message chrom pos ref alt)), w).
Proof.
  intros Hparse Href Halt. unfold process_variant. rewrite Hparse.
  apply Nat.ltb_lt in Href, Halt. by rewrite Href, Halt.
Qed.

(** A complex indel at a position that no build covers gets the
    complex-indel error, not the out-of-annotation error. *)
Lemma uncovered_complex_indel :
  parse_variant "chr9-140300615-CA-GT" = inr ("9", 140300615, "CA", "GT")
  ∧ covering Demo.env "37" "9" 140300615 = []
  ∧ covering Demo.env "38" "9" 140300615 = []
  ∧ (process_variant Demo.env (Demo.get "1.2.3.4" []) "chr9-140300615-CA-GT" "37" 50 0 1
       Demo.w0).1
    = inr (error_result "chr9-140300615-CA-GT"
             (complex_indel_message "9" 140300615 "CA" "GT"))
  ∧ complex_indel_message "9" 140300615 "CA" "GT"
    ≠ outside_annotation_message "37" "9" 140300615 "CA" "GT".
Proof. repeat split; try (vm_compute; reflexivity). vm_compute. discriminate. Qed.

(** C5, as the code has it: for a parsed variant that is not a complex
    indel and whose position no interval of the requested build covers,
    the result is the wrong-build error naming the genes of the other build
    that cover the position, or, when the other build does not cover it
    either, the out-of-annotation error; the world is left as it was, so no
    score is looked up or computed. *)
Theorem process_variant_outside_annotation (request : Request)
    (variant genome_version other : string)
    (spliceai_distance spliceai_mask use_precomputed_scores : Z)
    (chrom : string) (pos : Z) (ref alt : string) (w : world) :
  parse_variant variant = inr (chrom, pos, ref, alt) →
  (String.length ref ≤ 1 ∨ String.length alt ≤ 1)%nat →
  OTHER_GENOME_VERSION !! genome_version = Some other →
  covering E genome_version chrom pos = [] →
  process_variant E request variant genome_version spliceai_distance spliceai_mask
    use_precomputed_scores w
  = (inr (error_result variant
       (match covering E other chrom pos with
        | [] => outside_annotation_message genome_version chrom pos ref alt
        | intervals =>
            wrong_build_message genome_version other chrom pos ref alt
              (join_sorted_set (gene_of <$> intervals))
        end)), w).
Proof.
  intros Hparse Hsimple Hother Hout. unfold process_variant. rewrite Hparse.
  replace ((1 <? String.length ref)%nat && (1 <? String.length alt)%nat) with false.
  2:{ symmetry. apply andb_false_iff.
      destruct Hsimple; [left|right]; apply Nat.ltb_ge; lia. }
  rewrite Hother. unfold covering in *.
  apply other_genome_version_cases in Hother as [[-> ->]|[-> ->]].
  - rewrite annotation_trees_37, annotation_trees_38 in *. simpl in Hout. rewrite Hout.
    cbn [from_option id]. clear Hout. destruct (at_ _ pos); reflexivity.
  - rewrite annotation_trees_37, annotation_trees_38 in *. simpl in Hout. rewrite Hout.
    cbn [from_option id]. clear Hout. destruct (at_ _ pos); reflexivity.
Qed.

(** After the complex-indel check the test on the lengths of the alleles
    in the guard of the precomputed lookup is always true. *)
Lemma precomputed_guard_lengths (ref alt : string)
    (spliceai_distance use_precomputed_scores : Z) :
  (String.length ref ≤ 1 ∨ String.length alt ≤ 1)%nat →
  precomputed_guard ref alt spliceai_distance use_precomputed_scores
  = String.eqb (Str.of_Z spliceai_distance) (Str.of_Z SPLICEAI_DEFAULT_DISTANCE)
    && String.eqb (Str.of_Z use_precomputed_scores) "1".
Proof.
  intros H. unfold precomputed_guard.
  replace ((String.length ref <=? 5)%nat || (String.length alt <=? 2)%nat) with true; [done|].
  symmetry. apply orb_true_iff.
  destruct H; [left|right]; apply Nat.leb_le; lia.
Qed.

End ProcessVariant.

(** C2, at a deletion with a reference allele of six bases: with the
    default distance and the precomputed flag set, the precomputed file of
    indels is fetched although [len(ref) <= 5] fails, because the guard
    joins the two length tests with [or]. *)
Theorem precomputed_lookup_with_long_ref :
  let variant := "chr8-140300615-CACGTA-G" in
  let w := (process_variant Demo.env (Demo.get "1.2.3.4" []) variant "38" 50 0 1 Demo.w0).2 in
  parse_variant variant = inr ("8", 140300615, "CACGTA", "G")
  ∧ String.length "CACGTA" = 6%nat
  ∧ covering Demo.env "38" "8" 140300615 ≠ []
  ∧ precomputed_guard "CACGTA" "G" 50 1 = true
  ∧ happened (Tabix_fetch (Some "raw", "indel", Some "hg38") "8" 140300614 140300616) w.
Proof.
  repeat split; try (vm_compute; reflexivity).
  - vm_compute. discriminate.
  - unfold happened.
    assert (H : ∃ rest, trace (process_variant Demo.env (Demo.get "1.2.3.4" [])
                "chr8-140300615-CACGTA-G" "38" 50 0 1 Demo.w0).2
              = Tabix_fetch (Some "raw", "indel", Some "hg38") "8" 140300614 140300616 :: rest)
      by (eexists; vm_compute; reflexivity).
    destruct H as [rest ->]. apply list_elem_of_here.
Qed.

(** A response of the pipeline whose four delta scores are 0.00 carries the
    four offsets all the same. *)
Lemma zero_scores_keep_offsets :
  ∃ results score,
    (process_variant Demo.env (Demo.get "1.2.3.4" []) "1-739023-C-CT" "38" 50 0 1 Demo.w0).1
    = inr results
    ∧ results !! "error" = None
    ∧ results !! "scores" = Some (PList [score])
    ∧ score_fields score !! "DS_AG" = Some "0.00"
    ∧ score_fields score !! "DP_AG" = Some "-1"
    ∧ score_fields score !! "DS_DL" = Some "0.00"
    ∧ score_fields score !! "DP_DL" = Some "-37".
Proof.
  eexists _, "AL669831.1|0.00|0.00|0.00|0.00|-1|-37|-48|-37".
  split; [vm_compute; reflexivity|].
  repeat split; vm_compute; reflexivity.
Qed.

(** ** Traces *)

Section Quiet.
Context {A B : Type}.
Variable f : event → bool.

Lemma quiet_ret (x : A) : quiet f (mret x).
Proof. by intros w. Qed.

Lemma quiet_raise (e : exn) : quiet f (raise e : M A).
Proof. by intros w. Qed.

Lemma quiet_lift_exn (r : exn + A) : quiet f (lift_exn r).
Proof. by destruct r; intros w. Qed.

Lemma quiet_bind (m : M A) (k : A → M B) :
  quiet f m → (∀ x, quiet f (k x)) → quiet f (m ≫= k).
Proof.
  intros Hm Hk w. unfold mbind, M_bind. specialize (Hm w).
  destruct (m w) as [[e|x] w1]; simpl in *; [done|].
  by rewrite Hk.
Qed.

Lemma quiet_try (m : M A) (h : exn → M A) :
  quiet f m → (∀ e, quiet f (h e)) → quiet f (try_except m h).
Proof.
  intros Hm Hh w. unfold try_except. specialize (Hm w).
  destruct (m w) as [[e|x] w1]; simpl in *; [|done].
  by rewrite Hh.
Qed.

Lemma quiet_redis_command (E : Env) (ev : event) (run : redis_state → A * redis_state) :
  f ev = false → quiet f (redis_command E ev run).
Proof.
  intros Hev w. unfold redis_command.
  destruct (redis_down E (redis_calls w)); [|destruct (run (redis w))];
    simpl; rewrite List.filter_app; simpl; rewrite Hev; apply app_nil_r.
Qed.
End Quiet.

Lemma quiet_emit (f : event → bool) (ev : event) : f ev = false → quiet f (emit ev).
Proof.
  intros Hev w. simpl. rewrite List.filter_app. simpl. rewrite Hev. apply app_nil_r.
Qed.

Lemma quiet_time_now (f : event → bool) (E : Env) : quiet f (time_now E).
Proof. by intros w. Qed.

Ltac quiet_step :=
  first
    [ apply quiet_ret | apply quiet_raise | apply quiet_lift_exn | apply quiet_time_now
    | apply quiet_emit; reflexivity
    | apply quiet_redis_command; reflexivity
    | apply quiet_bind; [|intros ?]
    | apply quiet_try; [|intros ?] ].

Lemma quiet_exceeds_rate_limit (f : event → bool) (E : Env) (user_id request_type : string) :
  (∀ p, f (Redis_keys p) = false) →
  (∀ k, f (Redis_set k marker) = false) →
  (∀ k s, f (Redis_expire k s) = false) →
  quiet f (exceeds_rate_limit E user_id request_type).
Proof.
  intros Hk Hs He. unfold exceeds_rate_limit, REDIS_keys, REDIS_set, REDIS_expire.
  case_match; [|apply quiet_raise].
  apply quiet_bind; [apply quiet_time_now|intros t].
  apply quiet_try; [|intros; apply quiet_ret].
  apply quiet_bind; [by apply quiet_redis_command|intros keys].
  case_match; [apply quiet_ret|].
  apply quiet_bind; [by apply quiet_redis_command|intros _].
  apply quiet_bind; [by apply quiet_redis_command|intros _].
  apply quiet_ret.
Qed.

Section CacheStores.
Variable E : Env.

Lemma quiet_get_spliceai_from_redis (variant genome_version : string) (d m p : Z) :
  quiet is_cache_store (get_spliceai_from_redis E variant genome_version d m p).
Proof.
  unfold get_spliceai_from_redis, REDIS_get.
  repeat (quiet_step || case_match).
Qed.

Lemma quiet_process_variant (request : Request) (variant genome_version : string)
    (d m p : Z) :
  quiet is_cache_store (process_variant E request variant genome_version d m p).
Proof.
  unfold process_variant.
  repeat first
    [ quiet_step
    | apply quiet_exceeds_rate_limit; reflexivity
    | case_match ].
Qed.

End CacheStores.

(** ** Results *)

Section Returns.
Context {A B : Type}.

Lemma returns_ret (P : A → Prop) (x : A) : P x → returns P (mret x).
Proof. by intros H w. Qed.

Lemma returns_raise (P : A → Prop) (e : exn) : returns P (raise e).
Proof. by intros w. Qed.

Lemma returns_bind (P : B → Prop) (m : M A) (k : A → M B) :
  (∀ x, returns P (k x)) → returns P (m ≫= k).
Proof.
  intros Hk w. unfold mbind, M_bind.
  destruct (m w) as [[e|x] w1]; [done|]. apply Hk.
Qed.
Lemma returns_bind_with (Q : A → Prop) (P : B → Prop) (m : M A) (k : A → M B) :
  returns Q m → (∀ x, Q x → returns P (k x)) → returns P (m ≫= k).
Proof.
  intros Hm Hk w. unfold mbind, M_bind. specialize (Hm w).
  destruct (m w) as [[e|x] w1]; [done|]. by apply Hk.
Qed.
End Returns.

Lemma drop_alleles_length (raw scores : list string) :
  drop_alleles raw = inr scores → length scores = length raw.
Proof.
  revert scores. induction raw as [|s raw IH]; intros scores H; simpl in H.
  - by injection H as <-.
  - destruct (Str.after_first "|" s); [|done].
    destruct (drop_alleles raw) as [|rest]; [done|].
    injection H as <-. simpl. by rewrite (IH rest).
Qed.

Lemma after_first_split (c : ascii) (s s' : string) :
  Str.after_first c s = Some s' →
  ∃ before, s = before +:+ String c s'
            ∧ Str.all (λ a, negb (Ascii.eqb a c)) before = true.
Proof.
  revert s'. induction s as [|a s IH]; intros s' H; simpl in H; [done|].
  destruct (Ascii.eqb_spec a c) as [->|Hne].
  - injection H as <-. by exists EmptyString.
  - destruct (IH _ H) as (before & -> & Hall).
    exists (String a before). split; [done|]. simpl.
    rewrite Hall. by destruct (Ascii.eqb_spec a c).
Qed.

(** Dropping the allele keeps the rest of every score string as it is,
    the offsets included. *)
Lemma drop_alleles_keeps_fields (raw scores : list string) :
  drop_alleles raw = inr scores →
  Forall2 (λ r s, ∃ allele, r = allele +:+ String "|" s
                            ∧ Str.all (λ a, negb (Ascii.eqb a "|")) allele = true)
    raw scores.
Proof.
  revert scores. induction raw as [|r raw IH]; intros scores H; simpl in H.
  - injection H as <-. constructor.
  - destruct (Str.after_first "|" r) as [s|] eqn:Hs; [|done].
    destruct (drop_alleles raw) as [|rest]; [done|].
    injection H as <-. constructor; [|by apply IH].
    by apply after_first_split.
Qed.

Lemma result_shape_error (variant : string) (results : gmap string pyval) :
  result_shape variant results →
  (results !! "error" = None
   ↔ ∃ scores, results !! "scores" = Some (PList scores) ∧ scores ≠ []).
Proof.
  intros [[error ->]|(gv & chrom & pos & ref & alt & raw & scores & source
                      & Hraw & Hdrop & ->)].
  - unfold error_result. split; [by intros [=]|]. by intros (scores & [=] & _).
  - split; [intros _|reflexivity]. exists scores. split; [reflexivity|].
    apply drop_alleles_length in Hdrop. destruct scores, raw; done.
Qed.

Section Shape.
Variable E : Env.

Lemma process_variant_shape (request : Request) (variant genome_version : string)
    (d m p : Z) :
  returns (result_shape variant) (process_variant E request variant genome_version d m p).
Proof.
  assert (Hend : ∀ chrom pos ref alt
            (c : gmap string pyval + list string * pyval),
    match c with
    | inl error => ∃ msg, error = error_result variant msg
    | inr _ => True
    end →
    returns (result_shape variant)
      (match c with
       | inl error => mret error
       | inr ([], _) =>
           mret (error_result variant
             ("ERROR: The SpliceAI model did not return any scores for " +:+ variant
              +:+ ". This is typically due to the "
              +:+ "variant not being within any exon or intron as defined in Gencode v36"))
       | inr (scores, source) =>
           match drop_alleles scores with
           | inl e => raise e
           | inr scores' =>
               mret (success_result variant genome_version chrom pos ref alt scores' source)
           end
       end)).
  { intros chrom pos ref alt [error|[raw source']] Hc.
    - destruct Hc as [msg ->]. apply returns_ret. left. by eexists.
    - destruct raw as [|r raw]; [apply returns_ret; left; by eexists|].
      destruct (drop_alleles (r :: raw)) as [err|scores'] eqn:Hdrop; [apply returns_raise|].
      apply returns_ret. right.
      eexists _, _, _, _, _, (r :: raw), scores', _.
      split; [done|]. split; [exact Hdrop|reflexivity]. }
  unfold process_variant.
  destruct (parse_variant variant) as [e|[[[chrom pos] ref] alt]];
    [apply returns_ret; left; by eexists|].
  destruct (_ && _); [apply returns_ret; left; by eexists|].
  destruct (ANNOTATION_INTERVAL_TREES E !! genome_version); [|apply returns_raise].
  destruct (at_ _ pos).
  { repeat case_match; try apply returns_raise; apply returns_ret; left; by eexists. }
  apply returns_bind. intros [scores source].
  eapply returns_bind_with; [|intros c Hc; apply (Hend chrom pos ref alt c Hc)].
  repeat first
    [ apply returns_raise
    | apply returns_bind; intros ?
    | apply returns_ret; first [ by eexists | exact I ]
    | case_match ].
Qed.

End Shape.

(** ** The result cache *)

Section Cache.
Variable E : Env.

Lemma get_spliceai_from_redis_total (variant genome_version : string) (d m p : Z)
    (w : world) :
  ∃ cached, (get_spliceai_from_redis E variant genome_version d m p w).1 = inr cached.
Proof.
  unfold get_spliceai_from_redis, try_except, mbind, M_bind, REDIS_get, redis_command.
  destruct (redis_down E (redis_calls w)); [by eexists|].
  simpl. repeat case_match; by eexists.
Qed.

Lemma add_spliceai_to_redis_stores (variant genome_version : string) (d m p : Z)
    (results : gmap string pyval) (w : world) :
  let after := add_spliceai_to_redis E variant genome_version d m p results w in
  after.1 = inr ()
  ∧ cache_stores after.2
    = (cache_stores w
       ++ [Redis_set (get_spliceai_redis_key variant genome_version d m p)
             (json_dumps results)])%list.
Proof.
  unfold add_spliceai_to_redis, try_except, REDIS_set, redis_command, cache_stores.
  destruct (redis_down E (redis_calls w)); simpl;
    by rewrite List.filter_app.
Qed.

Lemma lookup_or_process_stores (request : Request) (variant genome_version : string)
    (d m p : Z) (w : world) :
  let looked := get_spliceai_from_redis E variant genome_version d m p w in
  let run := lookup_or_process E request variant genome_version d m p w in
  ∃ cached, looked.1 = inr cached ∧
    if from_option json_truthy false cached
    then run.1 = inr (default (JAtom PNone) cached)
         ∧ cache_stores run.2 = cache_stores w
    else
      match (process_variant E request variant genome_version d m p looked.2).1 with
      | inr results =>
          run.1 = inr (JDict results)
          ∧ result_shape variant results
          ∧ cache_stores run.2
            = (cache_stores w
               ++ if decide (results !! "error" = None)
                  then [Redis_set (get_spliceai_redis_key variant genome_version d m p)
                          (json_dumps results)]
                  else [])%list
      | inl e => run.1 = inl e ∧ cache_stores run.2 = cache_stores w
      end.
Proof.
  intros looked run. subst looked run.
  destruct (get_spliceai_from_redis_total variant genome_version d m p w) as [cached Hc].
  pose proof (quiet_get_spliceai_from_redis E variant genome_version d m p w) as Hq.
  exists cached. split; [done|].
  unfold lookup_or_process, mbind, M_bind.
  destruct (get_spliceai_from_redis E variant genome_version d m p w) as [r w1].
  simpl in Hc, Hq. subst r. fold (cache_stores w1) in Hq. fold (cache_stores w) in Hq.
  destruct (from_option json_truthy false cached); [by rewrite <- Hq|].
  pose proof (quiet_process_variant E request variant genome_version d m p w1) as Hp.
  pose proof (process_variant_shape E request variant genome_version d m p w1) as Hs.
  cbn [fst snd].
  destruct (process_variant E request variant genome_version d m p w1) as [[e|results] w2];
    simpl in Hp, Hs |- *; fold (cache_stores w2) in Hp; fold (cache_stores w1) in Hp.
  - split; [done|congruence].
  - destruct (results !! "error") as [v|] eqn:Herr.
    + rewrite decide_False by done. rewrite app_nil_r. simpl.
      repeat split; [done|congruence].
    + rewrite decide_True by done.
      destruct (add_spliceai_to_redis_stores variant genome_version d m p results w2)
        as [Ha Hst].
      destruct (add_spliceai_to_redis E variant genome_version d m p results w2)
        as [r w3]. simpl in Ha, Hst. subst r. simpl.
      repeat split; [done|]. by rewrite Hst, Hp, Hq.
Qed.

Lemma errors_uncached_ret (response : Response) : errors_uncached (mret response).
Proof. by intros w. Qed.

Lemma errors_uncached_raise (e : exn) : errors_uncached (raise e).
Proof. by intros w. Qed.

Lemma errors_uncached_bind {A : Type} (m : M A) (k : A → M Response) :
  quiet is_cache_store m → (∀ x, errors_uncached (k x)) → errors_uncached (m ≫= k).
Proof.
  intros Hm Hk w. unfold mbind, M_bind. specialize (Hm w).
  destruct (m w) as [[e|x] w1]; [done|].
  specialize (Hk x w1). simpl in Hm.
  destruct (k x w1) as [[e|response] w2]; [done|]. simpl in *.
  intros H. unfold cache_stores in *. by rewrite Hk.
Qed.

Lemma errors_uncached_tail (request : Request) (params : gmap string pyval)
    (variant genome_version : string) (d m p : Z) :
  errors_uncached
    (lookup_or_process E request variant genome_version d m p ≫= respond E params).
Proof.
  intros w.
  destruct (lookup_or_process_stores request variant genome_version d m p w)
    as (cached & Hc & H).
  unfold mbind, M_bind.
  destruct (lookup_or_process E request variant genome_version d m p w) as [r w1].
  cbn [fst snd] in H.
  assert (Hrespond : ∀ results w', match (respond E params results w').1 with
                                   | inr response =>
                                       (respond E params results w').2 = w'
                                       ∧ ∃ d, results = JDict d
                                              ∧ (status response = 400 → is_Some (d !! "error"))
                                   | inl _ => True
                                   end).
  { intros [results|v] w'; simpl; [|done]. split; [done|]. exists results. split; [done|].
    destruct (results !! "error"); simpl; [by eauto|done]. }
  destruct (from_option json_truthy false cached).
  - destruct H as [-> Hst]. specialize (Hrespond (default (JAtom PNone) cached) w1).
    destruct (respond _ _ _ _) as [[e|response] w2]; [done|].
    simpl in *. destruct Hrespond as [-> _]. by intros _.
  - destruct (process_variant E request variant genome_version d m p _).1 as [e|results].
    + destruct H as [-> Hst]. done.
    + destruct H as (-> & _ & Hst). specialize (Hrespond (JDict results) w1).
      destruct (respond _ _ _ _) as [[e|response] w2]; [done|].
      simpl in *. destruct Hrespond as [-> (d' & [= <-] & Herr)].
      intros H400. destruct (Herr H400) as [v Hv].
      rewrite Hst, decide_False, app_nil_r; [done|]. by rewrite Hv.
Qed.

Lemma run_spliceai_errors_uncached (request : Request) :
  errors_uncached (run_spliceai E request).
Proof.
  unfold run_spliceai.
  apply errors_uncached_bind; [by apply quiet_exceeds_rate_limit|intros limited].
  repeat first
    [ apply errors_uncached_tail
    | apply errors_uncached_ret
    | apply errors_uncached_raise
    | case_match ].
Qed.

Lemma stores_success_ret (request : Request) (params : gmap string pyval)
    (response : Response) :
  stores_success E request params (mret response).
Proof. intros w. by left. Qed.

Lemma stores_success_raise (request : Request) (params : gmap string pyval) (e : exn) :
  stores_success E request params (raise e).
Proof. intros w. by left. Qed.

Lemma stores_success_bind {A : Type} (request : Request) (params : gmap string pyval)
    (m : M A) (k : A → M Response) :
  quiet is_cache_store m → (∀ x, stores_success E request params (k x)) →
  stores_success E request params (m ≫= k).
Proof.
  intros Hm Hk w. unfold mbind, M_bind. specialize (Hm w).
  fold (cache_stores (m w).2) in Hm. fold (cache_stores w) in Hm.
  destruct (m w) as [[e|x] w1]; cbn [fst snd] in *; [by left|].
  destruct (Hk x w1) as [Hsame|Hstore]; [left; congruence|right].
  by rewrite <- Hm.
Qed.

Lemma respond_dict (params results : gmap string pyval) (w : world) :
  respond E params (JDict results) w
  = (inr (mkResponse (if from_option truthy false (results !! "error") then 400 else 200)
            (<["duration" := PStr (elapsed E)]> (results ∪ params))), w).
Proof. reflexivity. Qed.

Lemma respond_state (params : gmap string pyval) (results : json) (w : world) :
  (respond E params results w).2 = w.
Proof. by destruct results. Qed.

Lemma stores_success_tail (request : Request) (params : gmap string pyval)
    (variant genome_version : string) (d m p : Z) :
  stores_success E request params
    (lookup_or_process E request variant genome_version d m p ≫= respond E params).
Proof.
  intros w.
  destruct (lookup_or_process_stores request variant genome_version d m p w)
    as (cached & Hc & H).
  unfold mbind, M_bind.
  destruct (lookup_or_process E request variant genome_version d m p w) as [r w1].
  cbn [fst snd] in H.
  destruct (from_option json_truthy false cached).
  { destruct H as [-> Hst]. left. by rewrite respond_state. }
  destruct (process_variant E request variant genome_version d m p _).1
    as [e|results] eqn:Hrun.
  { destruct H as [-> Hst]. by left. }
  destruct H as (-> & Hshape & Hst). rewrite respond_dict. cbn [fst snd].
  destruct (decide (results !! "error" = None)) as [Hok|Herr].
  - right. destruct (proj1 (result_shape_error variant results Hshape) Hok)
      as (scores & Hscores & Hne).
    eexists variant, genome_version, d, m, p, _, results, scores.
    split; [exact Hrun|]. rewrite Hok. done.
  - left. by rewrite Hst, app_nil_r.
Qed.

Lemma run_spliceai_stores_success (request : Request) :
  stores_success E request (params_of request "variant") (run_spliceai E request).
Proof.
  unfold run_spliceai.
  apply stores_success_bind; [by apply quiet_exceeds_rate_limit|intros limited].
  repeat first
    [ apply stores_success_tail
    | apply stores_success_ret
    | apply stores_success_raise
    | case_match ].
Qed.

(** A request that passes the rate limit and the checks of its parameters
    is resolved by the cache block and answered by [respond]. *)
Lemma run_spliceai_resolved (request : Request) (w : world)
    (variant genome_version : string) (d : Z) :
  let params := params_of request "variant" in
  let spliceai_distance := default (PInt SPLICEAI_DEFAULT_DISTANCE) (params !! "distance") in
  let spliceai_mask := default (PStr (Str.of_Z SPLICEAI_DEFAULT_MASK)) (params !! "mask") in
  let use_precomputed_scores :=
    default (PStr (Str.of_Z USE_PRECOMPUTED_SCORES)) (params !! "precomputed") in
  let checked := exceeds_rate_limit E (remote_addr request) "SpliceAI: total" w in
  checked.1 = inr false →
  params !! "variant" = Some (PStr variant) →
  clean_variant variant ≠ EmptyString →
  params !! "hg" = Some (PStr genome_version) →
  genome_version = "37" ∨ genome_version = "38" →
  int_of spliceai_distance = inr d →
  d ≤ SPLICEAI_MAX_DISTANCE_LIMIT →
  is_flag spliceai_mask = true →
  is_flag use_precomputed_scores = true →
  run_spliceai E request w
  = (lookup_or_process E request (clean_variant variant) genome_version d
       (flag_value spliceai_mask) (flag_value use_precomputed_scores)
     ≫= respond E params) checked.2.
Proof.
  intros params spliceai_distance spliceai_mask use_precomputed_scores checked
    Hlimit Hvariant Hclean Hhg Hbuild Hd Hle Hmask Hpre.
  unfold run_spliceai. fold params.
  unfold mbind at 1. unfold M_bind at 1. fold checked.
  destruct checked as [r w1]. simpl in Hlimit. subst r. cbn [snd].
  rewrite Hvariant. cbn [from_option id].
  destruct (String.eqb_spec (clean_variant variant) EmptyString) as [|_]; [done|].
  rewrite Hhg. cbn [from_option id].
  fold spliceai_distance spliceai_mask use_precomputed_scores.
  rewrite Hd, Hmask, Hpre.
  apply Z.ltb_ge in Hle. rewrite Hle.
  by destruct Hbuild as [-> | ->].
Qed.

(** C7: what [run_spliceai] writes to the result cache.  Whatever the
    request, it stores at most once, and what it stores is a result of
    [process_variant] that has no error and carries scores, returned to the
    client with the status 200; a request that is answered with an error
    (status 400) has stored nothing.  And for a request that passes the rate
    limit and the checks of its parameters: on a cache hit nothing is
    stored; on a miss, [process_variant] is run, its result is the body of
    the response, and the result is stored under the key of the request
    exactly when it has no error, that is, when it carries a set of
    scores. *)
Theorem cache_store_iff_success (request : Request) (w : world) :
  let params := params_of request "variant" in
  let run := run_spliceai E request w in
  (cache_stores run.2 = cache_stores w
   ∨ ∃ variant genome_version d mask pre w1 results scores,
       (process_variant E request variant genome_version d mask pre w1).1 = inr results
       ∧ results !! "error" = None
       ∧ results !! "scores" = Some (PList scores)
       ∧ scores ≠ []
       ∧ cache_stores run.2
         = (cache_stores w
            ++ [Redis_set (get_spliceai_redis_key variant genome_version d mask pre)
                  (json_dumps results)])%list
       ∧ run.1 = inr (mkResponse 200
                        (<["duration" := PStr (elapsed E)]> (results ∪ params))))
  ∧ (∀ response,
       run.1 = inr response → status response = 400 →
       cache_stores run.2 = cache_stores w)
  ∧ (∀ (variant genome_version : string) (d : Z),
       let spliceai_distance :=
         default (PInt SPLICEAI_DEFAULT_DISTANCE) (params !! "distance") in
       let mask :=
         flag_value (default (PStr (Str.of_Z SPLICEAI_DEFAULT_MASK)) (params !! "mask")) in
       let pre :=
         flag_value (default (PStr (Str.of_Z USE_PRECOMPUTED_SCORES))
                       (params !! "precomputed")) in
       let checked := exceeds_rate_limit E (remote_addr request) "SpliceAI: total" w in
       let looked := get_spliceai_from_redis E (clean_variant variant) genome_version
                       d mask pre checked.2 in
       checked.1 = inr false →
       params !! "variant" = Some (PStr variant) →
       clean_variant variant ≠ EmptyString →
       params !! "hg" = Some (PStr genome_version) →
       genome_version = "37" ∨ genome_version = "38" →
       int_of spliceai_distance = inr d →
       d ≤ SPLICEAI_MAX_DISTANCE_LIMIT →
       is_flag (default (PStr (Str.of_Z SPLICEAI_DEFAULT_MASK)) (params !! "mask")) = true →
       is_flag (default (PStr (Str.of_Z USE_PRECOMPUTED_SCORES)) (params !! "precomputed"))
       = true →
       ∃ cached, looked.1 = inr cached ∧
         if from_option json_truthy false cached
         then run.1 = (respond E params (default (JAtom PNone) cached) looked.2).1
              ∧ cache_stores run.2 = cache_stores w
         else
           match (process_variant E request (clean_variant variant) genome_version
                    d mask pre looked.2).1 with
           | inr results =>
               (results !! "error" = None
                ↔ ∃ scores, results !! "scores" = Some (PList scores) ∧ scores ≠ [])
               ∧ run.1
                 = inr (mkResponse
                          (if from_option truthy false (results !! "error")
                           then 400 else 200)
                          (<["duration" := PStr (elapsed E)]> (results ∪ params)))
               ∧ cache_stores run.2
                 = (cache_stores w
                    ++ if decide (results !! "error" = None)
                       then [Redis_set
                               (get_spliceai_redis_key (clean_variant variant)
                                  genome_version d mask pre)
                               (json_dumps results)]
                       else [])%list
           | inl e => run.1 = inl e ∧ cache_stores run.2 = cache_stores w
           end).
Proof.
  intros params run. split; [apply run_spliceai_stores_success|]. split.
  { intros response Hrun H400.
    pose proof (run_spliceai_errors_uncached request w) as H.
    fold run in H. rewrite Hrun in H. by apply H. }
  intros variant genome_version d spliceai_distance mask pre checked looked
    Hlimit Hvariant Hclean Hhg Hbuild Hd Hle Hmask Hpre.
  subst run.
  rewrite (run_spliceai_resolved request w variant genome_version d
             Hlimit Hvariant Hclean Hhg Hbuild Hd Hle Hmask Hpre).
  fold params mask pre checked.
  assert (quiet is_cache_store
            (exceeds_rate_limit E (remote_addr request) "SpliceAI: total")) as Hq
    by by apply quiet_exceeds_rate_limit.
  specialize (Hq w).
  fold checked in Hq. fold (cache_stores checked.2) in Hq. fold (cache_stores w) in Hq.
  destruct (lookup_or_process_stores request (clean_variant variant) genome_version
              d mask pre checked.2) as (cached & Hc & H).
  fold looked in Hc, H.
  exists cached. split; [exact Hc|].
  unfold mbind, M_bind.
  destruct (lookup_or_process E request (clean_variant variant) genome_version
              d mask pre checked.2) as [r w1].
  cbn [fst snd] in H.
  destruct (from_option json_truthy false cached).
  { destruct H as [-> Hst]. rewrite respond_state. split; [|congruence].
    by destruct (default (JAtom PNone) cached). }
  destruct (process_variant E request (clean_variant variant) genome_version
              d mask pre looked.2).1 as [e|results].
  { destruct H as [-> Hst]. split; [done|]. cbn [snd]. congruence. }
  destruct H as (-> & Hshape & Hst). rewrite respond_dict. cbn [fst snd].
  split; [by apply (result_shape_error (clean_variant variant))|].
  split; [done|]. by rewrite Hst, Hq.
Qed.

End Cache.

(** ** The scoring endpoint *)

Section Endpoint.
Variable E : Env.

(** C10: for a request that passes the rate limit and whose variant, build
    and flags are valid, a distance that reads as the integer [d] is
    rejected with a client error when [d > 10000] and only then; every
    [d <= 10000], the limit itself, zero and the negative numbers
    included, goes on to the cache and to [process_variant] as it is. *)
Theorem distance_upper_bound_only (request : Request) (w : world)
    (variant genome_version : string) (d : Z) :
  let params := params_of request "variant" in
  let spliceai_distance := default (PInt SPLICEAI_DEFAULT_DISTANCE) (params !! "distance") in
  let spliceai_mask := default (PStr (Str.of_Z SPLICEAI_DEFAULT_MASK)) (params !! "mask") in
  let use_precomputed_scores :=
    default (PStr (Str.of_Z USE_PRECOMPUTED_SCORES)) (params !! "precomputed") in
  let checked := exceeds_rate_limit E (remote_addr request) "SpliceAI: total" w in
  checked.1 = inr false →
  params !! "variant" = Some (PStr variant) →
  clean_variant variant ≠ EmptyString →
  params !! "hg" = Some (PStr genome_version) →
  genome_version = "37" ∨ genome_version = "38" →
  int_of spliceai_distance = inr d →
  is_flag spliceai_mask = true →
  is_flag use_precomputed_scores = true →
  run_spliceai E request w
  = if SPLICEAI_MAX_DISTANCE_LIMIT <? d
    then (inr (error_response (distance_limit_message d)), checked.2)
    else (lookup_or_process E request (clean_variant variant) genome_version d
            (flag_value spliceai_mask) (flag_value use_precomputed_scores)
          ≫= respond E params) checked.2.
Proof.
  intros params spliceai_distance spliceai_mask use_precomputed_scores checked
    Hlimit Hvariant Hclean Hhg Hbuild Hd Hmask Hpre.
  unfold run_spliceai. fold params.
  unfold mbind at 1. unfold M_bind at 1. fold checked.
  destruct checked as [r w1]. simpl in Hlimit. subst r. cbn [snd].
  rewrite Hvariant. cbn [from_option id].
  destruct (String.eqb_spec (clean_variant variant) EmptyString) as [|_]; [done|].
  rewrite Hhg. cbn [from_option id].
  fold spliceai_distance spliceai_mask use_precomputed_scores.
  rewrite Hd, Hmask, Hpre.
  destruct Hbuild as [-> | ->]; destruct (SPLICEAI_MAX_DISTANCE_LIMIT <? d); reflexivity.
Qed.

End Endpoint.

Lemma distance_upper_bound_only_witness :
  run_spliceai Demo.env (Demo.score_request "10000") Demo.w0
  = (lookup_or_process Demo.env (Demo.score_request "10000") "chr8-140300615-C-G" "38"
       10000 0 1
     ≫= respond Demo.env (params_of (Demo.score_request "10000") "variant"))
      (exceeds_rate_limit Demo.env "1.2.3.4" "SpliceAI: total" Demo.w0).2.
Proof.
  apply (distance_upper_bound_only Demo.env (Demo.score_request "10000") Demo.w0
           "chr8-140300615-C-G" "38" 10000).
  - vm_compute. reflexivity.
  - vm_compute. reflexivity.
  - vm_compute. discriminate.
  - vm_compute. reflexivity.
  - by right.
  - vm_compute. reflexivity.
  - vm_compute. reflexivity.
  - vm_compute. reflexivity.
Defined.

Lemma cache_store_iff_success_witness :
  let request := Demo.score_request "51" in
  let run := run_spliceai Demo.env request Demo.w0 in
  let results := success_result "chr8-140300615-C-G" "38" "8" 140300615 "C" "G"
                   ["TRAPPC9|0.00|0.03|0.00|0.01|-2|15|-2|15"] (PStr "computed") in
  results !! "error" = None
  ∧ cache_stores run.2
    = [Redis_set "chr8-140300615-C-G__hg38__d51__m0__pre1" (json_dumps results)].
Proof.
  intros request run results.
  pose proof (cache_store_iff_success Demo.env request Demo.w0) as H.
  cbv zeta in H. destruct H as (_ & _ & H).
  specialize (H "chr8-140300615-C-G" "38" 51).
  do 2 (specialize (H ltac:(vm_compute; reflexivity))).
  specialize (H ltac:(vm_compute; discriminate)).
  specialize (H ltac:(vm_compute; reflexivity)).
  specialize (H ltac:(by right)).
  specialize (H ltac:(vm_compute; reflexivity)).
  specialize (H ltac:(vm_compute; discriminate)).
  do 2 (specialize (H ltac:(vm_compute; reflexivity))).
  destruct H as (cached & Hlooked & H).
  assert (cached = None) as -> by (vm_compute in Hlooked; congruence).
  cbn [from_option] in H.
  assert ((process_variant Demo.env request (clean_variant "chr8-140300615-C-G") "38" 51
             (flag_value (default (PStr (Str.of_Z SPLICEAI_DEFAULT_MASK))
                            (params_of request "variant" !! "mask")))
             (flag_value (default (PStr (Str.of_Z USE_PRECOMPUTED_SCORES))
                            (params_of request "variant" !! "precomputed")))
             (get_spliceai_from_redis Demo.env (clean_variant "chr8-140300615-C-G") "38" 51
                (flag_value (default (PStr (Str.of_Z SPLICEAI_DEFAULT_MASK))
                               (params_of request "variant" !! "mask")))
                (flag_value (default (PStr (Str.of_Z USE_PRECOMPUTED_SCORES))
                               (params_of request "variant" !! "precomputed")))
                (exceeds_rate_limit Demo.env (remote_addr request) "SpliceAI: total"
                   Demo.w0).2).2).1
          = inr results) as Hrun by (vm_compute; reflexivity).
  rewrite Hrun in H. destruct H as (_ & _ & Hst).
  split; [reflexivity|].
  etrans; [exact Hst|]. vm_compute. reflexivity.
Defined.

(** ** Liftover *)

Lemma all_rev_onto (p : ascii → bool) (s acc : string) :
  Str.all p (Str.rev_onto s acc) = Str.all p s && Str.all p acc.
Proof.
  revert acc. induction s as [|c s IH]; intros acc; simpl; [done|].
  rewrite IH. simpl. destruct (p c), (Str.all p s), (Str.all p acc); done.
Qed.

Lemma all_rev (p : ascii → bool) (s : string) : Str.all p (Str.rev s) = Str.all p s.
Proof. unfold Str.rev. rewrite all_rev_onto. simpl. apply andb_true_r. Qed.

Lemma in_set_ACGT (c : ascii) :
  in_set "ACGT" c = true → c = "A"%char ∨ c = "C"%char ∨ c = "G"%char ∨ c = "T"%char.
Proof.
  cbn [in_set]. rewrite orb_false_r, !orb_true_iff.
  intros [H|[H|[H|H]]]; apply Ascii.eqb_eq in H; auto.
Qed.

Lemma complement_total (s : string) :
  Str.all (in_set "ACGT") s = true → ∃ r, complement s = inr r.
Proof.
  induction s as [|c s IH]; intros H; [by eexists|].
  simpl in H. apply andb_true_iff in H as [Hc Hs].
  destruct (IH Hs) as [r Hr]. cbn [complement]. rewrite Hr.
  apply in_set_ACGT in Hc as [-> | [-> | [-> | ->]]]; by eexists.
Qed.

(** [reverse_complement] is defined on every sequence over A, C, G, T. *)
Lemma reverse_complement_total (s : string) :
  Str.all (in_set "ACGT") s = true → ∃ r, reverse_complement s = inr r.
Proof. intros H. apply complement_total. by rewrite all_rev. Qed.

Lemma finish_liftover_variant (params result : gmap string pyval) (pos : option Z)
    (ref alt strand : string) (output_end : pyval) (w : world) :
  params !! "ref" = Some (PStr ref) →
  params !! "alt" = Some (PStr alt) →
  Str.all (in_set "ACGT") ref = true →
  Str.all (in_set "ACGT") alt = true →
  params !! "output_strand" = None →
  result !! "output_strand" = Some (PStr strand) →
  (params ∪ result) !! "output_end" = Some output_end →
  ∃ response rc_ref rc_alt,
    finish_liftover params "variant" pos result w = (inr response, w)
    ∧ status response = 200
    ∧ reverse_complement ref = inr rc_ref
    ∧ reverse_complement alt = inr rc_alt
    ∧ body response !! "output_strand" = Some (PStr strand)
    ∧ (strand = "-" →
       body response !! "output_ref" = Some (PStr rc_ref)
       ∧ body response !! "output_alt" = Some (PStr rc_alt))
    ∧ (strand ≠ "-" →
       body response !! "output_ref" = Some (PStr ref)
       ∧ body response !! "output_alt" = Some (PStr alt)).
Proof.
  intros Href Halt Hr Ha Hps Hstrand Hend.
  destruct (reverse_complement_total ref Hr) as [rc_ref Hrc_ref].
  destruct (reverse_complement_total alt Ha) as [rc_alt Hrc_alt].
  assert (Hu_ref : (params ∪ result) !! "ref" = Some (PStr ref))
    by by apply lookup_union_Some_l.
  assert (Hu_alt : (params ∪ result) !! "alt" = Some (PStr alt))
    by by apply lookup_union_Some_l.
  assert (Hu_strand : (params ∪ result) !! "output_strand" = Some (PStr strand))
    by by rewrite lookup_union_r.
  unfold finish_liftover, item, mbind, M_bind, mret, M_ret.
  change (String.eqb "variant" "position" || String.eqb "variant" "variant") with true.
  change (String.eqb "variant" "variant") with true. cbv iota.
  rewrite lookup_insert_ne, Hend by done.
  rewrite !lookup_insert_ne, Hu_ref by done.
  rewrite lookup_insert_ne by done. rewrite !lookup_insert_ne, Hu_alt by done.
  rewrite (lookup_insert_ne _ "output_alt" "output_strand") by done.
  rewrite (lookup_insert_ne _ "output_ref" "output_strand") by done.
  rewrite (lookup_insert_ne _ "output_pos" "output_strand") by done.
  rewrite (lookup_insert_ne _ "pos" "output_strand") by done.
  rewrite Hu_strand.
  case_bool_decide as Hs.
  - injection Hs as ->. simpl reverse_complement_val. rewrite Hrc_ref, Hrc_alt. simpl.
    eexists _, rc_ref, rc_alt. split; [reflexivity|]. simpl.
    repeat split; try done.
    + by simplify_map_eq.
    + by simplify_map_eq.
    + by simplify_map_eq.
  - eexists _, rc_ref, rc_alt. split; [reflexivity|]. simpl.
    repeat split; try done; try (by simplify_map_eq).
    all: exfalso; apply Hs; congruence.
Qed.

Section Liftover.
Variable E : Env.

Lemma add_liftover_to_redis_returns (hg : string) (chrom start end_ : pyval)
    (result : gmap string pyval) (w : world) :
  (add_liftover_to_redis E hg chrom start end_ result w).1 = inr ().
Proof.
  unfold add_liftover_to_redis, try_except, REDIS_set, redis_command.
  by destruct (redis_down E (redis_calls w)).
Qed.

(** X22: a liftover request of format [variant] that passes the rate
    limit, misses the cache and carries no [output_strand] parameter of its
    own, with alleles over A, C, G, T and a record of six fields or more
    returned by liftOver, is answered with the status 200; when the strand
    of that record is [-] the [output_ref] and [output_alt] of the response
    are the reverse complements of the alleles of the request, otherwise
    they are these alleles unchanged. *)
Theorem liftover_variant_strand (request : Request) (w : world)
    (hg chain_file_path chrom ref alt : string) (pos_param : pyval) (pos : Z)
    (cached : option json) (out unmapped strand : string) :
  let params := params_of request "format" in
  let checked := exceeds_rate_limit E (remote_addr request) "liftover: total" w in
  let looked := get_liftover_from_redis E hg (PStr chrom) (PInt (pos - 1)) (PInt pos)
                  checked.2 in
  let result_fields := Str.split tab (Str.strip is_space out) in
  checked.1 = inr false →
  params !! "hg" = Some (PStr hg) →
  CHAIN_FILE_PATHS !! hg = Some chain_file_path →
  params !! "format" = Some (PStr "variant") →
  params !! "chrom" = Some (PStr chrom) →
  chrom ≠ EmptyString →
  params !! "pos" = Some pos_param →
  truthy pos_param = true →
  int_of pos_param = inr pos →
  params !! "ref" = Some (PStr ref) →
  params !! "alt" = Some (PStr alt) →
  Str.all (in_set "ACGT") ref = true →
  Str.all (in_set "ACGT") alt = true →
  params !! "output_strand" = None →
  looked.1 = inr cached →
  from_option json_truthy false cached = false →
  liftOver E chain_file_path
    (liftover_bed_line ("chr" +:+ Str.replace "chr" "" chrom) (PInt (pos - 1)) (PInt pos))
  = inr (out, unmapped) →
  (5 < length result_fields)%nat →
  is_Some (py_int (default EmptyString (result_fields !! 1%nat))) →
  is_Some (py_int (default EmptyString (result_fields !! 2%nat))) →
  result_fields !! 5%nat = Some strand →
  ∃ response rc_ref rc_alt,
    (run_liftover E request w).1 = inr response
    ∧ status response = 200
    ∧ reverse_complement ref = inr rc_ref
    ∧ reverse_complement alt = inr rc_alt
    ∧ body response !! "output_strand" = Some (PStr strand)
    ∧ (strand = "-" →
       body response !! "output_ref" = Some (PStr rc_ref)
       ∧ body response !! "output_alt" = Some (PStr rc_alt))
    ∧ (strand ≠ "-" →
       body response !! "output_ref" = Some (PStr ref)
       ∧ body response !! "output_alt" = Some (PStr alt)).
Proof.
  intros params checked looked result_fields Hlimit Hhg Hchain Hformat Hchrom Hne
    Hpos Htruthy Hint Href Halt Hr Ha Hps Hlooked Hmiss Htool Hlen [s1 Hs1] [s2 Hs2] Hstrand.
  unfold run_liftover. fold params.
  unfold mbind at 1. unfold M_bind at 1. fold checked.
  destruct checked as [r w1]. simpl in Hlimit. subst r. cbn [snd] in looked.
  rewrite Hhg. cbn [from_option id].
  rewrite bool_decide_true.
  2:{ apply list_elem_of_fmap. exists (hg, chain_file_path). split; [done|].
      by apply elem_of_map_to_list. }
  rewrite Hformat. cbn [from_option id negb].
  rewrite Hchrom. cbn [from_option id].
  replace (truthy (PStr chrom)) with true.
  2:{ simpl. by destruct (String.eqb_spec chrom EmptyString). }
  rewrite Hpos. cbn [from_option id]. rewrite Htruthy.
  change (negb (truthy (PStr "variant"))
          || negb (bool_decide (PStr "variant" ∈ PStr <$> VALID_FORMAT_VALUES)))
    with false.
  change (py_str (PStr "variant")) with "variant".
  change (String.eqb "variant" "interval") with false.
  rewrite Hint. cbn [negb lift_exn].
  unfold mbind, M_bind, mret, M_ret. fold looked.
  destruct looked as [c w2]. simpl in Hlooked. subst c. rewrite Hmiss.
  unfold try_except, run_UCSC_liftover_tool. rewrite Hchain.
  unfold mbind, M_bind, mret, M_ret, emit, raise. rewrite Htool.
  fold result_fields. apply Nat.ltb_lt in Hlen. rewrite Hlen.
  unfold int_of. rewrite Hs1, Hs2. rewrite Hstrand. cbn [from_option id].
  match goal with
  | |- context [add_liftover_to_redis E hg ?c ?s ?e ?r ?w0] =>
      pose proof (add_liftover_to_redis_returns hg c s e r w0) as Hadd;
      destruct (add_liftover_to_redis E hg c s e r w0) as [u w3];
      simpl in Hadd; subst u;
      set (result := r)
  end.
  assert (Hres_strand : result !! "output_strand" = Some (PStr strand))
    by (subst result; vm_compute; reflexivity).
  assert (Hres_end : result !! "output_end" = Some (PInt s2))
    by (subst result; vm_compute; reflexivity).
  assert (Hend : ∃ output_end, (params ∪ result) !! "output_end" = Some output_end).
  { destruct (params !! "output_end") as [v|] eqn:Hv.
    - exists v. by apply lookup_union_Some_l.
    - exists (PInt s2). rewrite lookup_union_r; [exact Hres_end|exact Hv]. }
  clearbody result.
  destruct Hend as [output_end Hend].
  destruct (finish_liftover_variant params result (Some pos) ref alt strand output_end w3
              Href Halt Hr Ha Hps Hres_strand Hend)
    as (response & rc_ref & rc_alt & Hfinish & Hrest).
  exists response, rc_ref, rc_alt. by rewrite Hfinish.
Qed.

End Liftover.

(** C6: the strand that decides on the reverse complement is not always
    the one liftOver reported.  [result.update(params)] copies the
    parameters of the request over the result of the tool before
    [result["output_strand"]] is tested: for a request of format [variant]
    that carries [output_strand=+], liftOver maps to the reverse strand,
    yet the response, of status 200, reports the strand [+] and the alleles
    of the request, not their reverse complements. *)
Theorem liftover_strand_overridden :
  let request := Demo.liftover_request [("output_strand", "+")] in
  params_of request "format" !! "ref" = Some (PStr "C")
  ∧ params_of request "format" !! "alt" = Some (PStr "GA")
  ∧ liftOver Demo.env "hg19ToHg38.over.chain.gz"
      (liftover_bed_line "chr8" (PInt 140300614) (PInt 140300615))
    = inr (Str.join tab ["chr8"; "139288371"; "139288372"; "."; "0"; "-"] +:+ nl,
           EmptyString)
  ∧ (run_UCSC_liftover_tool Demo.env "hg19-to-hg38" (PStr "chr8")
       (PInt 140300614) (PInt 140300615) Demo.w0).1
    = inr {[ "chrom" := PStr "chr8"; "start" := PInt 140300614; "end" := PInt 140300615;
             "output_chrom" := PStr "chr8"; "output_start" := PInt 139288371;
             "output_end" := PInt 139288372; "output_strand" := PStr "-" ]}
  ∧ reverse_complement "C" = inr "G"
  ∧ reverse_complement "GA" = inr "TC"
  ∧ ∃ response,
      (run_liftover Demo.env request Demo.w0).1 = inr response
      ∧ status response = 200
      ∧ body response !! "output_strand" = Some (PStr "+")
      ∧ body response !! "output_ref" = Some (PStr "C")
      ∧ body response !! "output_alt" = Some (PStr "GA").
Proof.
  repeat split; try (vm_compute; reflexivity).
  eexists. split; [vm_compute; reflexivity|].
  repeat split; vm_compute; reflexivity.
Qed.

Lemma liftover_variant_strand_witness :
  ∃ response,
    (run_liftover Demo.env (Demo.liftover_request []) Demo.w0).1 = inr response
    ∧ body response !! "output_strand" = Some (PStr "-")
    ∧ body response !! "output_ref" = Some (PStr "G")
    ∧ body response !! "output_alt" = Some (PStr "TC").
Proof.
  pose proof (liftover_variant_strand Demo.env (Demo.liftover_request []) Demo.w0
              "hg19-to-hg38" "hg19ToHg38.over.chain.gz" "chr8" "C" "GA"
              (PStr "140300615") 140300615 None
              (Str.join tab ["chr8"; "139288371"; "139288372"; "."; "0"; "-"] +:+ nl)
              EmptyString "-") as H.
  cbv zeta in H.
  do 5 (specialize (H ltac:(vm_compute; reflexivity))).
  specialize (H ltac:(discriminate)).
  do 11 (specialize (H ltac:(vm_compute; reflexivity))).
  specialize (H ltac:(apply Nat.ltb_lt; vm_compute; reflexivity)).
  specialize (H ltac:(eexists; vm_compute; reflexivity)).
  specialize (H ltac:(eexists; vm_compute; reflexivity)).
  specialize (H ltac:(vm_compute; reflexivity)).
  destruct H as (response & rc_ref & rc_alt & Hrun & _ & Href & Halt & Hstrand & Hminus & _).
  exists response.
  destruct (Hminus eq_refl) as [Ho_ref Ho_alt].
  vm_compute in Href, Halt. injection Href as <-. injection Halt as <-.
  auto.
Defined.

(** ** Witnesses of the rate limiter and of [process_variant] *)

(** With a Redis server that does not answer every command, a check at the
    ceiling admits the request, and a check below the ceiling can leave a
    marker that never expires. *)
Lemma exceeds_rate_limit_unanswered :
  (let w := Demo.checks 4 Demo.w0 in
   let E := Demo.env_failing (Nat.eqb (redis_calls w)) in
   RATE_LIMIT_REQUESTS_PER_USER_PER_MINUTE !! "SpliceAI: computed" = Some 4
   ∧ length (live_markers "1.2.3.4" "SpliceAI: computed" (redis w)) = 4%nat
   ∧ (exceeds_rate_limit E "1.2.3.4" "SpliceAI: computed" w).1 = inr false)
  ∧ (let E := Demo.env_failing (Nat.eqb 2) in
     let run := exceeds_rate_limit E "1.2.3.4" "SpliceAI: computed" Demo.w0 in
     length (live_markers "1.2.3.4" "SpliceAI: computed" (redis Demo.w0)) = 0%nat
     ∧ run.1 = inr false
     ∧ db (redis run.2) !! "request 1.2.3.4 SpliceAI: computed: 1700000000.0"
       = Some (mkEntry marker None)).
Proof. repeat split; vm_compute; reflexivity. Qed.

Lemma exceeds_rate_limit_admission_witness :
  (* a first request is admitted and its marker expires after 60 seconds *)
  ((exceeds_rate_limit Demo.env "1.2.3.4" "SpliceAI: computed" Demo.w0).1 = inr false
   ∧ db (redis (exceeds_rate_limit Demo.env "1.2.3.4" "SpliceAI: computed" Demo.w0).2)
       !! "request 1.2.3.4 SpliceAI: computed: 1700000000.0"
     = Some (mkEntry marker (Some 60)))
  (* the fifth request of the minute is denied and records nothing *)
  ∧ ((exceeds_rate_limit Demo.env "1.2.3.4" "SpliceAI: computed" (Demo.checks 4 Demo.w0)).1
     = inr true
     ∧ redis (exceeds_rate_limit Demo.env "1.2.3.4" "SpliceAI: computed"
                (Demo.checks 4 Demo.w0)).2
       = redis (Demo.checks 4 Demo.w0)).
Proof.
  split.
  - pose proof (exceeds_rate_limit_admission Demo.env "1.2.3.4" "SpliceAI: computed" 4
                  Demo.w0) as H.
    cbv zeta in H. specialize (H ltac:(vm_compute; reflexivity)).
    destruct H as (_ & Hfirst & _).
    specialize (Hfirst ltac:(reflexivity) ltac:(vm_compute; reflexivity)
                  ltac:(reflexivity) ltac:(reflexivity)).
    destruct Hfirst as (Hrun & _ & Hdb).
    split; [exact Hrun|]. vm_compute in Hdb |- *. exact Hdb.
  - pose proof (exceeds_rate_limit_admission Demo.env "1.2.3.4" "SpliceAI: computed" 4
                  (Demo.checks 4 Demo.w0)) as H.
    cbv zeta in H. specialize (H ltac:(vm_compute; reflexivity)).
    destruct H as (Hdeny & _).
    apply Hdeny; [reflexivity|vm_compute; discriminate].
Defined.

Lemma exceeds_rate_limit_fails_open_witness :
  (exceeds_rate_limit Demo.env_down "1.2.3.4" "SpliceAI: total" Demo.w0).1 = inr false.
Proof.
  apply (exceeds_rate_limit_fails_open Demo.env_down "1.2.3.4" "SpliceAI: total" 20 Demo.w0).
  - vm_compute. reflexivity.
  - left. reflexivity.
Defined.

Lemma process_variant_complex_indel_witness :
  process_variant Demo.env (Demo.get "1.2.3.4" []) "chr8-140300615-CA-GT" "38" 50 0 1 Demo.w0
  = (inr (error_result "chr8-140300615-CA-GT"
            (complex_indel_message "8" 140300615 "CA" "GT")), Demo.w0).
Proof.
  apply (process_variant_complex_indel Demo.env (Demo.get "1.2.3.4" [])
           "chr8-140300615-CA-GT" "38" 50 0 1 "8" 140300615 "CA" "GT" Demo.w0).
  - vm_compute. reflexivity.
  - simpl. lia.
  - simpl. lia.
Defined.

Lemma process_variant_outside_annotation_witness :
  (* covered by the other build only *)
  process_variant Demo.env (Demo.get "1.2.3.4" []) "chr8-140300615-C-G" "37" 50 0 1 Demo.w0
  = (inr (error_result "chr8-140300615-C-G"
            (wrong_build_message "37" "38" "8" 140300615 "C" "G" "TRAPPC9")), Demo.w0)
  (* covered by no build *)
  ∧ process_variant Demo.env (Demo.get "1.2.3.4" []) "chr9-140300615-C-G" "37" 50 0 1 Demo.w0
    = (inr (error_result "chr9-140300615-C-G"
              (outside_annotation_message "37" "9" 140300615 "C" "G")), Demo.w0).
Proof.
  split.
  - etrans.
    + apply (process_variant_outside_annotation Demo.env (Demo.get "1.2.3.4" [])
               "chr8-140300615-C-G" "37" "38" 50 0 1 "8" 140300615 "C" "G" Demo.w0).
      * vm_compute. reflexivity.
      * left. simpl. lia.
      * vm_compute. reflexivity.
      * vm_compute. reflexivity.
    + vm_compute. reflexivity.
  - etrans.
    + apply (process_variant_outside_annotation Demo.env (Demo.get "1.2.3.4" [])
               "chr9-140300615-C-G" "37" "38" 50 0 1 "9" 140300615 "C" "G" Demo.w0).
      * vm_compute. reflexivity.
      * left. simpl. lia.
      * vm_compute. reflexivity.
      * vm_compute. reflexivity.
    + vm_compute. reflexivity.
Defined.

(** ** The score strings of a response *)

Lemma split_first_field (allele s : string) :
  Str.all (λ a, negb (Ascii.eqb a "|")) allele = true →
  Str.split "|" (allele +:+ String "|" s) = allele :: Str.split "|" s.
Proof.
  unfold Str.split. induction allele as [|a allele IH]; intros Hall.
  - reflexivity.
  - simpl in Hall. apply andb_true_iff in Hall as [Ha Hall].
    change (String a allele +:+ String "|" s) with (String a (allele +:+ String "|" s)).
    cbn [Str.split_go]. rewrite (IH Hall).
    apply negb_true_iff in Ha.
    replace (Str.startswith (String a (allele +:+ String "|" s)) "|") with false; [done|].
    symmetry. unfold Str.startswith. cbn [Str.strip_prefix].
    destruct (Ascii.eqb_spec "|" a) as [<-|]; [done|reflexivity].
Qed.

Section Offsets.
Variable E : Env.

Lemma process_variant_raw_scores (request : Request) (variant genome_version : string)
    (d m p : Z) :
  returns
    (λ results,
       results !! "error" = None →
       ∃ chrom pos ref alt raw scores,
         parse_variant variant = inr (chrom, pos, ref, alt)
         ∧ raw_scores E genome_version chrom pos ref alt d m p raw
         ∧ drop_alleles raw = inr scores
         ∧ results !! "scores" = Some (PList scores))
    (process_variant E request variant genome_version d m p).
Proof.
  unfold process_variant.
  destruct (parse_variant variant) as [e|[[[chrom pos] ref] alt]]; [by apply returns_ret|].
  destruct (_ && _); [by apply returns_ret|].
  destruct (ANNOTATION_INTERVAL_TREES E !! genome_version); [|apply returns_raise].
  destruct (at_ _ pos).
  { repeat case_match; try apply returns_raise; by apply returns_ret. }
  apply (returns_bind_with
           (λ found : list string * pyval,
              found.1 = [] ∨ raw_scores E genome_version chrom pos ref alt d m p found.1)).
  { destruct (precomputed_guard ref alt d p) eqn:Hguard; [|apply returns_ret; by left].
    cbv zeta.
    destruct (SPLICEAI_CACHE_FILES E !! _) as [file|] eqn:Hfile;
      [|apply returns_ret; by left].
    apply returns_bind. intros _.
    assert (raw_scores E genome_version chrom pos ref alt d m p
              (collect_scores chrom pos ref alt (file chrom (pos - 1) (pos + 1)).1 []).1)
      as Hraw by (left; by exists file).
    destruct (file chrom (pos - 1) (pos + 1)) as [results [e|]]; cbn [fst] in Hraw.
    - apply returns_ret. by right.
    - destruct (collect_scores chrom pos ref alt results []) as [[|s scores] [e|]];
        apply returns_ret; cbn [fst]; auto. }
  intros [found source] Hfound. cbn [fst] in Hfound.
  apply (returns_bind_with
           (λ computed : gmap string pyval + list string * pyval,
              match computed with
              | inl error => ∃ msg, error = error_result variant msg
              | inr (raw, _) =>
                  raw = [] ∨ raw_scores E genome_version chrom pos ref alt d m p raw
              end)).
  { destruct found as [|s found]; [|by apply returns_ret].
    apply returns_bind. intros limited.
    destruct limited; [apply returns_ret; by eexists|].
    destruct (SPLICEAI_ANNOTATOR !! genome_version) as [annotator|] eqn:Hannotator;
      [|apply returns_ret; by eexists].
    apply returns_bind. intros _.
    destruct (get_delta_scores E _ annotator d m) as [e|raw] eqn:Hmodel;
      apply returns_ret; [by eexists|].
    right. right. by exists annotator. }
  intros [error|[raw source']] Hc.
  - destruct Hc as [msg ->]. by apply returns_ret.
  - destruct raw as [|r raw]; [by apply returns_ret|].
    destruct Hc as [|Hraw]; [done|].
    destruct (drop_alleles (r :: raw)) as [err|scores] eqn:Hdrop; [apply returns_raise|].
    apply returns_ret. intros _.
    exists chrom, pos, ref, alt, (r :: raw), scores. done.
Qed.

(** C1: a result of [process_variant] without an error carries the score
    strings as the precomputed file or the model produced them, each with
    only its leading allele field dropped: the fields that follow the
    allele, the four offsets [DP_AG], [DP_AL], [DP_DG] and [DP_DL] among
    them, are those of the raw string, whatever the values of the four
    [DS] fields are. *)
Theorem process_variant_keeps_offsets (request : Request)
    (variant genome_version : string) (d m p : Z) (w : world)
    (results : gmap string pyval) :
  (process_variant E request variant genome_version d m p w).1 = inr results →
  results !! "error" = None →
  ∃ chrom pos ref alt raw scores,
    parse_variant variant = inr (chrom, pos, ref, alt)
    ∧ raw_scores E genome_version chrom pos ref alt d m p raw
    ∧ results !! "scores" = Some (PList scores)
    ∧ Forall2 (λ r score,
         ∃ allele,
           Str.all (λ a, negb (Ascii.eqb a "|")) allele = true
           ∧ r = allele +:+ String "|" score
           ∧ Str.split "|" r = allele :: Str.split "|" score)
        raw scores.
Proof.
  intros Hrun Hok.
  pose proof (process_variant_raw_scores request variant genome_version d m p w) as H.
  rewrite Hrun in H.
  destruct (H Hok) as (chrom & pos & ref & alt & raw & scores & Hparse & Hraw & Hdrop & Hscores).
  exists chrom, pos, ref, alt, raw, scores. repeat split; try done.
  eapply Forall2_impl; [by apply drop_alleles_keeps_fields|].
  intros r score (allele & -> & Hall). exists allele.
  repeat split; try done. by apply split_first_field.
Qed.

End Offsets.

Lemma process_variant_keeps_offsets_witness :
  let results := success_result "1-739023-C-CT" "38" "1" 739023 "C" "CT"
                   ["AL669831.1|0.00|0.00|0.00|0.00|-1|-37|-48|-37"] (PStr "lookup") in
  ∃ chrom pos ref alt raw scores,
    parse_variant "1-739023-C-CT" = inr (chrom, pos, ref, alt)
    ∧ raw_scores Demo.env "38" chrom pos ref alt 50 0 1 raw
    ∧ results !! "scores" = Some (PList scores)
    ∧ Forall2 (λ r score,
         ∃ allele,
           Str.all (λ a, negb (Ascii.eqb a "|")) allele = true
           ∧ r = allele +:+ String "|" score
           ∧ Str.split "|" r = allele :: Str.split "|" score)
        raw scores.
Proof.
  apply (process_variant_keeps_offsets Demo.env (Demo.get "1.2.3.4" [])
           "1-739023-C-CT" "38" 50 0 1 Demo.w0).
  - vm_compute. reflexivity.
  - vm_compute. reflexivity.
Defined.

(** * Further properties of the server *)

(** ** [reverse_complement] *)

Lemma str_rev_onto_append (s acc : string) : Str.rev_onto s acc = Str.rev s +:+ acc.
Proof.
  unfold Str.rev. revert acc. induction s as [|c s IH]; intros acc; simpl; [done|].
  rewrite IH, (IH (String c EmptyString)). rewrite append_assoc. done.
Qed.

Lemma str_rev_cons (c : ascii) (s : string) : Str.rev (String c s) = Str.rev s +:+ String c EmptyString.
Proof. unfold Str.rev at 1. simpl. apply str_rev_onto_append. Qed.

Lemma str_rev_append (a b : string) : Str.rev (a +:+ b) = Str.rev b +:+ Str.rev a.
Proof.
  induction a as [|c a IH]; simpl.
  - by rewrite append_nil_r.
  - by rewrite !str_rev_cons, IH, append_assoc.
Qed.

Lemma str_rev_rev (s : string) : Str.rev (Str.rev s) = s.
Proof.
  induction s as [|c s IH]; [done|].
  by rewrite str_rev_cons, str_rev_append, IH.
Qed.

Lemma str_length_rev (s : string) : String.length (Str.rev s) = String.length s.
Proof.
  induction s as [|c s IH]; [done|].
  rewrite str_rev_cons, length_append, IH. simpl. lia.
Qed.

Lemma str_map_append (f : ascii → ascii) (a b : string) :
  Str.map f (a +:+ b) = Str.map f a +:+ Str.map f b.
Proof. induction a as [|c a IH]; simpl; [done|by rewrite IH]. Qed.

Lemma str_map_rev (f : ascii → ascii) (s : string) : Str.map f (Str.rev s) = Str.rev (Str.map f s).
Proof.
  induction s as [|c s IH]; [done|].
  simpl. by rewrite !str_rev_cons, str_map_append, IH.
Qed.

Lemma str_length_map (f : ascii → ascii) (s : string) : String.length (Str.map f s) = String.length s.
Proof. induction s as [|c s IH]; simpl; [done|by rewrite IH]. Qed.

Lemma in_set_ACGTN (c : ascii) :
  in_set "ACGTN" c = true ↔
  c = "A"%char ∨ c = "C"%char ∨ c = "G"%char ∨ c = "T"%char ∨ c = "N"%char.
Proof.
  cbn [in_set]. rewrite orb_false_r, !orb_true_iff, !Ascii.eqb_eq.
  split; intros H; repeat destruct H as [H|H]; auto 6.
Qed.

Lemma REVERSE_COMPLEMENT_MAP_lookup (c : ascii) :
  REVERSE_COMPLEMENT_MAP !! String c EmptyString
  = if in_set "ACGTN" c then Some (String (complement_base c) EmptyString) else None.
Proof.
  destruct (in_set "ACGTN" c) eqn:Hc.
  - apply in_set_ACGTN in Hc as [-> | [-> | [-> | [-> | ->]]]]; vm_compute; reflexivity.
  - unfold REVERSE_COMPLEMENT_MAP.
    cbn [in_set] in Hc. rewrite orb_false_r, !orb_false_iff, !Ascii.eqb_neq in Hc.
    destruct Hc as (? & ? & ? & ? & ?).
    repeat (rewrite lookup_insert_ne by congruence).
    rewrite lookup_singleton_ne by congruence. done.
Qed.

Lemma complement_defined (s : string) :
  Str.all (in_set "ACGTN") s = true → complement s = inr (Str.map complement_base s).
Proof.
  induction s as [|c s IH]; intros H; [done|].
  cbn [Str.all] in H. apply andb_true_iff in H as [Hc Hs].
  cbn [complement]. rewrite REVERSE_COMPLEMENT_MAP_lookup, Hc, (IH Hs). done.
Qed.

Lemma complement_undefined (s : string) :
  Str.all (in_set "ACGTN") s = false → ∃ n, complement s = inl (KeyError n).
Proof.
  induction s as [|c s IH]; intros H; [done|].
  cbn [complement]. rewrite REVERSE_COMPLEMENT_MAP_lookup.
  cbn [Str.all] in H. destruct (in_set "ACGTN" c) eqn:Hc; [|by eexists].
  cbn [andb] in H. destruct (IH H) as [n ->]. by eexists.
Qed.

Lemma complement_base_involutive (c : ascii) :
  in_set "ACGTN" c = true →
  complement_base (complement_base c) = c ∧ in_set "ACGTN" (complement_base c) = true.
Proof. intros H. apply in_set_ACGTN in H as [-> | [-> | [-> | [-> | ->]]]]; done. Qed.

Lemma map_complement_base (s : string) :
  Str.all (in_set "ACGTN") s = true →
  Str.map complement_base (Str.map complement_base s) = s
  ∧ Str.all (in_set "ACGTN") (Str.map complement_base s) = true.
Proof.
  induction s as [|c s IH]; intros H; [done|].
  cbn [Str.all] in H. apply andb_true_iff in H as [Hc Hs].
  destruct (complement_base_involutive c Hc) as [Hi Hin].
  destruct (IH Hs) as [IH1 IH2]. cbn [Str.map Str.all]. by rewrite Hi, IH1, Hin, IH2.
Qed.

(** X1: [reverse_complement] returns a sequence exactly for the inputs over
    A, C, G, T, N: any other character, a lower-case base for one, raises
    [KeyError]. *)
Theorem reverse_complement_defined (seq : string) :
  (Str.all (in_set "ACGTN") seq = true
   → reverse_complement seq = inr (Str.rev (Str.map complement_base seq)))
  ∧ (Str.all (in_set "ACGTN") seq = false
     → ∃ n, reverse_complement seq = inl (KeyError n)).
Proof.
  unfold reverse_complement. split; intros H.
  - rewrite complement_defined by by rewrite all_rev. by rewrite str_map_rev.
  - apply complement_undefined. by rewrite all_rev.
Qed.

(** X2: [reverse_complement] is an involution that keeps the length: the
    reverse complement of the reverse complement of a sequence is the
    sequence itself. *)
Theorem reverse_complement_involutive (seq rc : string) :
  reverse_complement seq = inr rc →
  reverse_complement rc = inr seq ∧ String.length rc = String.length seq.
Proof.
  unfold reverse_complement. intros H.
  destruct (Str.all (in_set "ACGTN") seq) eqn:Hall.
  - rewrite complement_defined in H by by rewrite all_rev.
    injection H as <-.
    destruct (map_complement_base seq Hall) as [Hinv Hin].
    rewrite <- str_map_rev, str_rev_rev.
    rewrite complement_defined by done. rewrite Hinv.
    split; [done|]. by rewrite str_length_map, str_length_rev.
  - destruct (complement_undefined (Str.rev seq)) as [n Hn]; [by rewrite all_rev|].
    congruence.
Qed.

Lemma reverse_complement_involutive_witness :
  reverse_complement "TC" = inr "GA" ∧ String.length "TC" = String.length "GA".
Proof.
  apply (reverse_complement_involutive "GA" "TC"). vm_compute. reflexivity.
Defined.

(** ** [parse_variant] on well-formed descriptors *)

Lemma rep_munch {R : Type} (cls : ascii → bool) (w : string) :
  ∀ lo hi s (k : string → option R) out,
  Str.all cls w = true →
  Re.in_bounds lo hi (String.length w) →
  stops cls s = true →
  k s = Some out →
  Re.rep cls lo hi (w +:+ s) k = Some out.
Proof.
  induction w as [|c w IH]; intros lo hi s k out Hall [Hlo Hhi] Hstop Hk.
  - simpl in Hlo. assert (lo = 0%nat) as -> by lia.
    change (EmptyString +:+ s) with s.
    destruct s as [|d s]; simpl; [done|].
    simpl in Hstop. apply negb_true_iff in Hstop. by rewrite Hstop.
  - cbn [Str.all] in Hall. apply andb_true_iff in Hall as [Hc Hw].
    change (String c w +:+ s) with (String c (w +:+ s)).
    cbn [Re.rep]. rewrite Hc.
    assert (Re.room hi = true) as ->.
    { destruct hi as [[|h]|]; simpl in *; try done. lia. }
    cbn [andb].
    rewrite (IH (Nat.pred lo) (Re.less hi) s k out); try done.
    split; simpl in *; [lia|]. destruct hi as [h|]; simpl; [lia|done].
Qed.

(** The classes of [VARIANT_RE] that follow one another share no character. *)
Lemma classes_apart (c : ascii) :
  (sep_class "-:" c = true → in_set "0123456789XYMTt" c = false)
  ∧ (Str.is_digit c = true → sep_class "-:" c = false)
  ∧ (sep_class "-:" c = true → Str.is_digit c = false)
  ∧ (in_set "ACGT" c = true → sep_class "-:" c = false)
  ∧ (sep_class "-:>" c = true → in_set "ACGT" c = false)
  ∧ (in_set "ACGT" c = true → sep_class "-:>" c = false)
  ∧ (in_set "0123456789XYMTt" c = true → Ascii.eqb "c" c = false).
Proof.
  destruct c as [[] [] [] [] [] [] [] []]; vm_compute; repeat split; congruence.
Qed.

Lemma stops_next (cls cls' : ascii → bool) (w s : string) :
  (∀ c, cls c = true → cls' c = false) →
  Str.all cls w = true → w ≠ EmptyString → stops cls' (w +:+ s) = true.
Proof.
  intros Hapart Hall Hne. destruct w as [|c w]; [done|].
  cbn [Str.all] in Hall. apply andb_true_iff in Hall as [Hc _].
  simpl. by rewrite (Hapart c Hc).
Qed.

Ltac apart :=
  let c := fresh "c" in
  intros c ?; destruct (classes_apart c) as (?&?&?&?&?&?&?); auto.

Lemma length_pos (s : string) : s ≠ EmptyString → (1 ≤ String.length s)%nat.
Proof. destruct s; [done|simpl; lia]. Qed.

(** X3: a well-formed descriptor is parsed back into its parts: an optional
    [chr], a chromosome token, a position of one to nine digits and the two
    alleles, separated by any non-empty runs of the separators the pattern
    allows, give back exactly the chromosome, the value of the digits and
    the alleles; what follows the alternate allele is ignored. *)
Theorem parse_variant_round_trip (chr_prefix : bool)
    (chrom pos ref alt sep1 sep2 sep3 rest : string) :
  Str.all (in_set "0123456789XYMTt") chrom = true →
  (1 ≤ String.length chrom ≤ 2)%nat →
  Str.all Str.is_digit pos = true →
  (1 ≤ String.length pos ≤ 9)%nat →
  Str.all (in_set "ACGT") ref = true → ref ≠ EmptyString →
  Str.all (in_set "ACGT") alt = true → alt ≠ EmptyString →
  Str.all (sep_class "-:") sep1 = true → sep1 ≠ EmptyString →
  Str.all (sep_class "-:") sep2 = true → sep2 ≠ EmptyString →
  Str.all (sep_class "-:>") sep3 = true → sep3 ≠ EmptyString →
  stops (in_set "ACGT") rest = true →
  parse_variant ((if chr_prefix then "chr" else EmptyString)
                 +:+ chrom +:+ sep1 +:+ pos +:+ sep2 +:+ ref +:+ sep3 +:+ alt +:+ rest)
  = inr (chrom, Str.int_digits pos, ref, alt).
Proof.
  intros Hchrom Hchrom_len Hpos Hpos_len Href Href_ne Halt Halt_ne
    Hsep1 Hsep1_ne Hsep2 Hsep2_ne Hsep3 Hsep3_ne Hrest.
  pose proof (length_pos _ Href_ne). pose proof (length_pos _ Halt_ne).
  pose proof (length_pos _ Hsep1_ne). pose proof (length_pos _ Hsep2_ne).
  pose proof (length_pos _ Hsep3_ne).
  assert (Hchrom_ne : chrom ≠ EmptyString) by (intros ->; simpl in *; lia).
  assert (Hpos_ne : pos ≠ EmptyString) by (intros ->; simpl in *; lia).
  set (g := <["alt" := alt]> (<["ref" := ref]> (<["pos" := pos]>
              (<["chrom" := chrom]> (∅ : gmap string string))))).
  assert (Hmatch : ∀ g0 : gmap string string,
    g0 = ∅ →
    Re.bt (Re.Cat (Re.Group (Some "chrom") (Re.Chars (in_set "0123456789XYMTt") 1 (Some 2%nat)))
          (Re.Cat (Re.Chars (sep_class "-:") 1 None)
          (Re.Cat (Re.Group (Some "pos") (Re.Chars Str.is_digit 1 (Some 9%nat)))
          (Re.Cat (Re.Chars (sep_class "-:") 1 None)
          (Re.Cat (Re.Group (Some "ref") (Re.Chars (in_set "ACGT") 1 None))
          (Re.Cat (Re.Chars (sep_class "-:>") 1 None)
                  (Re.Group (Some "alt") (Re.Chars (in_set "ACGT") 1 None))))))))
      (chrom +:+ sep1 +:+ pos +:+ sep2 +:+ ref +:+ sep3 +:+ alt +:+ rest) g0
      (λ _ g', Some g') = Some g).
  { intros g0 ->. cbn [Re.bt].
    apply rep_munch; [done|(split; cbn; (lia || done))|
      apply (stops_next (sep_class "-:")); [apart|done..]|].
    rewrite taken_append.
    apply rep_munch; [done|(split; cbn; (lia || done))|
      apply (stops_next Str.is_digit); [apart|done..]|].
    apply rep_munch; [done|(split; cbn; (lia || done))|
      apply (stops_next (sep_class "-:")); [apart|done..]|].
    rewrite taken_append.
    apply rep_munch; [done|(split; cbn; (lia || done))|
      apply (stops_next (in_set "ACGT")); [apart|done..]|].
    apply rep_munch; [done|(split; cbn; (lia || done))|
      apply (stops_next (sep_class "-:>")); [apart|done..]|].
    rewrite taken_append.
    apply rep_munch; [done|(split; cbn; (lia || done))|
      apply (stops_next (in_set "ACGT")); [apart|done..]|].
    apply rep_munch; [done|(split; cbn; (lia || done))|done|].
    rewrite taken_append. reflexivity. }
  assert (Hwhole : Re.match_ VARIANT_RE
            ((if chr_prefix then "chr" else EmptyString)
             +:+ chrom +:+ sep1 +:+ pos +:+ sep2 +:+ ref +:+ sep3 +:+ alt +:+ rest) = Some g).
  { unfold Re.match_, VARIANT_RE.
    specialize (Hmatch ∅ eq_refl).
    set (r := Re.Cat (Re.Group (Some "chrom") _) _) in *.
    cbn [Re.bt Re.bind_group].
    destruct chr_prefix.
    - change ("chr" +:+ ?t) with (String "c" (String "h" (String "r" t))).
      cbn [Str.strip_prefix]. rewrite !Ascii.eqb_refl.
      by rewrite Hmatch.
    - change (EmptyString +:+ ?t) with t.
      destruct chrom as [|c chrom']; [done|].
      cbn [Str.all] in Hchrom. apply andb_true_iff in Hchrom as [Hc Hchrom'].
      assert (Hnc : Ascii.eqb "c" c = false)
        by (destruct (classes_apart c) as (?&?&?&?&?&?&?); auto).
      change (String c chrom' +:+ ?t) with (String c (chrom' +:+ t)) in *.
      cbn [Str.strip_prefix]. rewrite Hnc.
      apply Hmatch. }
  unfold parse_variant. rewrite Hwhole. unfold group, g.
  by simplify_map_eq.
Qed.

Lemma parse_variant_round_trip_witness :
  parse_variant "chrX : 0012 - ACG>T/extra" = inr ("X", 12, "ACG", "T").
Proof.
  apply (parse_variant_round_trip true "X" "0012" "ACG" "T" " : " " - " ">" "/extra");
    try (vm_compute; reflexivity); try discriminate; simpl; lia.
Defined.

(** ** Round trips through the caches *)

Lemma redis_get_set (key : string) (v : blob) (r : redis_state) :
  redis_get key (redis_set key v r) = Some v.
Proof. unfold redis_get. by rewrite live_db_set, lookup_insert_eq. Qed.

Lemma redis_get_set_ne (key k : string) (v : blob) (r : redis_state) :
  key ≠ k → redis_get k (redis_set key v r) = redis_get k r.
Proof. intros H. unfold redis_get. by rewrite live_db_set, lookup_insert_ne. Qed.

Section CacheRoundTrip.
Variable E : Env.

(** X4: a result stored by [add_spliceai_to_redis] is read back by
    [get_spliceai_from_redis] for the same five parameters, with [:redis]
    appended to its source, when the server answers both commands. *)
Theorem spliceai_cache_round_trip (variant genome_version : string) (d m p : Z)
    (results : gmap string pyval) (source : string) (w : world) :
  redis_down E (redis_calls w) = false →
  redis_down E (S (redis_calls w)) = false →
  results !! "source" = Some (PStr source) →
  (get_spliceai_from_redis E variant genome_version d m p
     (add_spliceai_to_redis E variant genome_version d m p results w).2).1
  = inr (Some (JDict (<["source" := PStr (source +:+ ":redis")]> results))).
Proof.
  intros Hset Hget Hsource.
  unfold get_spliceai_from_redis, add_spliceai_to_redis, try_except, mbind, M_bind,
    REDIS_get, REDIS_set, redis_command.
  rewrite Hset. cbn [fst snd redis redis_calls]. rewrite Hget.
  rewrite redis_get_set. cbn [json_dumps blob_truthy json_loads mark_from_redis].
  by rewrite Hsource.
Qed.

(** X5: the cache block of [run_spliceai] on a key that holds a cached
    result, the server answering: the block returns the cached result with
    [:redis] appended to its source, leaves the Redis state as it was, and
    adds the [GET] of the key to the trace and nothing else; within the
    block [process_variant] is not run, so neither the rate limit of
    computed requests, nor a precomputed file, nor the model is reached. *)
Theorem lookup_or_process_cache_hit (request : Request) (variant genome_version : string)
    (d m p : Z) (cached : gmap string pyval) (source : string) (w : world) :
  let key := get_spliceai_redis_key variant genome_version d m p in
  redis_down E (redis_calls w) = false →
  redis_get key (redis w) = Some (Doc (JDict cached)) →
  cached !! "source" = Some (PStr source) →
  ∃ w', lookup_or_process E request variant genome_version d m p w
        = (inr (JDict (<["source" := PStr (source +:+ ":redis")]> cached)), w')
        ∧ redis w' = redis w
        ∧ trace w' = (trace w ++ [Redis_get key])%list.
Proof.
  intros key Hup Hget Hsource.
  unfold lookup_or_process, get_spliceai_from_redis, try_except, mbind, M_bind,
    REDIS_get, redis_command.
  fold key. rewrite Hup, Hget.
  cbn [blob_truthy json_loads mark_from_redis]. rewrite Hsource.
  cbn [mret M_ret from_option json_truthy].
  rewrite bool_decide_eq_false_2 by apply insert_non_empty.
  eexists. split; [reflexivity|]. by split.
Qed.

(** X6: a liftover result stored by [add_liftover_to_redis] is read back
    unchanged by [get_liftover_from_redis] for the same build pair and
    coordinates, when the server answers both commands. *)
Theorem liftover_cache_round_trip (hg : string) (chrom start end_ : pyval)
    (result : gmap string pyval) (w : world) :
  redis_down E (redis_calls w) = false →
  redis_down E (S (redis_calls w)) = false →
  (get_liftover_from_redis E hg chrom start end_
     (add_liftover_to_redis E hg chrom start end_ result w).2).1
  = inr (Some (JDict result)).
Proof.
  intros Hset Hget.
  unfold get_liftover_from_redis, add_liftover_to_redis, try_except, mbind, M_bind,
    REDIS_get, REDIS_set, redis_command.
  rewrite Hset. cbn [fst snd redis redis_calls]. rewrite Hget.
  by rewrite redis_get_set.
Qed.

End CacheRoundTrip.

Lemma spliceai_cache_round_trip_witness :
  (get_spliceai_from_redis Demo.env "chr8-140300615-C-G" "38" 50 0 1
     (add_spliceai_to_redis Demo.env "chr8-140300615-C-G" "38" 50 0 1
        {[ "variant" := PStr "chr8-140300615-C-G"; "source" := PStr "computed" ]}
        Demo.w0).2).1
  = inr (Some (JDict (<["source" := PStr "computed:redis"]>
                        {[ "variant" := PStr "chr8-140300615-C-G";
                           "source" := PStr "computed" ]}))).
Proof.
  apply (spliceai_cache_round_trip Demo.env "chr8-140300615-C-G" "38" 50 0 1
           {[ "variant" := PStr "chr8-140300615-C-G"; "source" := PStr "computed" ]}
           "computed" Demo.w0); vm_compute; reflexivity.
Defined.

Lemma lookup_or_process_cache_hit_witness :
  let key := get_spliceai_redis_key "chr8-140300615-C-G" "38" 50 0 1 in
  let cached : gmap string pyval := {[ "source" := PStr "lookup" ]} in
  let w := mkWorld (mkRedis {[ key := mkEntry (Doc (JDict cached)) None ]} 0) 0 0 [] in
  ∃ w', lookup_or_process Demo.env (Demo.score_request "50") "chr8-140300615-C-G" "38" 50 0 1 w
        = (inr (JDict (<["source" := PStr "lookup:redis"]> cached)), w')
        ∧ redis w' = redis w
        ∧ trace w' = (trace w ++ [Redis_get key])%list.
Proof.
  intros key cached w.
  apply (lookup_or_process_cache_hit Demo.env (Demo.score_request "50")
           "chr8-140300615-C-G" "38" 50 0 1 cached "lookup" w); vm_compute; reflexivity.
Defined.

Lemma liftover_cache_round_trip_witness :
  (get_liftover_from_redis Demo.env "hg19-to-hg38" (PStr "chr8") (PInt 1) (PInt 2)
     (add_liftover_to_redis Demo.env "hg19-to-hg38" (PStr "chr8") (PInt 1) (PInt 2)
        {[ "output_chrom" := PStr "chr8" ]} Demo.w0).2).1
  = inr (Some (JDict {[ "output_chrom" := PStr "chr8" ]})).
Proof.
  apply (liftover_cache_round_trip Demo.env "hg19-to-hg38" (PStr "chr8") (PInt 1) (PInt 2)
           {[ "output_chrom" := PStr "chr8" ]} Demo.w0); vm_compute; reflexivity.
Defined.


(** ** [str] of an integer *)

Lemma int_digits_from_append (a b : string) : ∀ acc,
  Str.int_digits_from acc (a +:+ b) = Str.int_digits_from (Str.int_digits_from acc a) b.
Proof. induction a as [|c a IH]; intros acc; simpl; [done|apply IH]. Qed.

Lemma pos_digits_acc (fuel : nat) : ∀ n acc,
  Str.pos_digits fuel n acc = Str.pos_digits fuel n EmptyString +:+ acc.
Proof.
  induction fuel as [|fuel IH]; intros n acc; simpl; [done|].
  destruct (n <? 10); [done|].
  rewrite IH, (IH _ (String _ EmptyString)). by rewrite append_assoc.
Qed.

Lemma digit_char_val (d : Z) :
  0 ≤ d < 10 → Str.digit_val (Str.digit_char d) = d ∧ Str.is_digit (Str.digit_char d) = true.
Proof.
  intros H.
  assert (d = 0 ∨ d = 1 ∨ d = 2 ∨ d = 3 ∨ d = 4 ∨ d = 5 ∨ d = 6 ∨ d = 7 ∨ d = 8 ∨ d = 9)
    as Hd by lia.
  repeat destruct Hd as [->|Hd]; try subst d; by vm_compute.
Qed.

Lemma pos_digits_value (fuel : nat) : ∀ n,
  0 ≤ n < 2 ^ Z.of_nat fuel →
  Str.int_digits (Str.pos_digits fuel n EmptyString) = n
  ∧ Str.all Str.is_digit (Str.pos_digits fuel n EmptyString) = true.
Proof.
  induction fuel as [|fuel IH]; intros n Hn.
  - change (2 ^ Z.of_nat 0) with 1 in Hn. split; [|done].
    change (Str.int_digits (Str.pos_digits 0 n EmptyString)) with 0. lia.
  - cbn [Str.pos_digits].
    pose proof (Z.mod_pos_bound n 10 ltac:(lia)) as Hmod.
    destruct (digit_char_val (n mod 10) Hmod) as [Hval Hdig].
    destruct (Z.ltb_spec n 10) as [Hlt|Hge].
    + unfold Str.int_digits. cbn [Str.int_digits_from Str.all].
      rewrite Hval, Hdig. rewrite Z.mod_small by lia. split; [lia|done].
    + rewrite pos_digits_acc.
      assert (0 ≤ n / 10 < 2 ^ Z.of_nat fuel) as Hdiv.
      { split; [apply Z.div_pos; lia|].
        rewrite Nat2Z.inj_succ, Z.pow_succ_r in Hn by lia.
        apply Z.div_lt_upper_bound; lia. }
      destruct (IH _ Hdiv) as [Hv Ha].
      unfold Str.int_digits in *. rewrite int_digits_from_append, Hv.
      rewrite all_append, Ha. cbn [Str.int_digits_from Str.all]. rewrite Hval, Hdig.
      split; [|done]. pose proof (Z.div_mod n 10 ltac:(lia)). lia.
Qed.

Lemma of_Z_nonneg (n : Z) :
  0 ≤ n → Str.int_digits (Str.of_Z n) = n ∧ Str.all Str.is_digit (Str.of_Z n) = true.
Proof.
  intros Hn. unfold Str.of_Z.
  destruct (Z.ltb_spec n 0) as [|_]; [lia|].
  apply pos_digits_value. split; [done|].
  rewrite Nat2Z.inj_succ, Z2Nat.id by apply Z.log2_nonneg.
  destruct (Z.eq_dec n 0) as [->|Hne]; [done|].
  apply Z.log2_spec. lia.
Qed.

Lemma of_Z_neg (n : Z) : n < 0 → Str.of_Z n = String "-" (Str.of_Z (- n)).
Proof.
  intros Hn. unfold Str.of_Z.
  destruct (Z.ltb_spec n 0) as [_|]; [|lia].
  destruct (Z.ltb_spec (- n) 0) as [|_]; [lia|]. done.
Qed.

Lemma of_Z_inj (a b : Z) : Str.of_Z a = Str.of_Z b → a = b.
Proof.
  assert (Hmixed : ∀ x y, x < 0 → 0 ≤ y → Str.of_Z x ≠ Str.of_Z y).
  { intros x y Hx Hy Heq. rewrite (of_Z_neg x Hx) in Heq.
    destruct (of_Z_nonneg y Hy) as [_ Hall]. rewrite <- Heq in Hall. done. }
  intros Heq.
  destruct (Z.lt_ge_cases a 0) as [Ha|Ha], (Z.lt_ge_cases b 0) as [Hb|Hb].
  - rewrite (of_Z_neg a Ha), (of_Z_neg b Hb) in Heq. injection Heq as Heq.
    destruct (of_Z_nonneg (- a) ltac:(lia)) as [Hva _].
    destruct (of_Z_nonneg (- b) ltac:(lia)) as [Hvb _].
    rewrite Heq in Hva. lia.
  - by destruct (Hmixed a b Ha Hb).
  - by destruct (Hmixed b a Hb Ha).
  - destruct (of_Z_nonneg a Ha) as [Hva _]. destruct (of_Z_nonneg b Hb) as [Hvb _].
    rewrite Heq in Hva. lia.
Qed.

(** The guard compares the decimal renderings of the distance and of the
    flag; on integers this is the comparison of the numbers. *)
Lemma precomputed_guard_spec (ref alt : string) (d p : Z) :
  precomputed_guard ref alt d p = true
  ↔ (String.length ref ≤ 5 ∨ String.length alt ≤ 2)%nat
    ∧ d = SPLICEAI_DEFAULT_DISTANCE ∧ p = 1.
Proof.
  unfold precomputed_guard.
  rewrite !andb_true_iff, orb_true_iff, !Nat.leb_le, !String.eqb_eq.
  change "1" with (Str.of_Z 1).
  split.
  - intros [[Hlen Hd] Hp]. by rewrite (of_Z_inj _ _ Hd), (of_Z_inj _ _ Hp).
  - by intros (Hlen & -> & ->).
Qed.

Section Precomputed.
Variable E : Env.

(** X7: the precomputed files are consulted only for the default distance
    with the precomputed flag set: for any other distance, or with the flag
    not 1, [process_variant] fetches from no file. *)
Theorem process_variant_skips_precomputed (request : Request)
    (variant genome_version : string) (d m p : Z) :
  d ≠ SPLICEAI_DEFAULT_DISTANCE ∨ p ≠ 1 →
  quiet is_tabix (process_variant E request variant genome_version d m p).
Proof.
  intros Hskip. unfold process_variant.
  destruct (parse_variant variant) as [e|[[[chrom pos] ref] alt]]; [apply quiet_ret|].
  assert (precomputed_guard ref alt d p = false) as ->.
  { apply not_true_is_false. rewrite precomputed_guard_spec. intros (_ & ? & ?).
    destruct Hskip; done. }
  repeat first
    [ quiet_step
    | apply quiet_exceeds_rate_limit; reflexivity
    | case_match ].
Qed.

End Precomputed.

Lemma process_variant_skips_precomputed_witness :
  quiet is_tabix (process_variant Demo.env (Demo.get "1.2.3.4" []) "1-739023-C-CT" "38" 51 0 1).
Proof.
  apply (process_variant_skips_precomputed Demo.env (Demo.get "1.2.3.4" [])
           "1-739023-C-CT" "38" 51 0 1).
  left. vm_compute. discriminate.
Defined.

(** ** The loop over the lines of a precomputed file *)

Lemma line_matches_true (chrom : string) (pos : Z) (ref alt : string)
    (fields : list string) :
  line_matches chrom pos ref alt fields = inr true
  ↔ fields !! 0%nat = Some chrom
    ∧ (∃ f1, fields !! 1%nat = Some f1 ∧ py_int f1 = Some pos)
    ∧ fields !! 3%nat = Some ref
    ∧ fields !! 4%nat = Some alt.
Proof.
  unfold line_matches. split.
  - destruct (fields !! 0%nat) as [f0|]; [|done].
    destruct (String.eqb_spec f0 chrom) as [->|]; [|done]. cbn [negb].
    destruct (fields !! 1%nat) as [f1|]; [|done].
    destruct (py_int f1) as [n|] eqn:Hint; [|done].
    destruct (Z.eqb_spec n pos) as [->|]; [|done]. cbn [negb].
    destruct (fields !! 3%nat) as [f3|]; [|done].
    destruct (String.eqb_spec f3 ref) as [->|]; [|done]. cbn [negb].
    destruct (fields !! 4%nat) as [f4|]; [|done].
    destruct (String.eqb_spec f4 alt) as [->|]; [|done].
    intros _. eauto 6.
  - intros (-> & (f1 & -> & ->) & -> & ->).
    by rewrite !String.eqb_refl, Z.eqb_refl.
Qed.

(** X8: the scores collected from the lines of a precomputed file are the
    eighth fields of lines that name the chromosome, position, reference
    and alternate allele of the variant, whether or not the loop is cut
    short by an exception; and when it is not, every such line has
    contributed its score. *)
Theorem collect_scores_matching (chrom : string) (pos : Z) (ref alt : string)
    (results scores0 : list string) :
  ∃ found,
    (collect_scores chrom pos ref alt results scores0).1 = (scores0 ++ found)%list
    ∧ (∀ score, score ∈ found →
         ∃ line, line ∈ results ∧ matching_line chrom pos ref alt line score)
    ∧ ((collect_scores chrom pos ref alt results scores0).2 = None →
       ∀ line score, line ∈ results → matching_line chrom pos ref alt line score →
         score ∈ found).
Proof.
  revert scores0. induction results as [|line rest IH]; intros scores0.
  - exists []. cbn [collect_scores fst snd]. rewrite app_nil_r.
    split; [done|]. split; [by intros ? ?%elem_of_nil|]. by intros _ ? ? ?%elem_of_nil.
  - cbn [collect_scores].
    destruct (line_matches chrom pos ref alt (Str.split tab line)) as [e|[]] eqn:Hline.
    + exists []. cbn [fst snd]. rewrite app_nil_r.
      split; [done|]. split; [by intros ? ?%elem_of_nil|done].
    + apply line_matches_true in Hline as Hfields.
      destruct (Str.split tab line !! 7%nat) as [f7|] eqn:H7.
      * destruct (IH (scores0 ++ [f7])%list) as (found & Heq & Hsound & Hcomplete).
        exists (f7 :: found). rewrite Heq, <- app_assoc. split; [done|]. split.
        -- intros score [->|Hin]%elem_of_cons.
           ++ exists line. split; [apply list_elem_of_here|].
              unfold matching_line. cbv zeta. by destruct Hfields as (? & ? & ? & ?).
           ++ destruct (Hsound score Hin) as (l & Hl & Hm).
              exists l. split; [by apply list_elem_of_further|done].
        -- intros Hnone l score [->|Hin]%elem_of_cons Hm.
           ++ destruct Hm as (_ & _ & _ & _ & H7'). rewrite H7 in H7'.
              injection H7' as <-. apply list_elem_of_here.
           ++ apply list_elem_of_further. by apply (Hcomplete Hnone l).
      * exists []. cbn [fst snd]. rewrite app_nil_r.
        split; [done|]. split; [by intros ? ?%elem_of_nil|done].
    + destruct (IH scores0) as (found & Heq & Hsound & Hcomplete).
      exists found. split; [done|]. split.
      * intros score Hin. destruct (Hsound score Hin) as (l & Hl & Hm).
        exists l. split; [by apply list_elem_of_further|done].
      * intros Hnone l score [->|Hin]%elem_of_cons Hm; [|by apply (Hcomplete Hnone l)].
        destruct Hm as (H0 & H1 & H3 & H4 & _).
        assert (line_matches chrom pos ref alt (Str.split tab line) = inr true) as Hyes
          by by apply line_matches_true.
        congruence.
Qed.

(** ** The annotation index *)

Lemma round_magnitude_lower (A : Z) : 0 < A → 2 ^ Z.log2 A ≤ round_magnitude A.
Proof.
  intros HA. unfold round_magnitude. cbv zeta.
  pose proof (Z.log2_spec A HA) as [Hlo _].
  destruct (Z.leb_spec (Z.log2 A - 52) 0) as [|Hs]; [done|].
  set (s := Z.log2 A - 52) in *.
  assert (0 < 2 ^ s) as Hpow by (apply Z.pow_pos_nonneg; lia).
  assert (2 ^ Z.log2 A = 2 ^ 52 * 2 ^ s) as Hsplit.
  { rewrite <- Z.pow_add_r by lia. f_equal. lia. }
  assert (2 ^ 52 ≤ A / 2 ^ s) as Hq.
  { apply Z.div_le_lower_bound; [done|]. lia. }
  rewrite Hsplit. apply Z.mul_le_mono_nonneg_r; [lia|].
  set (q := A / 2 ^ s) in *. clearbody q. case_match; lia.
Qed.

Lemma round_magnitude_nonneg (A : Z) : 0 ≤ A → 0 ≤ round_magnitude A.
Proof.
  intros HA. destruct (decide (A = 0)) as [->|]; [done|].
  etrans; [|apply round_magnitude_lower; lia].
  apply Z.pow_nonneg. lia.
Qed.

Lemma round_magnitude_near (A : Z) :
  0 ≤ A < 2 ^ 105 → A - 2 ^ 51 ≤ round_magnitude A ≤ A + 2 ^ 51.
Proof.
  intros [HA Hlt]. unfold round_magnitude. cbv zeta.
  destruct (Z.leb_spec (Z.log2 A - 52) 0) as [|Hs]; [lia|].
  assert (Z.log2 A < 105) as Hlog.
  { destruct (decide (A = 0)) as [->|]; [done|]. apply Z.log2_lt_pow2; lia. }
  set (s := Z.log2 A - 52) in *.
  assert (0 < 2 ^ (s - 1)) as Hhalf by (apply Z.pow_pos_nonneg; lia).
  assert (2 ^ s = 2 * 2 ^ (s - 1)) as Hpow.
  { rewrite <- Z.pow_succ_r by lia. f_equal. lia. }
  assert (2 ^ (s - 1) ≤ 2 ^ 51) as Hbound by (apply Z.pow_le_mono_r; lia).
  pose proof (Z.div_mod A (2 ^ s) ltac:(lia)) as Hdiv.
  pose proof (Z.mod_pos_bound A (2 ^ s) ltac:(lia)) as Hmod.
  set (q := A / 2 ^ s) in *. set (r := A mod 2 ^ s) in *. clearbody q r.
  destruct (Z.ltb_spec (2 ^ (s - 1)) r); cbn [orb].
  - lia.
  - destruct (Z.eqb_spec r (2 ^ (s - 1))); cbn [andb]; [destruct (Z.odd q)|]; lia.
Qed.

Lemma round_magnitude_exact (k : Z) :
  0 < k < 2 ^ 50 → round_magnitude (k * 2 ^ 55) = k * 2 ^ 55.
Proof.
  intros [Hk Hlt]. unfold round_magnitude. cbv zeta.
  rewrite Z.log2_mul_pow2 by lia.
  assert (0 ≤ Z.log2 k < 50) as Hlog.
  { split; [apply Z.log2_nonneg|]. apply Z.log2_lt_pow2; lia. }
  replace (55 + Z.log2 k - 52) with (Z.log2 k + 3) by lia.
  destruct (Z.leb_spec (Z.log2 k + 3) 0) as [|Hs]; [lia|].
  set (s := Z.log2 k + 3) in *.
  assert (0 < 2 ^ s) as Hpow by (apply Z.pow_pos_nonneg; lia).
  assert (0 < 2 ^ (s - 1)) as Hhalf by (apply Z.pow_pos_nonneg; lia).
  assert (k * 2 ^ 55 = k * 2 ^ (55 - s) * 2 ^ s) as ->.
  { rewrite <- Z.mul_assoc, <- Z.pow_add_r by lia. do 2 f_equal. lia. }
  rewrite Z.div_mul, Z.mod_mul by lia.
  destruct (Z.ltb_spec (2 ^ (s - 1)) 0); [lia|].
  destruct (Z.eqb_spec 0 (2 ^ (s - 1))); [lia|]. done.
Qed.

(** Below [2^50] the float [TX_END + 0.1] lies strictly between [TX_END]
    and [TX_END + 1]; from [2^50] on it is at least [2^50]. *)
Lemma plus_tenth_above (n pos : Z) :
  0 ≤ pos < 2 ^ 50 →
  (inject_Z pos < plus_tenth n)%Q ↔ pos ≤ n.
Proof.
  intros [Hpos Hlt]. unfold plus_tenth, Qlt, inject_Z. cbn [Qnum Qden].
  rewrite Z.mul_1_r. change (Z.pos (2 ^ 55)) with (2 ^ 55).
  assert (2 ^ 51 < tenth ∧ tenth + 2 ^ 51 < 2 ^ 55) as [Hlo Hhi] by done.
  destruct (Z.lt_trichotomy n 0) as [Hneg|[->|Hn]].
  - (* a negative end: the sum is not above zero *)
    split; [|lia]. intros Habove. exfalso.
    unfold round_binary64 at 2 in Habove.
    rewrite Z.sgn_neg, Z.abs_neq in Habove by lia.
    pose proof (round_magnitude_lower (- (n * 2 ^ 55)) ltac:(lia)) as Hlow.
    assert (2 ^ 55 ≤ 2 ^ Z.log2 (- (n * 2 ^ 55))) as Hbig.
    { apply Z.pow_le_mono_r; [lia|]. apply Z.log2_le_pow2; lia. }
    set (R := round_magnitude (- (n * 2 ^ 55))) in *.
    unfold round_binary64 in Habove.
    rewrite Z.sgn_neg, Z.abs_neq in Habove by lia.
    pose proof (round_magnitude_nonneg (- (-1 * R + tenth)) ltac:(lia)). lia.
  - change (round_binary64 (0 * 2 ^ 55)) with 0. rewrite Z.add_0_l.
    unfold round_binary64. rewrite Z.sgn_pos, Z.abs_eq by done.
    pose proof (round_magnitude_near tenth ltac:(done)). lia.
  - destruct (Z.lt_ge_cases n (2 ^ 50)) as [Hsmall|Hlarge].
    + unfold round_binary64 at 2.
      rewrite Z.sgn_pos, Z.abs_eq, round_magnitude_exact by lia.
      unfold round_binary64. rewrite Z.sgn_pos, Z.abs_eq by lia.
      pose proof (round_magnitude_near (1 * (n * 2 ^ 55) + tenth) ltac:(lia)). lia.
    + split; [lia|intros _].
      unfold round_binary64 at 2. rewrite Z.sgn_pos, Z.abs_eq by lia.
      pose proof (round_magnitude_lower (n * 2 ^ 55) ltac:(lia)) as Hlow.
      assert (2 ^ 105 ≤ 2 ^ Z.log2 (n * 2 ^ 55)) as Hbig.
      { apply Z.pow_le_mono_r; [lia|]. apply Z.log2_le_pow2; lia. }
      set (R := round_magnitude (n * 2 ^ 55)) in *.
      unfold round_binary64. rewrite Z.sgn_pos, Z.abs_eq by lia.
      pose proof (round_magnitude_lower (1 * R + tenth) ltac:(lia)) as Hlow'.
      assert (2 ^ 105 ≤ 2 ^ Z.log2 (1 * R + tenth)) as Hbig'.
      { apply Z.pow_le_mono_r; [lia|]. apply Z.log2_le_pow2; lia. }
      lia.
Qed.

Lemma contains_point_row (row : annotation_row) (pos : Z) :
  0 ≤ pos < 2 ^ 50 →
  contains_point pos
    (mkInterval (inject_Z (row_TX_START row)) (plus_tenth (row_TX_END row)) (row_NAME row))
  = true
  ↔ row_TX_START row ≤ pos ≤ row_TX_END row.
Proof.
  intros Hpos. unfold contains_point. cbn [i_begin i_end].
  rewrite andb_true_iff, negb_true_iff, Qle_bool_iff, <- not_true_iff_false, Qle_bool_iff.
  rewrite <- Zle_Qle.
  split; intros [Hstart Hend]; (split; [done|]).
  - apply (plus_tenth_above _ _ Hpos). by apply Qnot_le_lt.
  - apply Qlt_not_le. by apply plus_tenth_above.
Qed.

(** The tree of a chromosome after loading a table: the intervals it had,
    then those of the rows of the chromosome in the order of the table. *)
Lemma load_annotations_tree (table : list annotation_row) (chrom : string) :
  ∀ trees,
  tree_of (load_annotations table trees) chrom
  = (tree_of trees chrom
     ++ ((λ row, mkInterval (inject_Z (row_TX_START row))
                   (plus_tenth (row_TX_END row)) (row_NAME row))
         <$> List.filter (λ row, String.eqb (Str.replace "chr" "" (row_CHROM row)) chrom)
               table))%list.
Proof.
  induction table as [|row rest IH]; intros trees.
  - simpl. by rewrite app_nil_r.
  - cbn [load_annotations List.filter]. rewrite IH. unfold tree_of at 1.
    destruct (String.eqb_spec (Str.replace "chr" "" (row_CHROM row)) chrom) as [->|Hne].
    + rewrite lookup_insert_eq. cbn [from_option default]. rewrite fmap_cons.
      unfold tree_of. change (id ?x) with x. by rewrite <- app_assoc.
    + rewrite lookup_insert_ne by done. done.
Qed.

Lemma at_load_annotations (table : list annotation_row) (chrom : string) (pos : Z) :
  0 ≤ pos < 2 ^ 50 →
  at_ (tree_of (load_annotations table ∅) (Str.replace "chr" "" chrom)) pos ≠ []
  ↔ ∃ row, row ∈ table ∧ covers chrom pos row.
Proof.
  intros Hpos.
  rewrite load_annotations_tree. unfold tree_of at 1. rewrite lookup_empty.
  cbn [from_option default app]. unfold at_, covers.
  induction table as [|row rest IH].
  - simpl. split; [done|]. by intros (? & ?%elem_of_nil & _).
  - cbn [List.filter].
    destruct (String.eqb_spec (Str.replace "chr" "" (row_CHROM row))
                (Str.replace "chr" "" chrom)) as [Heq|Hne].
    + rewrite fmap_cons. cbn [List.filter].
      destruct (contains_point pos _) eqn:Hcp.
      * split; [intros _|done]. exists row. split; [apply list_elem_of_here|].
        split; [done|]. by apply contains_point_row.
      * rewrite IH. split.
        -- intros (r & Hin & Hc). exists r. split; [by apply list_elem_of_further|done].
        -- intros (r & [->|Hin]%elem_of_cons & Hc); [|by eauto].
           destruct Hc as [_ Hc]. apply (contains_point_row _ _ Hpos) in Hc. congruence.
    + rewrite IH. split.
      * intros (r & Hin & Hc). exists r. split; [by apply list_elem_of_further|done].
      * intros (r & [->|Hin]%elem_of_cons & Hc); [|by eauto].
        by destruct Hc as [? _].
Qed.

Section Coverage.
Variable E : Env.

(** X9: a position from 0 to below [2^50] is covered in a build exactly
    when a row of the annotation table of the build, on the same chromosome
    up to a [chr] prefix, has [TX_START <= pos <= TX_END]: both ends of a
    transcript are inside.  The end of an interval is the float
    [TX_END + 0.1]; the bound keeps the position among the integers around
    which the floats are less than [0.1] apart. *)
Theorem covering_rows (chrom : string) (pos : Z) :
  0 ≤ pos < 2 ^ 50 →
  (covering E "37" chrom pos ≠ [] ↔ ∃ row, row ∈ GRCH37_table E ∧ covers chrom pos row)
  ∧ (covering E "38" chrom pos ≠ [] ↔ ∃ row, row ∈ GRCH38_table E ∧ covers chrom pos row).
Proof.
  intros Hpos. unfold covering.
  rewrite annotation_trees_37, annotation_trees_38. cbn [from_option default].
  split; by apply at_load_annotations.
Qed.

End Coverage.

Lemma covering_rows_witness :
  0 ≤ 141000000 < 2 ^ 50
  ∧ covering Demo.env "38" "8" 141000000 ≠ []
  ∧ covering Demo.env "38" "8" 141000001 = [].
Proof.
  split; [split; [lia|reflexivity]|]. split.
  - apply (covering_rows Demo.env "8" 141000000); [split; [lia|reflexivity]|].
    exists (mkRow "TRAPPC9---ENST0003" "chr8" 139000000 141000000).
    split; [apply list_elem_of_further, list_elem_of_here|].
    split; [reflexivity|]. cbn [row_TX_START row_TX_END]. lia.
  - vm_compute. reflexivity.
Defined.

(** ** Answers from the precomputed files *)

Section PrecomputedHit.
Variable E : Env.

Lemma covering_build (genome_version chrom : string) (pos : Z) :
  covering E genome_version chrom pos ≠ [] →
  ∃ trees, ANNOTATION_INTERVAL_TREES E !! genome_version = Some trees
           ∧ covering E genome_version chrom pos
             = at_ (tree_of trees (Str.replace "chr" "" chrom)) pos.
Proof.
  unfold covering. destruct (ANNOTATION_INTERVAL_TREES E !! genome_version) as [trees|].
  - intros _. by exists trees.
  - intros H. by destruct H.
Qed.

(** X10: a variant that the precomputed file of its kind lists is answered
    from the file: the result carries the scores of the matching lines,
    their alleles dropped, with the source [lookup]; the fetch is the only
    event, so the rate limit of computed requests is not charged and the
    model is not called. *)
Theorem process_variant_precomputed_hit (request : Request)
    (variant genome_version : string) (m : Z)
    (chrom : string) (pos : Z) (ref alt : string)
    (file : TabixFile) (lines raw scores : list string) (w : world) :
  let key := precomputed_key genome_version m ref alt in
  parse_variant variant = inr (chrom, pos, ref, alt) →
  (String.length ref ≤ 1 ∨ String.length alt ≤ 1)%nat →
  covering E genome_version chrom pos ≠ [] →
  SPLICEAI_CACHE_FILES E !! key = Some file →
  file chrom (pos - 1) (pos + 1) = (lines, None) →
  collect_scores chrom pos ref alt lines [] = (raw, None) →
  raw ≠ [] →
  drop_alleles raw = inr scores →
  process_variant E request variant genome_version SPLICEAI_DEFAULT_DISTANCE m 1 w
  = (inr (success_result variant genome_version chrom pos ref alt scores (PStr "lookup")),
     mkWorld (redis w) (redis_calls w) (clock_reads w)
       (trace w ++ [Tabix_fetch key chrom (pos - 1) (pos + 1)])%list).
Proof.
  intros key Hparse Hsimple Hcovered Hfile Hfetch Hcollect Hraw Hdrop.
  unfold process_variant. rewrite Hparse.
  replace ((1 <? String.length ref)%nat && (1 <? String.length alt)%nat) with false.
  2:{ symmetry. apply andb_false_iff.
      destruct Hsimple; [left|right]; apply Nat.ltb_ge; lia. }
  destruct (covering_build _ _ _ Hcovered) as (trees & -> & Heq).
  rewrite Heq in Hcovered.
  destruct (at_ (tree_of trees (Str.replace "chr" "" chrom)) pos) as [|i covered]; [done|].
  assert (precomputed_guard ref alt SPLICEAI_DEFAULT_DISTANCE 1 = true) as ->.
  { apply precomputed_guard_spec. split; [|done]. destruct Hsimple; [left|right]; lia. }
  subst key. cbv zeta.
  lazymatch goal with
  | |- context [@lookup ?K ?A ?M ?I (precomputed_key genome_version m ref alt) ?files] =>
      replace (@lookup K A M I (precomputed_key genome_version m ref alt) files)
        with (Some file) by (symmetry; exact Hfile)
  end.
  unfold mbind, M_bind, emit, mret, M_ret. cbn [redis redis_calls clock_reads trace].
  rewrite Hfetch, Hcollect.
  destruct raw as [|r raw]; [done|]. by rewrite Hdrop.
Qed.

End PrecomputedHit.

Lemma process_variant_precomputed_hit_witness :
  process_variant Demo.env (Demo.get "1.2.3.4" []) "1-739023-C-CT" "38" 50 0 1 Demo.w0
  = (inr (success_result "1-739023-C-CT" "38" "1" 739023 "C" "CT"
            ["AL669831.1|0.00|0.00|0.00|0.00|-1|-37|-48|-37"] (PStr "lookup")),
     mkWorld (redis Demo.w0) 0 0
       [Tabix_fetch (Some "raw", "indel", Some "hg38") "1" 739022 739024]).
Proof.
  apply (process_variant_precomputed_hit Demo.env (Demo.get "1.2.3.4" [])
           "1-739023-C-CT" "38" 0 "1" 739023 "C" "CT" Demo.indel_file
           [Demo.precomputed_line]
           ["SpliceAI=CT|AL669831.1|0.00|0.00|0.00|0.00|-1|-37|-48|-37"]
           ["AL669831.1|0.00|0.00|0.00|0.00|-1|-37|-48|-37"] Demo.w0).
  - vm_compute. reflexivity.
  - left. simpl. lia.
  - vm_compute. discriminate.
  - vm_compute. reflexivity.
  - vm_compute. reflexivity.
  - vm_compute. reflexivity.
  - discriminate.
  - vm_compute. reflexivity.
Defined.

(** ** Requests beyond the rate limit *)

Section RateLimited.
Variable E : Env.

Lemma exceeds_rate_limit_denies (user_id request_type : string) (ceiling : Z) (w : world) :
  RATE_LIMIT_REQUESTS_PER_USER_PER_MINUTE !! request_type = Some ceiling →
  redis_down E (redis_calls w) = false →
  ceiling ≤ Z.of_nat (length (live_markers user_id request_type (redis w))) →
  exceeds_rate_limit E user_id request_type w
  = (inr true,
     mkWorld (redis w) (S (redis_calls w)) (S (clock_reads w))
       (trace w ++ [Redis_keys (rate_limit_key_prefix user_id request_type +:+ "*")])%list).
Proof.
  intros Hclass Hup Hfull. unfold exceeds_rate_limit. rewrite Hclass.
  unfold mbind, M_bind, time_now, try_except, REDIS_keys, redis_command, mret, M_ret.
  cbn [redis redis_calls clock_reads trace]. rewrite Hup.
  fold (live_markers user_id request_type (redis w)). rewrite Z.mul_1_l.
  destruct (Z.leb_spec ceiling (Z.of_nat (length (live_markers user_id request_type (redis w)))));
    [reflexivity|lia].
Qed.



(** X13: a variant that has to be computed (here because the distance is
    not the default one or the precomputed flag is not set) for a client
    that has four live markers of the class [SpliceAI: computed] gets the
    rate-limit error as its result, and the model is not called. *)
Theorem process_variant_rate_limited (request : Request)
    (variant genome_version : string) (d m p : Z)
    (chrom : string) (pos : Z) (ref alt : string) (w : world) :
  parse_variant variant = inr (chrom, pos, ref, alt) →
  (String.length ref ≤ 1 ∨ String.length alt ≤ 1)%nat →
  covering E genome_version chrom pos ≠ [] →
  d ≠ SPLICEAI_DEFAULT_DISTANCE ∨ p ≠ 1 →
  redis_down E (redis_calls w) = false →
  4 ≤ Z.of_nat (length (live_markers (remote_addr request) "SpliceAI: computed" (redis w))) →
  process_variant E request variant genome_version d m p w
  = (inr (error_result variant (rate_limit_message "SpliceAI: computed" "computed requests")),
     mkWorld (redis w) (S (redis_calls w)) (S (clock_reads w))
       (trace w ++ [Redis_keys (rate_limit_key_prefix (remote_addr request)
                                  "SpliceAI: computed" +:+ "*")])%list).
Proof.
  intros Hparse Hsimple Hcovered Hskip Hup Hfull.
  unfold process_variant. rewrite Hparse.
  replace ((1 <? String.length ref)%nat && (1 <? String.length alt)%nat) with false.
  2:{ symmetry. apply andb_false_iff.
      destruct Hsimple; [left|right]; apply Nat.ltb_ge; lia. }
  destruct (covering_build _ _ _ _ Hcovered) as (trees & -> & Heq).
  rewrite Heq in Hcovered.
  destruct (at_ (tree_of trees (Str.replace "chr" "" chrom)) pos) as [|i covered]; [done|].
  assert (precomputed_guard ref alt d p = false) as ->.
  { apply not_true_is_false. rewrite precomputed_guard_spec. intros (_ & ? & ?).
    destruct Hskip; done. }
  unfold mbind, M_bind. cbn [mret M_ret].
  by rewrite (exceeds_rate_limit_denies _ _ 4).
Qed.

(** X14: when the [GET] of the cache fails, the request is processed as if
    the cache were empty: the block answers with the result of
    [process_variant], run after the failed command, whether or not that
    result can then be stored. *)
Theorem lookup_or_process_cache_down (request : Request)
    (variant genome_version : string) (d m p : Z) (w : world) :
  redis_down E (redis_calls w) = true →
  let w1 := mkWorld (redis w) (S (redis_calls w)) (clock_reads w)
              (trace w ++ [Redis_get (get_spliceai_redis_key variant genome_version d m p)])%list in
  (lookup_or_process E request variant genome_version d m p w).1
  = match (process_variant E request variant genome_version d m p w1).1 with
    | inr results => inr (JDict results)
    | inl e => inl e
    end.
Proof.
  intros Hdown w1.
  unfold lookup_or_process, mbind, M_bind.
  unfold get_spliceai_from_redis, try_except, mbind, M_bind, REDIS_get, redis_command.
  rewrite Hdown. cbn [mret M_ret from_option]. fold w1.
  destruct (process_variant E request variant genome_version d m p w1) as [[e|results] w2];
    [done|].
  cbn [fst]. destruct (results !! "error"); [done|].
  destruct (add_spliceai_to_redis_stores E variant genome_version d m p results w2) as [Ha _].
  destruct (add_spliceai_to_redis E variant genome_version d m p results w2) as [r w3].
  simpl in Ha. by subst r.
Qed.

End RateLimited.



Lemma process_variant_rate_limited_witness :
  (process_variant Demo.env (Demo.score_request "51") "chr8-140300615-C-G" "38" 51 0 1
     (Demo.flooded "SpliceAI: computed" 4)).1
  = inr (error_result "chr8-140300615-C-G"
           (rate_limit_message "SpliceAI: computed" "computed requests")).
Proof.
  etrans; [apply (f_equal fst);
           apply (process_variant_rate_limited Demo.env (Demo.score_request "51")
                    "chr8-140300615-C-G" "38" 51 0 1 "8" 140300615 "C" "G")
          |reflexivity].
  - vm_compute. reflexivity.
  - left. simpl. lia.
  - vm_compute. discriminate.
  - left. vm_compute. discriminate.
  - vm_compute. reflexivity.
  - vm_compute. discriminate.
Defined.

Lemma lookup_or_process_cache_down_witness :
  (lookup_or_process Demo.env_down (Demo.score_request "50") "chr8-140300615-C-G" "38" 50 0 1
     Demo.w0).1
  = match (process_variant Demo.env_down (Demo.score_request "50") "chr8-140300615-C-G" "38"
             50 0 1
             (mkWorld (redis Demo.w0) 1 0
                [Redis_get (get_spliceai_redis_key "chr8-140300615-C-G" "38" 50 0 1)])).1 with
    | inr results => inr (JDict results)
    | inl e => inl e
    end.
Proof.
  apply (lookup_or_process_cache_down Demo.env_down (Demo.score_request "50")
           "chr8-140300615-C-G" "38" 50 0 1 Demo.w0).
  vm_compute. reflexivity.
Defined.


(** ** The liftover cache *)

Lemma errors_uncached_quiet (m : M Response) :
  quiet is_cache_store m → errors_uncached m.
Proof.
  intros Hq w. specialize (Hq w). destruct (m w) as [[e|r] w1]; [done|].
  intros _. exact Hq.
Qed.

Lemma errors_uncached_ok (m : M Response) :
  returns (λ r, status r = 200) m → errors_uncached m.
Proof.
  intros Hr w. specialize (Hr w). destruct (m w) as [[e|r] w1]; [done|].
  simpl in *. intros H400. congruence.
Qed.

Lemma finish_liftover_ok (params : gmap string pyval) (format : string) (pos : option Z)
    (result : gmap string pyval) :
  returns (λ r, status r = 200) (finish_liftover params format pos result).
Proof.
  unfold finish_liftover. apply returns_bind; intros r1. apply returns_bind; intros r2.
  by apply returns_ret.
Qed.

Lemma quiet_finish_liftover (f : event → bool) (params : gmap string pyval) (format : string)
    (pos : option Z) (result : gmap string pyval) :
  quiet f (finish_liftover params format pos result).
Proof. unfold finish_liftover, item. repeat (quiet_step || case_match). Qed.

Section LiftoverCache.
Variable E : Env.

Lemma quiet_get_liftover_from_redis (hg : string) (chrom start end_ : pyval) :
  quiet is_cache_store (get_liftover_from_redis E hg chrom start end_).
Proof.
  unfold get_liftover_from_redis, REDIS_get.
  repeat (quiet_step || case_match).
Qed.

Lemma quiet_run_UCSC_liftover_tool (hg : string) (chrom start end_ : pyval) :
  quiet is_cache_store (run_UCSC_liftover_tool E hg chrom start end_).
Proof.
  unfold run_UCSC_liftover_tool.
  repeat (quiet_step || case_match).
Qed.

(** X15: a liftover request that is answered with an error (status 400)
    has stored nothing in the cache: a result is stored only after the
    liftOver tool succeeded, and what follows a store answers 200 or
    raises. *)
Theorem run_liftover_errors_uncached (request : Request) :
  errors_uncached (run_liftover E request).
Proof.
  unfold run_liftover.
  apply errors_uncached_bind; [by apply quiet_exceeds_rate_limit|intros limited].
  repeat first
    [ apply errors_uncached_ret
    | apply errors_uncached_raise
    | apply errors_uncached_quiet; apply quiet_finish_liftover
    | apply errors_uncached_ok; apply returns_bind; intros ?; apply finish_liftover_ok
    | apply errors_uncached_bind;
      [ first [ apply quiet_get_liftover_from_redis
              | apply quiet_try;
                [apply quiet_bind; [apply quiet_run_UCSC_liftover_tool|intros ?; apply quiet_ret]
                |intros ?; apply quiet_ret]
              | solve [repeat (quiet_step || case_match)] ]
      | intros ? ]
    | case_match ].
Qed.

End LiftoverCache.

(** ** Counting the markers *)

Lemma strip_prefix_append (w s : string) : Str.strip_prefix w (w +:+ s) = Some s.
Proof.
  induction w as [|a w IH]; [by destruct s|].
  change (String a w +:+ s) with (String a (w +:+ s)). cbn [Str.strip_prefix].
  by rewrite Ascii.eqb_refl.
Qed.

Lemma filter_length_Permutation {A : Type} (f : A → bool) (l l' : list A) :
  l ≡ₚ l' → length (List.filter f l) = length (List.filter f l').
Proof.
  induction 1 as [|x l l' _ IH|x y l|l l' l'' _ IH1 _ IH2]; simpl.
  - done.
  - destruct (f x); simpl; by rewrite IH.
  - by destruct (f x), (f y).
  - by rewrite IH1.
Qed.

Lemma live_db_expire_set (key : string) (v : blob) (seconds : Z) (r : redis_state) :
  0 < seconds →
  live_db (redis_expire key seconds (redis_set key v r))
  = <[key := mkEntry v (Some (now r + seconds))]> (live_db r).
Proof.
  intros Hpos. unfold redis_expire. rewrite live_db_set. cbn [now redis_set].
  rewrite alter_insert_eq. cbn [value].
  apply (live_db_idemp r).
  intros k e. rewrite lookup_insert. case_decide.
  - intros [= <-]. unfold live. cbn [expires_at now]. apply Z.ltb_lt. lia.
  - apply live_db_live.
Qed.

Section Counting.
Variable E : Env.

(** X17: a check that admits a request adds exactly one marker to those the
    limiter counts for the client and the class, provided the characters of
    the client id and of the class stand for themselves in a Redis pattern
    and the time stamp of the check was not used for a marker that is still
    live. *)
Theorem exceeds_rate_limit_counts (user_id request_type : string) (ceiling : Z) (w : world) :
  let key := marker_key E user_id request_type w in
  let w' := (exceeds_rate_limit E user_id request_type w).2 in
  RATE_LIMIT_REQUESTS_PER_USER_PER_MINUTE !! request_type = Some ceiling →
  (∀ n, redis_down E n = false) →
  Z.of_nat (length (live_markers user_id request_type (redis w))) < ceiling →
  Str.all plain (rate_limit_key_prefix user_id request_type) = true →
  redis_get key (redis w) = None →
  length (live_markers user_id request_type (redis w'))
  = S (length (live_markers user_id request_type (redis w))).
Proof.
  intros key w' Hclass Hup Hlt Hplain Hfresh. subst w'.
  unfold exceeds_rate_limit. rewrite Hclass.
  unfold mbind, M_bind, time_now, try_except, REDIS_keys, REDIS_set, REDIS_expire,
    redis_command, mret, M_ret.
  cbn [redis redis_calls clock_reads trace].
  rewrite !Hup. fold (live_markers user_id request_type (redis w)).
  rewrite Z.mul_1_l.
  destruct (Z.leb_spec ceiling (Z.of_nat (length (live_markers user_id request_type (redis w)))))
    as [|_]; [lia|].
  cbn [redis redis_calls clock_reads trace fst snd]. rewrite !Hup.
  cbn [redis redis_calls clock_reads trace fst snd].
  fold (marker_key E user_id request_type w). fold key.
  unfold live_markers, redis_keys.
  rewrite live_db_expire_set by done.
  unfold redis_get in Hfresh. apply fmap_None in Hfresh.
  rewrite (filter_length_Permutation _ _
             (key :: (map_to_list (live_db (redis w))).*1)).
  2:{ rewrite map_to_list_insert by done. done. }
  cbn [List.filter].
  rewrite glob_plain_prefix by done.
  unfold Str.startswith, key, marker_key.
  by rewrite strip_prefix_append.
Qed.

End Counting.

Lemma exceeds_rate_limit_counts_witness :
  length (live_markers "1.2.3.4" "SpliceAI: computed"
            (redis (exceeds_rate_limit Demo.env "1.2.3.4" "SpliceAI: computed" Demo.w0).2))
  = 1%nat.
Proof.
  apply (exceeds_rate_limit_counts Demo.env "1.2.3.4" "SpliceAI: computed" 4 Demo.w0).
  - vm_compute. reflexivity.
  - intros n. reflexivity.
  - vm_compute. reflexivity.
  - vm_compute. reflexivity.
  - vm_compute. reflexivity.
Defined.

(** ** The liftOver tool and the position format *)

Section LiftoverTool.
Variable E : Env.

(** X18: whatever liftOver does, [run_UCSC_liftover_tool] on a chromosome
    name either raises a [ValueError] or returns the seven fields of a
    result: the chromosome with exactly one [chr] prefix added, the
    coordinates it was given, and output coordinates that are integers. *)
Theorem run_UCSC_liftover_tool_outcome (hg chrom : string) (start end_ : pyval) (w : world) :
  match (run_UCSC_liftover_tool E hg (PStr chrom) start end_ w).1 with
  | inl e => exn_type e = "ValueError"
  | inr result =>
      dom result = list_to_set ["chrom"; "start"; "end"; "output_chrom"; "output_start";
                                "output_end"; "output_strand"]
      ∧ result !! "chrom" = Some (PStr ("chr" +:+ Str.replace "chr" "" chrom))
      ∧ result !! "start" = Some start
      ∧ result !! "end" = Some end_
      ∧ ∃ output_start output_end : Z,
          result !! "output_start" = Some (PInt output_start)
          ∧ result !! "output_end" = Some (PInt output_end)
  end.
Proof.
  unfold run_UCSC_liftover_tool.
  destruct (CHAIN_FILE_PATHS !! hg) as [chain_file_path|]; [|done].
  unfold mbind, M_bind, emit. cbn [fst snd].
  destruct (liftOver E chain_file_path _) as [e|[results unmapped]]; [done|].
  destruct (5 <? length _)%nat.
  - destruct (int_of _) as [e|output_start]; [done|].
    destruct (int_of _) as [e|output_end]; [done|].
    cbn [mret M_ret fst]. split; [|split; [|split; [|split]]].
    + rewrite !dom_insert_L, dom_singleton_L. cbn [list_to_set]. set_solver.
    + by simplify_map_eq.
    + by simplify_map_eq.
    + by simplify_map_eq.
    + exists output_start, output_end. by simplify_map_eq.
  - by destruct (negb _).
Qed.

(** X19: a liftover request of format [position] that passes the rate
    limit and misses the cache is lifted as the one-base interval that ends
    at the position: liftOver is run on the BED record from [pos - 1] to
    [pos] of the chromosome with its [chr] prefix, and when it returns a
    record of six fields or more the answer has the status 200, the
    position as an integer, and as [output_pos] the [output_end] of the
    answer. *)
Theorem run_liftover_position (request : Request) (w : world)
    (hg chain_file_path chrom : string) (pos_param : pyval) (pos : Z)
    (cached : option json) (out unmapped : string) (output_start output_end : Z) :
  let params := params_of request "format" in
  let checked := exceeds_rate_limit E (remote_addr request) "liftover: total" w in
  let looked := get_liftover_from_redis E hg (PStr chrom) (PInt (pos - 1)) (PInt pos)
                  checked.2 in
  let result_fields := Str.split tab (Str.strip is_space out) in
  let bed_line := liftover_bed_line ("chr" +:+ Str.replace "chr" "" chrom)
                    (PInt (pos - 1)) (PInt pos) in
  let result : gmap string pyval :=
    {[ "chrom" := PStr ("chr" +:+ Str.replace "chr" "" chrom);
       "start" := PInt (pos - 1);
       "end" := PInt pos;
       "output_chrom" := PStr (default EmptyString (result_fields !! 0%nat));
       "output_start" := PInt output_start;
       "output_end" := PInt output_end;
       "output_strand" := PStr (default EmptyString (result_fields !! 5%nat)) ]} in
  checked.1 = inr false →
  params !! "hg" = Some (PStr hg) →
  CHAIN_FILE_PATHS !! hg = Some chain_file_path →
  params !! "format" = Some (PStr "position") →
  params !! "chrom" = Some (PStr chrom) →
  chrom ≠ EmptyString →
  params !! "pos" = Some pos_param →
  truthy pos_param = true →
  int_of pos_param = inr pos →
  looked.1 = inr cached →
  from_option json_truthy false cached = false →
  liftOver E chain_file_path bed_line = inr (out, unmapped) →
  (5 < length result_fields)%nat →
  py_int (default EmptyString (result_fields !! 1%nat)) = Some output_start →
  py_int (default EmptyString (result_fields !! 2%nat)) = Some output_end →
  (run_liftover E request w).1
  = inr (mkResponse 200
           (<["output_pos" := default (PInt output_end) (params !! "output_end")]>
              (<["pos" := PInt pos]> (params ∪ result))))
  ∧ LiftOver chain_file_path bed_line ∈ trace (run_liftover E request w).2.
Proof.
  intros params checked looked result_fields bed_line result Hlimit Hhg Hchain Hformat
    Hchrom Hne Hpos Htruthy Hint Hlooked Hmiss Htool Hlen Hs1 Hs2.
  assert (∃ w',
    run_liftover E request w
    = (inr (mkResponse 200
              (<["output_pos" := default (PInt output_end) (params !! "output_end")]>
                 (<["pos" := PInt pos]> (params ∪ result)))), w')
    ∧ LiftOver chain_file_path bed_line ∈ trace w') as (w' & -> & Hev); [|done].
  unfold run_liftover. fold params.
  unfold mbind at 1. unfold M_bind at 1. fold checked.
  destruct checked as [r w1]. simpl in Hlimit. subst r. cbn [snd] in looked.
  rewrite Hhg. cbn [from_option id].
  rewrite bool_decide_true.
  2:{ apply list_elem_of_fmap. exists (hg, chain_file_path). split; [done|].
      by apply elem_of_map_to_list. }
  rewrite Hformat. cbn [from_option id negb].
  rewrite Hchrom. cbn [from_option id].
  replace (truthy (PStr chrom)) with true.
  2:{ simpl. by destruct (String.eqb_spec chrom EmptyString). }
  rewrite Hpos. cbn [from_option id]. rewrite Htruthy.
  change (negb (truthy (PStr "position"))
          || negb (bool_decide (PStr "position" ∈ PStr <$> VALID_FORMAT_VALUES)))
    with false.
  change (py_str (PStr "position")) with "position".
  change (String.eqb "position" "interval") with false.
  rewrite Hint. cbn [negb lift_exn].
  unfold mbind, M_bind, mret, M_ret. fold looked.
  destruct looked as [c w2]. simpl in Hlooked. subst c. rewrite Hmiss.
  unfold try_except, run_UCSC_liftover_tool. rewrite Hchain.
  unfold mbind, M_bind, mret, M_ret, emit, raise. fold bed_line. rewrite Htool.
  fold result_fields. apply Nat.ltb_lt in Hlen. rewrite Hlen.
  unfold int_of. rewrite Hs1, Hs2. fold result.
  unfold add_liftover_to_redis, try_except, REDIS_set, redis_command.
  cbn [redis redis_calls clock_reads trace].
  unfold finish_liftover, item, mbind, M_bind, mret, M_ret.
  change (String.eqb "position" "position" || String.eqb "position" "variant") with true.
  change (String.eqb "position" "variant") with false. cbv iota.
  cbn [from_option].
  assert (Hend : (<["pos" := PInt pos]> (params ∪ result)) !! "output_end"
                 = Some (default (PInt output_end) (params !! "output_end"))).
  { rewrite lookup_insert_ne by done.
    destruct (params !! "output_end") as [v|] eqn:Hv.
    - by apply lookup_union_Some_l.
    - rewrite lookup_union_r by done. subst result. by simplify_map_eq. }
  destruct (redis_down E (redis_calls w2)); cbn [fst snd trace]; rewrite Hend;
    (eexists; split; [reflexivity|]); cbn [trace];
    rewrite !elem_of_app, !list_elem_of_singleton; auto.
Qed.

End LiftoverTool.

Lemma run_liftover_position_witness :
  let request := Demo.get "1.2.3.4"
                   [("format", "position"); ("hg", "hg19-to-hg38"); ("chrom", "chr8");
                    ("pos", "140300615")] in
  ∃ response,
    (run_liftover Demo.env request Demo.w0).1 = inr response
    ∧ status response = 200
    ∧ body response !! "pos" = Some (PInt 140300615)
    ∧ body response !! "output_pos" = Some (PInt 139288372).
Proof.
  intros request.
  pose proof (run_liftover_position Demo.env request Demo.w0
                "hg19-to-hg38" "hg19ToHg38.over.chain.gz" "chr8"
                (PStr "140300615") 140300615 None
                (Str.join tab ["chr8"; "139288371"; "139288372"; "."; "0"; "-"] +:+ nl)
                EmptyString 139288371 139288372) as H.
  cbv zeta in H.
  do 5 (specialize (H ltac:(vm_compute; reflexivity))).
  specialize (H ltac:(discriminate)).
  do 6 (specialize (H ltac:(vm_compute; reflexivity))).
  specialize (H ltac:(apply Nat.ltb_lt; vm_compute; reflexivity)).
  do 2 (specialize (H ltac:(vm_compute; reflexivity))).
  destruct H as [Hrun _].
  eexists. split; [exact Hrun|].
  repeat split; vm_compute; reflexivity.
Defined.

(** ** Answers from the model *)

Section Computed.
Variable E : Env.

(** X20: a covered variant that is not looked up in the precomputed files
    and that the rate limit of computed requests admits is scored by the
    model, called once with the variant, the annotator of the build, and
    the distance and mask of the request; the scores it returns, their
    alleles dropped, are the result, with the source [computed]. *)
Theorem process_variant_computed (request : Request)
    (variant genome_version : string) (d m p : Z)
    (chrom : string) (pos : Z) (ref alt : string)
    (annotator : Annotator) (raw scores : list string) (w : world) :
  let checked := exceeds_rate_limit E (remote_addr request) "SpliceAI: computed" w in
  let record := mkVariantRecord chrom pos ref [alt] in
  parse_variant variant = inr (chrom, pos, ref, alt) →
  (String.length ref ≤ 1 ∨ String.length alt ≤ 1)%nat →
  covering E genome_version chrom pos ≠ [] →
  d ≠ SPLICEAI_DEFAULT_DISTANCE ∨ p ≠ 1 →
  checked.1 = inr false →
  SPLICEAI_ANNOTATOR !! genome_version = Some annotator →
  get_delta_scores E record annotator d m = inr raw →
  raw ≠ [] →
  drop_alleles raw = inr scores →
  process_variant E request variant genome_version d m p w
  = (inr (success_result variant genome_version chrom pos ref alt scores (PStr "computed")),
     mkWorld (redis checked.2) (redis_calls checked.2) (clock_reads checked.2)
       (trace checked.2 ++ [Get_delta_scores record annotator d m])%list).
Proof.
  intros checked record Hparse Hsimple Hcovered Hskip Hfirst Hannotator Hmodel Hraw Hdrop.
  unfold process_variant. rewrite Hparse.
  replace ((1 <? String.length ref)%nat && (1 <? String.length alt)%nat) with false.
  2:{ symmetry. apply andb_false_iff.
      destruct Hsimple; [left|right]; apply Nat.ltb_ge; lia. }
  destruct (covering_build _ _ _ _ Hcovered) as (trees & -> & Heq).
  rewrite Heq in Hcovered.
  destruct (at_ (tree_of trees (Str.replace "chr" "" chrom)) pos) as [|i covered]; [done|].
  assert (precomputed_guard ref alt d p = false) as ->.
  { apply not_true_is_false. rewrite precomputed_guard_spec. intros (_ & ? & ?).
    destruct Hskip; done. }
  unfold mbind, M_bind. cbn [mret M_ret]. fold checked.
  destruct checked as [r w1]. cbn [fst snd] in *. subst r.
  rewrite Hannotator. unfold emit. fold record. rewrite Hmodel.
  destruct raw as [|s raw]; [done|]. unfold mret, M_ret. by rewrite Hdrop.
Qed.

Lemma bounded_scoring (record : VariantRecord) (annotator : Annotator) (d m : Z) :
  d ≤ SPLICEAI_MAX_DISTANCE_LIMIT → m = 0 ∨ m = 1 →
  is_unbounded_scoring (Get_delta_scores record annotator d m) = false.
Proof.
  intros Hd Hm. cbn [is_unbounded_scoring].
  apply orb_false_iff. split; [by apply Z.ltb_ge|].
  by destruct Hm as [-> | ->].
Qed.

Lemma quiet_process_variant_bounded (request : Request) (variant genome_version : string)
    (d m p : Z) :
  d ≤ SPLICEAI_MAX_DISTANCE_LIMIT → m = 0 ∨ m = 1 →
  quiet is_unbounded_scoring (process_variant E request variant genome_version d m p).
Proof.
  intros Hd Hm. unfold process_variant.
  repeat first
    [ quiet_step
    | apply quiet_exceeds_rate_limit; reflexivity
    | apply quiet_emit; by apply bounded_scoring
    | case_match ].
Qed.

Lemma quiet_lookup_or_process_bounded (request : Request) (variant genome_version : string)
    (d m p : Z) :
  d ≤ SPLICEAI_MAX_DISTANCE_LIMIT → m = 0 ∨ m = 1 →
  quiet is_unbounded_scoring (lookup_or_process E request variant genome_version d m p).
Proof.
  intros Hd Hm. unfold lookup_or_process.
  apply quiet_bind.
  { unfold get_spliceai_from_redis, REDIS_get. repeat (quiet_step || case_match). }
  intros cached. case_match; [apply quiet_ret|].
  apply quiet_bind; [by apply quiet_process_variant_bounded|intros results].
  apply quiet_bind; [|intros; apply quiet_ret].
  case_match; [apply quiet_ret|].
  unfold add_spliceai_to_redis, REDIS_set. repeat quiet_step.
Qed.

Lemma flag_value_cases (v : pyval) : flag_value v = 0 ∨ flag_value v = 1.
Proof. unfold flag_value. case_bool_decide; auto. Qed.

(** X21: whatever the request, [run_spliceai] never calls the model with a
    distance above [SPLICEAI_MAX_DISTANCE_LIMIT] or with a mask other than
    0 and 1. *)
Theorem run_spliceai_bounded (request : Request) :
  quiet is_unbounded_scoring (run_spliceai E request).
Proof.
  unfold run_spliceai.
  apply quiet_bind; [by apply quiet_exceeds_rate_limit|intros limited].
  repeat first
    [ apply quiet_bind;
      [ apply quiet_lookup_or_process_bounded; [by apply Z.ltb_ge|apply flag_value_cases]
      | intros results; unfold respond; case_match ]
    | apply quiet_ret
    | apply quiet_raise
    | case_match ].
Qed.

End Computed.

Lemma process_variant_computed_witness :
  (process_variant Demo.env (Demo.score_request "51") "chr8-140300615-C-G" "38" 51 0 1
     Demo.w0).1
  = inr (success_result "chr8-140300615-C-G" "38" "8" 140300615 "C" "G"
           ["TRAPPC9|0.00|0.03|0.00|0.01|-2|15|-2|15"] (PStr "computed")).
Proof.
  etrans; [apply (f_equal fst);
           apply (process_variant_computed Demo.env (Demo.score_request "51")
                    "chr8-140300615-C-G" "38" 51 0 1 "8" 140300615 "C" "G"
                    (mkAnnotator "~/hg38.fa" "./annotations/gencode.v38.annotation.txt.gz")
                    ["G|TRAPPC9|0.00|0.03|0.00|0.01|-2|15|-2|15"]
                    ["TRAPPC9|0.00|0.03|0.00|0.01|-2|15|-2|15"])
          |reflexivity].
  - vm_compute. reflexivity.
  - left. simpl. lia.
  - vm_compute. discriminate.
  - left. vm_compute. discriminate.
  - vm_compute. reflexivity.
  - vm_compute. reflexivity.
  - vm_compute. reflexivity.
  - discriminate.
  - vm_compute. reflexivity.
Defined.
